(** * QA pipeline: request endpoints, relational schema, and the pipeline core

  A shallow embedding of
  - the edge functions qa-test-runner, report-generator and
    bug-report-query: each handler is a function from a request and the
    clock reading to a response;
  - the relational schema of the migration
    [20251206014542_create_qa_system_schema.sql]: tables are lists of rows,
    INSERT and UPDATE check the declared constraints and row-level
    policies, SELECT applies the policies, DELETE runs the declared
    referential actions;
  - the pipeline core (bug detector, broken-links runner, orchestrator,
    scheduler), whose Python modules are not part of the sources at hand
    and are modelled from the design document. *)

From Stdlib Require Import ZArith Ascii String Floats.PrimFloat.
From stdpp Require Import base option list strings gmap.

Set Warnings "-register-all".

Open Scope string_scope.

(** ** JavaScript values that come out of [JSON.parse] *)

Module Json.

(** A parsed JSON value. Numbers are IEEE binary64, as in JavaScript. An
    object is the list of its own properties in the order in which the
    object enumerates them (insertion order, after the integer-like keys);
    [JSON.parse] keeps one binding per key, and [get_field] reads the
    first binding of a key. *)
Inductive json : Type :=
| JNull
| JBool (b : bool)
| JNum (x : float)
| JStr (s : string)
| JArr (items : list json)
| JObj (fields : list (string * json)).

(** A thrown JavaScript [Error]: its class name and its [message]. *)
Record Error : Type := mkError { err_name : string; err_message : string }.

(** The outcome of an expression that may throw. *)
Inductive completion (A : Type) : Type :=
| Normal (a : A)
| Throw (e : Error).
Arguments Normal {A} a.
Arguments Throw {A} e.

Definition bind {A B} (c : completion A) (k : A -> completion B) : completion B :=
  match c with
  | Normal a => k a
  | Throw e => Throw e
  end.

Fixpoint get_field (k : string) (fields : list (string * json)) : option json :=
  match fields with
  | [] => None
  | (k', v) :: rest => if decide (k' = k) then Some v else get_field k rest
  end.

(** The own property [k] of a value other than [null], for a property name
    that no prototype defines (such as [project_id], [base_url]): [None] is
    [undefined]. Only an object has such a property. *)
Definition own_prop (v : json) (k : string) : option json :=
  match v with
  | JObj fields => get_field k fields
  | JNull | JBool _ | JNum _ | JStr _ | JArr _ => None
  end.

(** [v.k]: reading a property of [null] throws a TypeError. *)
Definition get_prop (v : json) (k : string) : completion (option json) :=
  match v with
  | JNull =>
      Throw (mkError "TypeError"
               ("Cannot read properties of null (reading '" ++ k ++ "')"))
  | _ => Normal (own_prop v k)
  end.

(** ToBoolean on a parsed value: [null], [false], [0], [-0], [NaN] and the
    empty string are falsy. *)
Definition truthy (v : json) : bool :=
  match v with
  | JNull => false
  | JBool b => b
  | JNum x => negb (PrimFloat.eqb x 0%float) && PrimFloat.eqb x x
  | JStr s => negb (bool_decide (s = ""))
  | JArr _ | JObj _ => true
  end.

(** ToBoolean on the result of a property read ([undefined] is falsy). *)
Definition truthy_opt (o : option json) : bool :=
  match o with
  | None => false
  | Some v => truthy v
  end.

(** A value of type [string | null], as [URLSearchParams.get] returns. *)
Definition of_nullable (o : option string) : json :=
  match o with
  | None => JNull
  | Some s => JStr s
  end.

(** ToBoolean on [string | null]. *)
Definition truthy_nullable (o : option string) : bool := truthy (of_nullable o).

(** What [JSON.stringify] writes for a number: [null] for one that is not
    finite ([1e999] parses to [Infinity]), [0] for negative zero, and every
    other number as the shortest decimal that reads back as the same
    number. *)
Definition written_number (x : float) : json :=
  if PrimFloat.is_finite x then
    (if PrimFloat.is_zero x then JNum 0%float else JNum x)
  else JNull.

(** [JSON.stringify(v)] for a value built from parsed JSON, strings and
    [null]: the text is given by the JSON value it denotes, which is what a
    client reads from it. Properties are written in the order of the
    object; strings, booleans and [null] are written as they are. *)
Fixpoint stringify (v : json) : json :=
  match v with
  | JNum x => written_number x
  | JArr items => JArr (map stringify items)
  | JObj fields => JObj (map (fun '(k, x) => (k, stringify x)) fields)
  | JNull | JBool _ | JStr _ => v
  end.

End Json.

(** ** Requests and responses *)

Module Http.
Import Json.

(** What a handler reads of a [Request]: the method, the query string as
    the ordered list of its (name, value) pairs, and the outcome of
    [await req.json()] (a SyntaxError when the body is not JSON). *)
Record Request : Type := mkRequest {
  method : string;
  searchParams : list (string * string);
  json_body : completion json
}.

(** [new Response(text, {status, headers})]; the body is the JSON text the
    client receives, given by the value it denotes ([None] for a [null]
    body). *)
Record Response : Type := mkResponse {
  status : Z;
  headers : list (string * string);
  body : option json
}.

(** [url.searchParams.get(name)]: the first value of [name], or [null]. *)
Fixpoint searchParams_get (name : string) (ps : list (string * string)) : option string :=
  match ps with
  | [] => None
  | (n, v) :: rest => if decide (n = name) then Some v else searchParams_get name rest
  end.

Definition corsHeaders : list (string * string) :=
  [ ("Access-Control-Allow-Origin", "*");
    ("Access-Control-Allow-Methods", "GET, POST, PUT, DELETE, OPTIONS");
    ("Access-Control-Allow-Headers", "Content-Type, Authorization, X-Client-Info, Apikey") ].

(** [{...corsHeaders, "Content-Type": "application/json"}] *)
Definition jsonHeaders : list (string * string) :=
  corsHeaders ++ [ ("Content-Type", "application/json") ].

(** [new Response(JSON.stringify(v), {status, headers: jsonHeaders})] *)
Definition json_response (st : Z) (v : json) : Response :=
  mkResponse st jsonHeaders (Some (stringify v)).

(** The [catch (error)] arm shared by the handlers; every thrown
    value modelled here is an [Error] instance. *)
Definition internal_error (e : Error) : Response :=
  json_response 500
    (JObj [ ("error", JStr "Internal server error");
            ("message", JStr (err_message e)) ]).

Definition method_not_allowed : Response :=
  json_response 405 (JObj [ ("error", JStr "Method not allowed") ]).

Definition options_response : Response := mkResponse 200 corsHeaders None.

(** [try { body } catch (error) { ... 500 ... }] *)
Definition try_catch (c : completion Response) : Response :=
  match c with
  | Normal r => r
  | Throw e => internal_error e
  end.

End Http.

(** ** The qa-test-runner edge function *)

Module QaTestRunner.
Import Json Http.

(** The statements of the [try] block. [now_iso] is the value of
    [new Date().toISOString()]. *)
Definition try_body (now_iso : string) (req : Request) : completion Response :=
  if decide (method req = "POST") then
    bind (json_body req) (fun payload =>
    bind (get_prop payload "project_id") (fun project_id =>
      if negb (truthy_opt project_id) then
        Normal (json_response 400
                  (JObj [ ("error", JStr "Missing required fields: project_id, base_url") ]))
      else
        bind (get_prop payload "base_url") (fun base_url =>
          if negb (truthy_opt base_url) then
            Normal (json_response 400
                      (JObj [ ("error", JStr "Missing required fields: project_id, base_url") ]))
          else
            Normal (json_response 202
                      (JObj [ ("status", JStr "started");
                              ("project_id", default JNull project_id);
                              ("message", JStr "QA test suite initiated. Check database for updates.");
                              ("timestamp", JStr now_iso) ])))))
  else if decide (method req = "GET") then
    let project_id := searchParams_get "project_id" (searchParams req) in
    if negb (truthy_nullable project_id) then
      Normal (json_response 400 (JObj [ ("error", JStr "Missing project_id parameter") ]))
    else
      Normal (json_response 200
                (JObj [ ("project_id", of_nullable project_id);
                        ("message", JStr "Retrieve test execution history from test_executions table");
                        ("endpoint", JStr "GET /functions/v1/qa-test-runner?project_id=<project_id>") ]))
  else
    Normal method_not_allowed.

(** The handler given to [Deno.serve]. *)
Definition serve (now_iso : string) (req : Request) : Response :=
  if decide (method req = "OPTIONS") then options_response
  else try_catch (try_body now_iso req).

(** The body of the acknowledgement. *)
Definition acknowledgement (project_id : json) (now_iso : string) : json :=
  JObj [ ("status", JStr "started");
         ("project_id", project_id);
         ("message", JStr "QA test suite initiated. Check database for updates.");
         ("timestamp", JStr now_iso) ].

Definition missing_fields : json :=
  JObj [ ("error", JStr "Missing required fields: project_id, base_url") ].

(** [project_id] or [base_url] is missing or falsy in the payload. *)
Definition lacks_required (payload : json) : bool :=
  negb (truthy_opt (own_prop payload "project_id"))
  || negb (truthy_opt (own_prop payload "base_url")).

End QaTestRunner.

(** ** The bug-report-query edge function *)

Module BugReportQuery.
Import Json Http.

Definition try_body (now_iso : string) (req : Request) : completion Response :=
  if decide (method req = "GET") then
    let execution_id := searchParams_get "execution_id" (searchParams req) in
    let project_id := searchParams_get "project_id" (searchParams req) in
    let severity := searchParams_get "severity" (searchParams req) in
    if negb (truthy_nullable execution_id) && negb (truthy_nullable project_id) then
      Normal (json_response 400
                (JObj [ ("error", JStr "Missing execution_id or project_id parameter") ]))
    else
      Normal (json_response 200
                (JObj [ ("query", JObj [ ("execution_id", of_nullable execution_id);
                                         ("project_id", of_nullable project_id);
                                         ("severity", of_nullable severity) ]);
                        ("message", JStr "Query bug reports using the database directly");
                        ("example", JStr "GET /functions/v1/bug-report-query?execution_id=<id>&severity=critical") ]))
  else if decide (method req = "POST") then
    bind (json_body req) (fun payload =>
      Normal (json_response 200
                (JObj [ ("status", JStr "received");
                        ("message", JStr "Bug report query processed");
                        ("query", payload);
                        ("timestamp", JStr now_iso) ])))
  else
    Normal method_not_allowed.

Definition serve (now_iso : string) (req : Request) : Response :=
  if decide (method req = "OPTIONS") then options_response
  else try_catch (try_body now_iso req).

(** The query carries a non-empty value for [name] (the first one counts). *)
Definition has_value (name : string) (req : Request) : Prop :=
  exists v, searchParams_get name (searchParams req) = Some v /\ v <> "".

Definition missing_parameter : json :=
  JObj [ ("error", JStr "Missing execution_id or project_id parameter") ].

End BugReportQuery.

(** ** The relational schema of the migration *)

Module Schema.
Import Json.

Definition uuid : Type := string.
(** [timestamptz], in microseconds since the epoch. *)
Definition timestamptz : Type := Z.
(** [numeric], as a fraction. *)
Definition numeric : Type := (Z * positive)%type.

(** A column declared [NOT NULL] (or [PRIMARY KEY]) has its plain type; every
    other column is an [option], [None] being SQL NULL. A [DEFAULT] only
    fills a column that the INSERT leaves out, so rows are given in full. *)

Record test_projects_row : Type := {
  tp_id : uuid;
  tp_name : string;
  tp_description : option string;
  tp_base_url : string;
  tp_owner_id : uuid;
  tp_status : option string;
  tp_created_at : option timestamptz;
  tp_updated_at : option timestamptz
}.

Record test_scenarios_row : Type := {
  sc_id : uuid;
  sc_project_id : uuid;
  sc_name : string;
  sc_description : option string;
  sc_test_type : string;
  sc_priority : option string;
  sc_enabled : option bool;
  sc_created_at : option timestamptz;
  sc_updated_at : option timestamptz
}.

Record test_executions_row : Type := {
  te_id : uuid;
  te_project_id : uuid;
  te_execution_date : option timestamptz;
  te_status : option string;
  te_total_tests : option Z;
  te_passed : option Z;
  te_failed : option Z;
  te_warnings : option Z;
  te_duration_seconds : option Z;
  te_created_at : option timestamptz
}.

Record test_results_row : Type := {
  tr_id : uuid;
  tr_execution_id : uuid;
  tr_scenario_id : uuid;
  tr_status : string;
  tr_error_message : option string;
  tr_duration_ms : option Z;
  tr_details : option json;
  tr_created_at : option timestamptz
}.

Record bug_reports_row : Type := {
  br_id : uuid;
  br_project_id : uuid;
  br_execution_id : option uuid;
  br_title : string;
  br_description : option string;
  br_severity : string;
  br_status : option string;
  br_bug_type : option string;
  br_page_url : option string;
  br_steps_to_reproduce : option string;
  br_expected_behavior : option string;
  br_actual_behavior : option string;
  br_browser_info : option json;
  br_created_at : option timestamptz;
  br_updated_at : option timestamptz
}.

Record performance_metrics_row : Type := {
  pm_id : uuid;
  pm_execution_id : uuid;
  pm_page_url : string;
  pm_page_load_time_ms : option Z;
  pm_first_contentful_paint_ms : option Z;
  pm_largest_contentful_paint_ms : option Z;
  pm_total_requests : option Z;
  pm_failed_requests : option Z;
  pm_total_size_kb : option numeric;
  pm_resource_details : option json;
  pm_created_at : option timestamptz
}.

Record accessibility_issues_row : Type := {
  ai_id : uuid;
  ai_execution_id : uuid;
  ai_page_url : string;
  ai_issue_type : string;
  ai_wcag_level : option string;
  ai_element_description : option string;
  ai_severity : option string;
  ai_recommendation : option string;
  ai_created_at : option timestamptz
}.

Record screenshots_row : Type := {
  ss_id : uuid;
  ss_execution_id : uuid;
  ss_scenario_id : option uuid;
  ss_page_url : option string;
  ss_screenshot_path : option string;
  ss_screenshot_data : option string;
  ss_description : option string;
  ss_created_at : option timestamptz
}.

Record test_schedules_row : Type := {
  sch_id : uuid;
  sch_project_id : uuid;
  sch_name : string;
  sch_cron_expression : string;
  sch_enabled : option bool;
  sch_last_run : option timestamptz;
  sch_next_run : option timestamptz;
  sch_created_at : option timestamptz;
  sch_updated_at : option timestamptz
}.

(** The state of the store: one list of rows per table. *)
Record Database : Type := {
  test_projects : list test_projects_row;
  test_scenarios : list test_scenarios_row;
  test_executions : list test_executions_row;
  test_results : list test_results_row;
  bug_reports : list bug_reports_row;
  performance_metrics : list performance_metrics_row;
  accessibility_issues : list accessibility_issues_row;
  screenshots : list screenshots_row;
  test_schedules : list test_schedules_row
}.

Definition empty_db : Database :=
  {| test_projects := []; test_scenarios := []; test_executions := [];
     test_results := []; bug_reports := []; performance_metrics := [];
     accessibility_issues := []; screenshots := []; test_schedules := [] |}.

(** *** Foreign keys and their [ON DELETE] actions *)

Inductive referential_action : Type := CASCADE | SET_NULL.

(** The action each [REFERENCES ... ON DELETE ...] clause declares. *)
Definition test_scenarios_project_id_fk : referential_action := CASCADE.
Definition test_executions_project_id_fk : referential_action := CASCADE.
Definition test_results_execution_id_fk : referential_action := CASCADE.
Definition test_results_scenario_id_fk : referential_action := CASCADE.
Definition bug_reports_project_id_fk : referential_action := CASCADE.
Definition bug_reports_execution_id_fk : referential_action := SET_NULL.
Definition performance_metrics_execution_id_fk : referential_action := CASCADE.
Definition accessibility_issues_execution_id_fk : referential_action := CASCADE.
Definition screenshots_execution_id_fk : referential_action := CASCADE.
Definition screenshots_scenario_id_fk : referential_action := SET_NULL.
Definition test_schedules_project_id_fk : referential_action := CASCADE.

(** A row references a deleted parent when its foreign-key column holds one
    of the deleted keys. *)
Definition references {R : Type} (ref : R -> option uuid) (gone : list uuid) (r : R) : Prop :=
  match ref r with
  | Some k => k ∈ gone
  | None => False
  end.

#[global] Instance references_dec {R : Type} (ref : R -> option uuid) (gone : list uuid) (r : R) :
  Decision (references ref gone r).
Proof. unfold references. destruct (ref r); apply _. Defined.

(** What a foreign key does to the referencing table when the parent rows
    with the keys [gone] are deleted: [CASCADE] deletes the referencing
    rows, [SET NULL] keeps them and clears the column ([clear]). *)
Definition on_delete {R : Type} (a : referential_action)
    (ref : R -> option uuid) (clear : R -> R) (gone : list uuid) (rows : list R) : list R :=
  match a with
  | CASCADE => filter (fun r => ~ references ref gone r) rows
  | SET_NULL => map (fun r => if decide (references ref gone r) then clear r else r) rows
  end.

(** The keys of the rows of a table that a cascading foreign key deletes. *)
Definition cascaded {R : Type} (key : R -> uuid)
    (ref : R -> option uuid) (gone : list uuid) (rows : list R) : list uuid :=
  map key (filter (references ref gone) rows).

Definition br_clear_execution_id (b : bug_reports_row) : bug_reports_row :=
  {| br_id := br_id b; br_project_id := br_project_id b; br_execution_id := None;
     br_title := br_title b; br_description := br_description b;
     br_severity := br_severity b; br_status := br_status b;
     br_bug_type := br_bug_type b; br_page_url := br_page_url b;
     br_steps_to_reproduce := br_steps_to_reproduce b;
     br_expected_behavior := br_expected_behavior b;
     br_actual_behavior := br_actual_behavior b;
     br_browser_info := br_browser_info b;
     br_created_at := br_created_at b; br_updated_at := br_updated_at b |}.

Definition ss_clear_scenario_id (s : screenshots_row) : screenshots_row :=
  {| ss_id := ss_id s; ss_execution_id := ss_execution_id s; ss_scenario_id := None;
     ss_page_url := ss_page_url s; ss_screenshot_path := ss_screenshot_path s;
     ss_screenshot_data := ss_screenshot_data s; ss_description := ss_description s;
     ss_created_at := ss_created_at s |}.

(** A column declared [NOT NULL] is never cleared: only [CASCADE] is
    declared on such columns. *)
Definition not_null {R : Type} (col : R -> uuid) : R -> option uuid := fun r => Some (col r).

(** The rows of the tables referencing [test_executions] after the
    executions with keys [gone] are deleted. *)
Definition delete_executions_children (gone : list uuid) (db : Database) : Database :=
  {| test_projects := test_projects db;
     test_scenarios := test_scenarios db;
     test_executions := test_executions db;
     test_results :=
       on_delete test_results_execution_id_fk (not_null tr_execution_id) id gone (test_results db);
     bug_reports :=
       on_delete bug_reports_execution_id_fk br_execution_id br_clear_execution_id gone (bug_reports db);
     performance_metrics :=
       on_delete performance_metrics_execution_id_fk (not_null pm_execution_id) id gone
         (performance_metrics db);
     accessibility_issues :=
       on_delete accessibility_issues_execution_id_fk (not_null ai_execution_id) id gone
         (accessibility_issues db);
     screenshots :=
       on_delete screenshots_execution_id_fk (not_null ss_execution_id) id gone (screenshots db);
     test_schedules := test_schedules db |}.

(** The rows of the tables referencing [test_scenarios] after the scenarios
    with keys [gone] are deleted. *)
Definition delete_scenarios_children (gone : list uuid) (db : Database) : Database :=
  {| test_projects := test_projects db;
     test_scenarios := test_scenarios db;
     test_executions := test_executions db;
     test_results :=
       on_delete test_results_scenario_id_fk (not_null tr_scenario_id) id gone (test_results db);
     bug_reports := bug_reports db;
     performance_metrics := performance_metrics db;
     accessibility_issues := accessibility_issues db;
     screenshots :=
       on_delete screenshots_scenario_id_fk ss_scenario_id ss_clear_scenario_id gone (screenshots db);
     test_schedules := test_schedules db |}.

Definition with_test_executions (rows : list test_executions_row) (db : Database) : Database :=
  {| test_projects := test_projects db; test_scenarios := test_scenarios db;
     test_executions := rows; test_results := test_results db;
     bug_reports := bug_reports db; performance_metrics := performance_metrics db;
     accessibility_issues := accessibility_issues db; screenshots := screenshots db;
     test_schedules := test_schedules db |}.

Definition with_test_scenarios (rows : list test_scenarios_row) (db : Database) : Database :=
  {| test_projects := test_projects db; test_scenarios := rows;
     test_executions := test_executions db; test_results := test_results db;
     bug_reports := bug_reports db; performance_metrics := performance_metrics db;
     accessibility_issues := accessibility_issues db; screenshots := screenshots db;
     test_schedules := test_schedules db |}.

(** [DELETE FROM test_executions WHERE id = eid], run by a role that
    bypasses row-level security (the migration declares no DELETE policy,
    so the [authenticated] role deletes no row). When no such row exists
    the statement changes nothing. *)
Definition delete_execution (eid : uuid) (db : Database) : Database :=
  if decide (eid ∈ map te_id (test_executions db)) then
    delete_executions_children [eid]
      (with_test_executions (filter (fun e => te_id e <> eid) (test_executions db)) db)
  else db.

(** [DELETE FROM test_scenarios WHERE id = sid], row-level security bypassed. *)
Definition delete_scenario (sid : uuid) (db : Database) : Database :=
  if decide (sid ∈ map sc_id (test_scenarios db)) then
    delete_scenarios_children [sid]
      (with_test_scenarios (filter (fun s => sc_id s <> sid) (test_scenarios db)) db)
  else db.

(** [DELETE FROM test_projects WHERE id = pid], row-level security bypassed:
    the project's scenarios and executions are deleted (and their own
    referencing rows treated as above), then its bug reports and schedules. *)
Definition delete_project (pid : uuid) (db : Database) : Database :=
  if decide (pid ∈ map tp_id (test_projects db)) then
    let scs := cascaded sc_id (not_null sc_project_id) [pid] (test_scenarios db) in
    let exs := cascaded te_id (not_null te_project_id) [pid] (test_executions db) in
    let db1 := delete_scenarios_children scs (delete_executions_children exs db) in
    {| test_projects := filter (fun p => tp_id p <> pid) (test_projects db1);
       test_scenarios :=
         on_delete test_scenarios_project_id_fk (not_null sc_project_id) id [pid] (test_scenarios db1);
       test_executions :=
         on_delete test_executions_project_id_fk (not_null te_project_id) id [pid] (test_executions db1);
       test_results := test_results db1;
       bug_reports :=
         on_delete bug_reports_project_id_fk (not_null br_project_id) id [pid] (bug_reports db1);
       performance_metrics := performance_metrics db1;
       accessibility_issues := accessibility_issues db1;
       screenshots := screenshots db1;
       test_schedules :=
         on_delete test_schedules_project_id_fk (not_null sch_project_id) id [pid] (test_schedules db1) |}
  else db.

(** *** INSERT: primary keys, foreign keys, row-level security *)

(** Who runs a statement: an [authenticated] user ([auth.uid()]), or a role
    that bypasses row-level security. *)
Inductive role : Type := Authenticated (uid : uuid) | ServiceRole.

(** [EXISTS (SELECT 1 FROM test_projects WHERE id = pid AND owner_id = auth.uid())] *)
Definition owns_project (r : role) (pid : uuid) (db : Database) : bool :=
  match r with
  | ServiceRole => true
  | Authenticated uid =>
      bool_decide (Exists (fun p => tp_id p = pid /\ tp_owner_id p = uid) (test_projects db))
  end.

(** [EXISTS (SELECT 1 FROM test_executions JOIN test_projects ON ... WHERE
    test_executions.id = eid AND test_projects.owner_id = auth.uid())] *)
Definition owns_execution (r : role) (eid : uuid) (db : Database) : bool :=
  match r with
  | ServiceRole => true
  | Authenticated uid =>
      bool_decide (Exists (fun e => te_id e = eid /\
                                    owns_project r (te_project_id e) db = true)
                     (test_executions db))
  end.

Definition fresh_key (k : uuid) (keys : list uuid) : bool := bool_decide (k ∉ keys).
Definition has_key (k : uuid) (keys : list uuid) : bool := bool_decide (k ∈ keys).

Definition insert_test_project (r : role) (row : test_projects_row) (db : Database)
  : option Database :=
  if fresh_key (tp_id row) (map tp_id (test_projects db))
     && match r with
        | ServiceRole => true
        | Authenticated uid => bool_decide (tp_owner_id row = uid)
        end
  then Some {| test_projects := test_projects db ++ [row];
               test_scenarios := test_scenarios db; test_executions := test_executions db;
               test_results := test_results db; bug_reports := bug_reports db;
               performance_metrics := performance_metrics db;
               accessibility_issues := accessibility_issues db;
               screenshots := screenshots db; test_schedules := test_schedules db |}
  else None.

Definition insert_test_execution (r : role) (row : test_executions_row) (db : Database)
  : option Database :=
  if fresh_key (te_id row) (map te_id (test_executions db))
     && has_key (te_project_id row) (map tp_id (test_projects db))
     && owns_project r (te_project_id row) db
  then Some (with_test_executions (test_executions db ++ [row]) db)
  else None.

Definition insert_bug_report (r : role) (row : bug_reports_row) (db : Database)
  : option Database :=
  if fresh_key (br_id row) (map br_id (bug_reports db))
     && has_key (br_project_id row) (map tp_id (test_projects db))
     && match br_execution_id row with
        | None => true
        | Some eid => has_key eid (map te_id (test_executions db))
        end
     && owns_project r (br_project_id row) db
  then Some {| test_projects := test_projects db; test_scenarios := test_scenarios db;
               test_executions := test_executions db; test_results := test_results db;
               bug_reports := bug_reports db ++ [row];
               performance_metrics := performance_metrics db;
               accessibility_issues := accessibility_issues db;
               screenshots := screenshots db; test_schedules := test_schedules db |}
  else None.

Definition insert_performance_metric (r : role) (row : performance_metrics_row) (db : Database)
  : option Database :=
  if fresh_key (pm_id row) (map pm_id (performance_metrics db))
     && has_key (pm_execution_id row) (map te_id (test_executions db))
     && owns_execution r (pm_execution_id row) db
  then Some {| test_projects := test_projects db; test_scenarios := test_scenarios db;
               test_executions := test_executions db; test_results := test_results db;
               bug_reports := bug_reports db;
               performance_metrics := performance_metrics db ++ [row];
               accessibility_issues := accessibility_issues db;
               screenshots := screenshots db; test_schedules := test_schedules db |}
  else None.

Definition insert_accessibility_issue (r : role) (row : accessibility_issues_row) (db : Database)
  : option Database :=
  if fresh_key (ai_id row) (map ai_id (accessibility_issues db))
     && has_key (ai_execution_id row) (map te_id (test_executions db))
     && owns_execution r (ai_execution_id row) db
  then Some {| test_projects := test_projects db; test_scenarios := test_scenarios db;
               test_executions := test_executions db; test_results := test_results db;
               bug_reports := bug_reports db;
               performance_metrics := performance_metrics db;
               accessibility_issues := accessibility_issues db ++ [row];
               screenshots := screenshots db; test_schedules := test_schedules db |}
  else None.

Definition with_test_results (rows : list test_results_row) (db : Database) : Database :=
  {| test_projects := test_projects db; test_scenarios := test_scenarios db;
     test_executions := test_executions db; test_results := rows;
     bug_reports := bug_reports db; performance_metrics := performance_metrics db;
     accessibility_issues := accessibility_issues db; screenshots := screenshots db;
     test_schedules := test_schedules db |}.

Definition with_screenshots (rows : list screenshots_row) (db : Database) : Database :=
  {| test_projects := test_projects db; test_scenarios := test_scenarios db;
     test_executions := test_executions db; test_results := test_results db;
     bug_reports := bug_reports db; performance_metrics := performance_metrics db;
     accessibility_issues := accessibility_issues db; screenshots := rows;
     test_schedules := test_schedules db |}.

Definition with_test_schedules (rows : list test_schedules_row) (db : Database) : Database :=
  {| test_projects := test_projects db; test_scenarios := test_scenarios db;
     test_executions := test_executions db; test_results := test_results db;
     bug_reports := bug_reports db; performance_metrics := performance_metrics db;
     accessibility_issues := accessibility_issues db; screenshots := screenshots db;
     test_schedules := rows |}.

Definition insert_test_scenario (r : role) (row : test_scenarios_row) (db : Database)
  : option Database :=
  if fresh_key (sc_id row) (map sc_id (test_scenarios db))
     && has_key (sc_project_id row) (map tp_id (test_projects db))
     && owns_project r (sc_project_id row) db
  then Some (with_test_scenarios (test_scenarios db ++ [row]) db)
  else None.

Definition insert_test_result (r : role) (row : test_results_row) (db : Database)
  : option Database :=
  if fresh_key (tr_id row) (map tr_id (test_results db))
     && has_key (tr_execution_id row) (map te_id (test_executions db))
     && has_key (tr_scenario_id row) (map sc_id (test_scenarios db))
     && owns_execution r (tr_execution_id row) db
  then Some (with_test_results (test_results db ++ [row]) db)
  else None.

Definition insert_screenshot (r : role) (row : screenshots_row) (db : Database)
  : option Database :=
  if fresh_key (ss_id row) (map ss_id (screenshots db))
     && has_key (ss_execution_id row) (map te_id (test_executions db))
     && match ss_scenario_id row with
        | None => true
        | Some sid => has_key sid (map sc_id (test_scenarios db))
        end
     && owns_execution r (ss_execution_id row) db
  then Some (with_screenshots (screenshots db ++ [row]) db)
  else None.

Definition insert_test_schedule (r : role) (row : test_schedules_row) (db : Database)
  : option Database :=
  if fresh_key (sch_id row) (map sch_id (test_schedules db))
     && has_key (sch_project_id row) (map tp_id (test_projects db))
     && owns_project r (sch_project_id row) db
  then Some (with_test_schedules (test_schedules db ++ [row]) db)
  else None.

(** One statement against the store. *)
Inductive statement : Type :=
| InsertTestProject (r : role) (row : test_projects_row)
| InsertTestScenario (r : role) (row : test_scenarios_row)
| InsertTestExecution (r : role) (row : test_executions_row)
| InsertTestResult (r : role) (row : test_results_row)
| InsertBugReport (r : role) (row : bug_reports_row)
| InsertPerformanceMetric (r : role) (row : performance_metrics_row)
| InsertAccessibilityIssue (r : role) (row : accessibility_issues_row)
| InsertScreenshot (r : role) (row : screenshots_row)
| InsertTestSchedule (r : role) (row : test_schedules_row)
| DeleteTestExecution (eid : uuid)
| DeleteTestScenario (sid : uuid)
| DeleteTestProject (pid : uuid).

(** A rejected statement leaves the store as it was. *)
Definition exec (s : statement) (db : Database) : Database :=
  match s with
  | InsertTestProject r row => default db (insert_test_project r row db)
  | InsertTestScenario r row => default db (insert_test_scenario r row db)
  | InsertTestExecution r row => default db (insert_test_execution r row db)
  | InsertTestResult r row => default db (insert_test_result r row db)
  | InsertBugReport r row => default db (insert_bug_report r row db)
  | InsertPerformanceMetric r row => default db (insert_performance_metric r row db)
  | InsertAccessibilityIssue r row => default db (insert_accessibility_issue r row db)
  | InsertScreenshot r row => default db (insert_screenshot r row db)
  | InsertTestSchedule r row => default db (insert_test_schedule r row db)
  | DeleteTestExecution eid => delete_execution eid db
  | DeleteTestScenario sid => delete_scenario sid db
  | DeleteTestProject pid => delete_project pid db
  end.

(** The store after a script of statements, run in order from the empty store. *)
Definition run (script : list statement) : Database :=
  foldl (fun db s => exec s db) empty_db script.

(** The states of the store that some script of these statements reaches
    (UPDATE statements are not modelled). *)
Definition reachable (db : Database) : Prop := exists script, run script = db.


(** *** Sample rows and scripts *)

Definition br_with_id (k : uuid) (b : bug_reports_row) : bug_reports_row :=
  {| br_id := k; br_project_id := br_project_id b; br_execution_id := br_execution_id b;
     br_title := br_title b; br_description := br_description b;
     br_severity := br_severity b; br_status := br_status b;
     br_bug_type := br_bug_type b; br_page_url := br_page_url b;
     br_steps_to_reproduce := br_steps_to_reproduce b;
     br_expected_behavior := br_expected_behavior b;
     br_actual_behavior := br_actual_behavior b;
     br_browser_info := br_browser_info b;
     br_created_at := br_created_at b; br_updated_at := br_updated_at b |}.

Definition sample_project : test_projects_row :=
  {| tp_id := "project-1"; tp_name := "Shop"; tp_description := None;
     tp_base_url := "https://example.com"; tp_owner_id := "user-1";
     tp_status := Some "active"; tp_created_at := Some 0%Z; tp_updated_at := Some 0%Z |}.

Definition sample_execution : test_executions_row :=
  {| te_id := "exec-1"; te_project_id := "project-1"; te_execution_date := Some 0%Z;
     te_status := Some "running"; te_total_tests := Some 0%Z; te_passed := Some 0%Z;
     te_failed := Some 0%Z; te_warnings := Some 0%Z; te_duration_seconds := None;
     te_created_at := Some 0%Z |}.

Definition sample_bug_report : bug_reports_row :=
  {| br_id := "bug-1"; br_project_id := "project-1"; br_execution_id := Some "exec-1";
     br_title := "Broken link"; br_description := Some "GET /missing returned 404";
     br_severity := "high"; br_status := Some "open"; br_bug_type := Some "broken_link";
     br_page_url := Some "https://example.com/"; br_steps_to_reproduce := None;
     br_expected_behavior := None; br_actual_behavior := None; br_browser_info := None;
     br_created_at := Some 0%Z; br_updated_at := Some 0%Z |}.

Definition sample_metric : performance_metrics_row :=
  {| pm_id := "metric-1"; pm_execution_id := "exec-1"; pm_page_url := "https://example.com/";
     pm_page_load_time_ms := Some 1200%Z; pm_first_contentful_paint_ms := Some 400%Z;
     pm_largest_contentful_paint_ms := Some 900%Z; pm_total_requests := Some 12%Z;
     pm_failed_requests := Some 1%Z; pm_total_size_kb := None; pm_resource_details := None;
     pm_created_at := Some 0%Z |}.

Definition sample_issue : accessibility_issues_row :=
  {| ai_id := "issue-1"; ai_execution_id := "exec-1"; ai_page_url := "https://example.com/";
     ai_issue_type := "missing_alt_text"; ai_wcag_level := Some "A";
     ai_element_description := None; ai_severity := Some "medium";
     ai_recommendation := None; ai_created_at := Some 0%Z |}.

(** A user creates a project, an execution of it, and one row of each kind
    that the execution's run produced. *)
Definition sample_script : list statement :=
  [ InsertTestProject (Authenticated "user-1") sample_project;
    InsertTestExecution (Authenticated "user-1") sample_execution;
    InsertBugReport (Authenticated "user-1") sample_bug_report;
    InsertPerformanceMetric (Authenticated "user-1") sample_metric;
    InsertAccessibilityIssue (Authenticated "user-1") sample_issue ].

(** The same, and then the same bug report once more under a new id. *)
Definition duplicate_script : list statement :=
  sample_script ++
  [ InsertBugReport (Authenticated "user-1") (br_with_id "bug-2" sample_bug_report) ].

End Schema.

(** ** The bug detector *)

Module BugDetector.

(** Modelled from the spec: the closed set of 13 bug categories of the
    BugReport taxonomy ([bug_detector.py] is not among the sources). *)
Inductive bug_type : Type :=
| broken_image | broken_link | console_error | network_error
| missing_alt_text | form_validation_error | performance_issue
| security_issue | layout_issue | missing_heading | missing_label
| insufficient_contrast | javascript_error.

#[global] Instance bug_type_eq_dec : EqDecision bug_type.
Proof. solve_decision. Defined.

(** Modelled from the spec: the five severities. *)
Inductive severity : Type := critical | high | medium | low | info.

#[global] Instance severity_eq_dec : EqDecision severity.
Proof. solve_decision. Defined.

(** Modelled from the spec: the WCAG level an accessibility finding is
    tagged with. *)
Inductive wcag_level : Type := WCAG_A | WCAG_AA.

#[global] Instance wcag_level_eq_dec : EqDecision wcag_level.
Proof. solve_decision. Defined.

(** Modelled from the spec: the runner-supplied hints carried as a
    finding's evidence: the HTTP status of a probed link, the WCAG level of
    an accessibility violation, whether the finding is informational, and
    the text of a console or network message. *)
Record Hints : Type := {
  http_status : option Z;
  wcag : option wcag_level;
  informational : bool;
  message : string
}.

(** Modelled from the spec: a raw finding,
    {page_url, category, severity, description, evidence}. The category is
    one of the 13 bug types. *)
Record Finding : Type := {
  f_page_url : string;
  f_category : bug_type;
  f_severity : severity;
  f_description : string;
  f_evidence : Hints
}.

(** Modelled from the spec: the texts of a bug report. *)
Record Narrative : Type := {
  n_title : string;
  n_steps_to_reproduce : string;
  n_expected_behavior : string;
  n_actual_behavior : string
}.

(** Modelled from the spec: a canonical bug report. Its [id] is given by the
    store when the row is written and is not part of what [classify]
    returns. *)
Record BugReport : Type := {
  b_execution_id : string;
  b_title : string;
  b_description : string;
  b_bug_type : bug_type;
  b_severity : severity;
  b_page_url : string;
  b_steps_to_reproduce : string;
  b_expected_behavior : string;
  b_actual_behavior : string
}.

(** Modelled from the spec: a message shows a fatal pattern when the
    pattern occurs in it; [pat] occurs in [s]. *)
Definition contains (pat s : string) : bool :=
  match String.index 0 pat s with
  | Some _ => true
  | None => false
  end.

Section Detector.

(** The hash of a description, the fatal message patterns (stack overflow,
    out of memory and the like) and the wording of a report are left open by
    the design; they are parameters here. *)
Variable description_hash : string -> Z.
Variable fatal_patterns : list string.
Variable narrative : Finding -> Narrative.

(** Modelled from the spec: "Console/network errors additionally inspect
    message content for known fatal patterns". *)
Definition is_fatal (msg : string) : bool :=
  existsb (fun pat => contains pat msg) fatal_patterns.

(** Modelled from the spec: "a fixed lookup from bug_type plus
    runner-supplied hints (e.g., a 5xx broken link is critical; a 4xx is
    high; an accessibility AA violation is medium; informational findings
    are info)", with the promotion of fatal console and network messages to
    critical. [suggested] is the severity the runner put on the finding; it
    stands where the design names no rule. *)
Definition assign_severity (t : bug_type) (h : Hints) (suggested : severity) : severity :=
  if informational h then info
  else
    match t with
    | broken_link =>
        match http_status h with
        | Some code =>
            if bool_decide (500 <= code)%Z then critical
            else if bool_decide (400 <= code)%Z then high
            else suggested
        | None => suggested
        end
    | console_error | network_error =>
        if is_fatal (message h) then critical else suggested
    | missing_alt_text | missing_heading | missing_label | insufficient_contrast =>
        match wcag h with
        | Some WCAG_AA => medium
        | _ => suggested
        end
    | _ => suggested
    end.

(** Modelled from the spec: the deduplication key
    (execution_id, page_url, bug_type, description-hash). *)
Definition dedup_key : Type := (string * string * bug_type * Z)%type.

(** Modelled from the spec: the deduplication key of a finding of the
    Execution [execution_id]. *)
Definition finding_key (execution_id : string) (f : Finding) : dedup_key :=
  (execution_id, f_page_url f, f_category f, description_hash (f_description f)).

(** Modelled from the spec: the deduplication key of a bug report. *)
Definition report_key (b : BugReport) : dedup_key :=
  (b_execution_id b, b_page_url b, b_bug_type b, description_hash (b_description b)).

(** Modelled from the spec: "first occurrence in canonical ordering wins
    ...; subsequent duplicates are discarded". The findings come in
    canonical order; [seen] holds the keys already taken. *)
Fixpoint first_occurrences (execution_id : string) (seen : list dedup_key)
    (findings : list Finding) : list Finding :=
  match findings with
  | [] => []
  | f :: rest =>
      if decide (finding_key execution_id f ∈ seen)
      then first_occurrences execution_id seen rest
      else f :: first_occurrences execution_id (finding_key execution_id f :: seen) rest
  end.

(** Modelled from the spec: the bug report a finding becomes. *)
Definition to_report (execution_id : string) (f : Finding) : BugReport :=
  {| b_execution_id := execution_id;
     b_title := n_title (narrative f);
     b_description := f_description f;
     b_bug_type := f_category f;
     b_severity := assign_severity (f_category f) (f_evidence f) (f_severity f);
     b_page_url := f_page_url f;
     b_steps_to_reproduce := n_steps_to_reproduce (narrative f);
     b_expected_behavior := n_expected_behavior (narrative f);
     b_actual_behavior := n_actual_behavior (narrative f) |}.

(** Modelled from the spec:
    [classify(findings: list<Finding>, execution_id) -> list<BugReport>]. *)
Definition classify (findings : list Finding) (execution_id : string) : list BugReport :=
  map (to_report execution_id) (first_occurrences execution_id [] findings).

End Detector.

End BugDetector.

(** ** The broken-links runner *)

Module BrokenLinks.
Import BugDetector.

(** Modelled from the spec: what the lightweight request to a link yields
    within its 5-second timeout: a status (with the target of a redirect),
    or a network failure ([qa_agent.py] is not among the sources). *)
Inductive probe : Type :=
| Status (code : Z) (location : option string)
| NetworkFailure.

(** Modelled from the spec: the page the runner is given, with its hrefs in
    DOM order. *)
Record Page : Type := { page_url : string; hrefs : list string }.

(** Modelled from the spec: what the runner finds out about one link: it is
    fine, a redirect to record, or broken (with the status, if any). *)
Inductive verdict : Type :=
| Fine
| Redirected (target : string)
| Broken (code : option Z).

(** Modelled from the spec: "redirects (3xx)". *)
Definition is_redirect (code : Z) : bool := bool_decide (300 <= code < 400)%Z.

(** Modelled from the spec: "status >= 400 or network failure" is a broken
    link. *)
Definition judge (p : probe) : verdict :=
  match p with
  | NetworkFailure => Broken None
  | Status code _ => if bool_decide (400 <= code)%Z then Broken (Some code) else Fine
  end.

Section Runner.

(** The web the links point into, the severity the runner puts on its
    findings and their wording are parameters. *)
Variable web : string -> probe.
Variable suggested_severity : severity.
Variable describe : string -> option Z -> string.

(** Modelled from the spec: "redirects (3xx) are followed once and recorded,
    not flagged": a redirect with a target is followed one hop, and is
    flagged only if that hop is itself broken. *)
Definition check_link (href : string) : verdict :=
  match web href with
  | Status code (Some target) =>
      if is_redirect code then
        match judge (web target) with
        | Broken c => Broken c
        | _ => Redirected target
        end
      else judge (web href)
  | p => judge p
  end.

(** Modelled from the spec: "issues a lightweight request per unique link":
    the hrefs without repetitions, in DOM order. *)
Fixpoint unique_links (seen : list string) (links : list string) : list string :=
  match links with
  | [] => []
  | l :: rest =>
      if decide (l ∈ seen) then unique_links seen rest
      else l :: unique_links (l :: seen) rest
  end.

(** Modelled from the spec: the [broken_link] finding of a link, with the
    status as the hint for the severity lookup. *)
Definition broken_link_finding (page : Page) (href : string) (code : option Z) : Finding :=
  {| f_page_url := page_url page;
     f_category := broken_link;
     f_severity := suggested_severity;
     f_description := describe href code;
     f_evidence := {| http_status := code; wcag := None;
                      informational := false; message := "" |} |}.

(** Modelled from the spec: the finding a link gives rise to, if any. *)
Definition flagged (page : Page) (l : string) : option Finding :=
  match check_link l with
  | Broken code => Some (broken_link_finding page l code)
  | Fine | Redirected _ => None
  end.

(** Modelled from the spec: what the runner returns: its findings, and the
    redirects it recorded. *)
Record Outcome : Type := {
  findings : list Finding;
  redirects : list (string * string)
}.

(** Modelled from the spec: one request per link, in order. *)
Fixpoint probe_links (page : Page) (links : list string) : Outcome :=
  match links with
  | [] => {| findings := []; redirects := [] |}
  | l :: rest =>
      let o := probe_links page rest in
      match check_link l with
      | Fine => o
      | Redirected target =>
          {| findings := findings o; redirects := (l, target) :: redirects o |}
      | Broken code =>
          {| findings := broken_link_finding page l code :: findings o;
             redirects := redirects o |}
      end
  end.

(** Modelled from the spec: the runner's [run(page, collector)]. *)
Definition run (page : Page) : Outcome := probe_links page (unique_links [] (hrefs page)).

End Runner.


(** *** A sample page *)

(** The four links of the sample page, and what they answer. *)
Definition sample_web (url : string) : probe :=
  if decide (url = "https://example.com/ok") then Status 200 None
  else if decide (url = "https://example.com/old") then Status 301 (Some "https://example.com/new")
  else if decide (url = "https://example.com/new") then Status 200 None
  else if decide (url = "https://example.com/gone") then Status 404 None
  else if decide (url = "https://example.com/error") then Status 500 None
  else NetworkFailure.

Definition sample_page : Page :=
  {| page_url := "https://example.com/";
     hrefs := [ "https://example.com/ok"; "https://example.com/old";
                "https://example.com/gone"; "https://example.com/error" ] |}.

Definition sample_describe (href : string) (code : option Z) : string :=
  "Broken link: " ++ href.

(** A stand-in for the description hash. *)
Definition sample_hash (s : string) : Z := Z.of_nat (String.length s).

Definition sample_narrative (f : Finding) : Narrative :=
  {| n_title := f_description f; n_steps_to_reproduce := "Open " ++ f_page_url f;
     n_expected_behavior := ""; n_actual_behavior := f_description f |}.

End BrokenLinks.

(** ** The orchestrator *)

Module Orchestrator.
Import BugDetector.

(** Modelled from the spec: the closed set of five test types
    ([orchestrator.py] is not among the sources). *)
Inductive test_type : Type :=
| Functional | Performance | Accessibility | BrokenLinksCheck | FormValidation.

(** Modelled from the spec: the states of an Execution,
    pending -> running -> {completed | failed}. *)
Inductive exec_status : Type := pending | running | completed | failed.

#[global] Instance exec_status_eq_dec : EqDecision exec_status.
Proof. solve_decision. Defined.

(** Modelled from the spec: the error taxonomy; [OtherError] is any other
    exception a runner lets out. *)
Inductive error : Type :=
| NavigationTimeout
| NavigationError (msg : string)
| RunnerInternalError (msg : string)
| SessionResourceError (msg : string)
| OtherError (msg : string).

(** Modelled from the spec: a call returns, or raises an error of the
    taxonomy. *)
Inductive outcome (A : Type) : Type :=
| Ok (a : A)
| Raise (e : error).
Arguments Ok {A} a.
Arguments Raise {A} e.

(** Modelled from the spec: an Execution record: its status, the recorded
    cause of a failure, and the number of tests run. *)
Record Execution : Type := {
  e_id : string;
  e_project_id : string;
  e_status : exec_status;
  e_error : option error;
  e_total_tests : nat
}.

(** Modelled from the spec: what the orchestrator writes to the store: the
    Execution records, the flushed bug reports, and the log of the status
    each Execution was given, oldest first. *)
Record Store : Type := {
  executions : list Execution;
  reports : list BugReport;
  status_log : list (string * exec_status)
}.

(** Modelled from the spec: step 1, "creates Execution record (running)". *)
Definition create_execution (eid project_id : string) (st : Store) : Store :=
  {| executions :=
       executions st ++
       [ {| e_id := eid; e_project_id := project_id; e_status := running;
            e_error := None; e_total_tests := 0 |} ];
     reports := reports st;
     status_log := status_log st ++ [ (eid, running) ] |}.

(** Modelled from the spec: an Execution with its final status, cause and
    total. *)
Definition finish (s : exec_status) (cause : option error) (tests : nat) (e : Execution) : Execution :=
  {| e_id := e_id e; e_project_id := e_project_id e; e_status := s;
     e_error := cause; e_total_tests := tests |}.

(** Modelled from the spec: the transition of the Execution [eid] to the
    status [s], logged. *)
Definition set_status (eid : string) (s : exec_status) (cause : option error) (tests : nat)
    (st : Store) : Store :=
  {| executions :=
       map (fun e => if decide (e_id e = eid) then finish s cause tests e else e) (executions st);
     reports := reports st;
     status_log := status_log st ++ [ (eid, s) ] |}.

(** Modelled from the spec: "flushes accumulated ... BugReports". *)
Definition flush (rs : list BugReport) (st : Store) : Store :=
  {| executions := executions st;
     reports := reports st ++ rs;
     status_log := status_log st |}.

(** Modelled from the spec: the Execution record the caller receives. *)
Definition find_execution (eid : string) (st : Store) : option Execution :=
  find (fun e => bool_decide (e_id e = eid)) (executions st).

(** Modelled from the spec: the statuses the log holds for one Execution,
    oldest first. *)
Definition statuses_of (eid : string) (st : Store) : list exec_status :=
  map snd (filter (fun entry => fst entry = eid) (status_log st)).

Section Suite.

(** The browser side is a state [W] that the session and runner calls
    transform; each call returns or raises. *)
Variable W : Type.
Variable Handle : Type.
Variable open_session : W -> W * outcome Handle.
Variable run_runner : test_type -> Handle -> string -> W -> W * outcome (list Finding).
Variable close_session : Handle -> W -> W * outcome unit.
(** The finding a runner's internal failure degrades to. *)
Variable internal_error_finding : test_type -> string -> string -> Finding.
Variable description_hash : string -> Z.
Variable fatal_patterns : list string.
Variable narrative : Finding -> Narrative.

(** Modelled from the spec: step 2 of [run_complete_qa_suite]: "for each
    requested test type, opens a session, runs the corresponding runner ...,
    collects findings, closes the session -- sequentially". The session is
    closed on every exit path of the runner. A [RunnerInternalError]
    degrades to a finding; any other exception of a runner, and a session
    that fails to open or close, ends the loop with that error. Returns the
    findings collected and the number of test types run. *)
Fixpoint run_tests (base_url : string) (test_types : list test_type) (w : W)
    (acc : list Finding) (ran : nat) : W * outcome (list Finding * nat) :=
  match test_types with
  | [] => (w, Ok (acc, ran))
  | ty :: rest =>
      let (w1, opened) := open_session w in
      match opened with
      | Raise e => (w1, Raise e)
      | Ok h =>
          let (w2, result) := run_runner ty h base_url w1 in
          let (w3, closed) := close_session h w2 in
          match result, closed with
          | Raise (RunnerInternalError msg), Ok _ =>
              run_tests base_url rest w3
                (acc ++ [ internal_error_finding ty base_url msg ]) (S ran)
          | Raise (RunnerInternalError _), Raise e => (w3, Raise e)
          | Raise e, _ => (w3, Raise e)
          | Ok fs, Ok _ => run_tests base_url rest w3 (acc ++ fs) (S ran)
          | Ok _, Raise e => (w3, Raise e)
          end
      end
  end.

(** Modelled from the spec: one test type ran to its end, from the browser
    state [w] to [w']: its session opened and closed, and the runner
    returned its findings or failed internally, which degrades to one
    finding. [fs] is what the test type adds to the findings. *)
Inductive ran_one (base_url : string) (ty : test_type) (w w' : W) (fs : list Finding) : Prop :=
| ran_findings (w1 w2 : W) (h : Handle) (u : unit) :
    open_session w = (w1, Ok h) ->
    run_runner ty h base_url w1 = (w2, Ok fs) ->
    close_session h w2 = (w', Ok u) ->
    ran_one base_url ty w w' fs
| ran_degraded (w1 w2 : W) (h : Handle) (msg : string) (u : unit) :
    open_session w = (w1, Ok h) ->
    run_runner ty h base_url w1 = (w2, Raise (RunnerInternalError msg)) ->
    close_session h w2 = (w', Ok u) ->
    fs = [ internal_error_finding ty base_url msg ] ->
    ran_one base_url ty w w' fs.

(** Modelled from the spec: one test type let the exception [e] out, leaving
    the browser state [w']: its session failed to open, its runner raised
    an exception that is not a [RunnerInternalError] (the session is closed
    all the same), or its session failed to close. *)
Inductive broke_one (base_url : string) (ty : test_type) (w w' : W) (e : error) : Prop :=
| broke_open :
    open_session w = (w', Raise e) ->
    broke_one base_url ty w w' e
| broke_runner (w1 w2 : W) (h : Handle) (closed : outcome unit) :
    open_session w = (w1, Ok h) ->
    run_runner ty h base_url w1 = (w2, Raise e) ->
    (forall msg, e <> RunnerInternalError msg) ->
    close_session h w2 = (w', closed) ->
    broke_one base_url ty w w' e
| broke_close (w1 w2 : W) (h : Handle) (result : outcome (list Finding)) :
    open_session w = (w1, Ok h) ->
    run_runner ty h base_url w1 = (w2, result) ->
    (forall e', result = Raise e' -> exists msg, e' = RunnerInternalError msg) ->
    close_session h w2 = (w', Raise e) ->
    broke_one base_url ty w w' e.

(** Modelled from the spec: the test types of a list ran to their end one
    after the other, from [w] to [w'], adding the findings [fs]. *)
Inductive ran_all (base_url : string) : list test_type -> W -> W -> list Finding -> Prop :=
| ran_nil (w : W) : ran_all base_url [] w w []
| ran_cons (ty : test_type) (rest : list test_type) (w w1 w' : W) (fs fs' : list Finding) :
    ran_one base_url ty w w1 fs ->
    ran_all base_url rest w1 w' fs' ->
    ran_all base_url (ty :: rest) w w' (fs ++ fs').

(** Modelled from the spec:
    [run_complete_qa_suite(project_id, base_url, test_types)]: creates the
    Execution (running), runs the test types, classifies the findings, and
    on completion marks the Execution completed and flushes the bug reports;
    an exception instead marks it failed with the cause. [eid] is the id the
    store gives the new Execution. The result is what the caller receives:
    an Execution, or an exception. *)
Definition run_complete_qa_suite (eid project_id base_url : string)
    (test_types : list test_type) (w : W) (st : Store) : W * Store * outcome Execution :=
  let st1 := create_execution eid project_id st in
  let (w', result) := run_tests base_url test_types w [] 0 in
  let st2 :=
    match result with
    | Ok (fs, ran) =>
        flush (classify description_hash fatal_patterns narrative fs eid)
          (set_status eid completed None ran st1)
    | Raise e => set_status eid failed (Some e) 0 st1
    end in
  match find_execution eid st2 with
  | Some ex => (w', st2, Ok ex)
  | None => (w', st2, Raise (OtherError "execution not found"))
  end.

End Suite.


(** *** A sample browser side *)

Definition empty_store : Store := {| executions := []; reports := []; status_log := [] |}.

(** Sessions are numbered; the world counts the sessions opened so far. *)
Definition sample_open_session (w : nat) : nat * outcome nat := (S w, Ok w).

(** The performance runner times out on navigation, the accessibility
    runner fails internally, the others find nothing. *)
Definition sample_run_runner (ty : test_type) (h : nat) (base_url : string) (w : nat)
  : nat * outcome (list Finding) :=
  match ty with
  | Performance => (w, Raise NavigationTimeout)
  | Accessibility => (w, Raise (RunnerInternalError "DOM query failed"))
  | _ => (w, Ok [])
  end.

Definition sample_close_session (h : nat) (w : nat) : nat * outcome unit := (w, Ok tt).

Definition sample_internal_error_finding (ty : test_type) (base_url msg : string) : Finding :=
  {| f_page_url := base_url; f_category := javascript_error; f_severity := low;
     f_description := msg;
     f_evidence := {| http_status := None; wcag := None; informational := false;
                      message := msg |} |}.

End Orchestrator.

(** ** The scheduler *)

Module Scheduler.

#[local] Open Scope Z_scope.

(** Modelled from the spec: one field of a "standard five-field (minute hour
    day month weekday)" cron expression, in the three forms the setup guide
    uses: [*], [*/n], and a number ([scheduler.py] is not among the
    sources). *)
Inductive field : Type :=
| Any
| Every (n : Z)
| Exactly (v : Z).

(** Modelled from the spec: the five fields, "minute hour day month
    weekday". *)
Record cron : Type := {
  c_minute : field;
  c_hour : field;
  c_day : field;
  c_month : field;
  c_weekday : field
}.

(** Modelled from the spec: the value of a decimal digit. *)
Definition digit_of (a : ascii) : option Z :=
  let n := Z.of_nat (nat_of_ascii a) in
  if bool_decide (48 <= n <= 57)%Z then Some (n - 48)%Z else None.

(** Modelled from the spec: a run of decimal digits, most significant
    first. *)
Fixpoint parse_digits (acc : Z) (s : string) : option Z :=
  match s with
  | EmptyString => Some acc
  | String a rest =>
      match digit_of a with
      | Some d => parse_digits (10 * acc + d)%Z rest
      | None => None
      end
  end.

(** Modelled from the spec: a non-empty decimal number. *)
Definition parse_number (s : string) : option Z :=
  match s with
  | EmptyString => None
  | _ => parse_digits 0 s
  end.

(** Modelled from the spec: one field: [*], [*/n] with a positive [n], or
    a number. *)
Definition parse_field (s : string) : option field :=
  match s with
  | String "*" EmptyString => Some Any
  | String "*" (String "/" rest) =>
      match parse_number rest with
      | Some n => if bool_decide (0 < n)%Z then Some (Every n) else None
      | None => None
      end
  | _ => Exactly <$> parse_number s
  end.

(** Modelled from the spec: the fields of an expression: its maximal runs of
    non-blank characters. *)
Fixpoint split_fields (cur : string) (s : string) : list string :=
  match s with
  | EmptyString => if decide (cur = "") then [] else [cur]
  | String a rest =>
      if decide (a = " "%char)
      then (if decide (cur = "") then [] else [cur]) ++ split_fields "" rest
      else split_fields (cur ++ String a EmptyString) rest
  end.

(** Modelled from the spec: an expression has exactly five fields. *)
Definition parse_cron (expr : string) : option cron :=
  match split_fields "" expr with
  | [mi; ho; da; mo; wd] =>
      match parse_field mi, parse_field ho, parse_field da, parse_field mo, parse_field wd with
      | Some a, Some b, Some c, Some d, Some e =>
          Some {| c_minute := a; c_hour := b; c_day := c; c_month := d; c_weekday := e |}
      | _, _, _, _, _ => None
      end
  | _ => None
  end.

(** Modelled from the spec: a field admits the value [v] of a unit that
    counts from [base]. *)
Definition field_matches (f : field) (base v : Z) : bool :=
  match f with
  | Any => true
  | Every n => bool_decide (((v - base) mod n) = 0)%Z
  | Exactly x => bool_decide (x = v)
  end.

(** Modelled from the spec: times are minutes since 1970-01-01T00:00Z; the
    minute of the hour. *)
Definition minute_of (t : Z) : Z := (t mod 60)%Z.
(** Modelled from the spec: the hour of the day. *)
Definition hour_of (t : Z) : Z := ((t / 60) mod 24)%Z.
(** Modelled from the spec: the day count since 1970-01-01. *)
Definition days_of (t : Z) : Z := (t / 1440)%Z.
(** Modelled from the spec: the weekday; 0 is Sunday, and 1970-01-01 was a
    Thursday. *)
Definition weekday_of (t : Z) : Z := ((days_of t + 4) mod 7)%Z.

(** Modelled from the spec: the (month, day of month) of a day count, by the
    proleptic Gregorian calendar. *)
Definition month_day_of_days (days : Z) : Z * Z :=
  let z := (days + 719468)%Z in
  let era := (z / 146097)%Z in
  let doe := (z - era * 146097)%Z in
  let yoe := ((doe - doe / 1460 + doe / 36524 - doe / 146096) / 365)%Z in
  let doy := (doe - (365 * yoe + yoe / 4 - yoe / 100))%Z in
  let mp := ((5 * doy + 2) / 153)%Z in
  let d := (doy - (153 * mp + 2) / 5 + 1)%Z in
  let m := (if bool_decide (mp < 10)%Z then mp + 3 else mp - 9)%Z in
  (m, d).

(** Modelled from the spec: the weekday field admits Sunday as 0 and as 7. *)
Definition weekday_matches (f : field) (wd : Z) : bool :=
  field_matches f 0 wd || (bool_decide (wd = 0) && field_matches f 0 7).

(** Modelled from the spec: an expression admits the minute [t]. When both
    the day and the weekday are restricted, either may match, as in standard
    cron. *)
Definition matches (c : cron) (t : Z) : bool :=
  let '(m, d) := month_day_of_days (days_of t) in
  field_matches (c_minute c) 0 (minute_of t)
  && field_matches (c_hour c) 0 (hour_of t)
  && field_matches (c_month c) 1 m
  && match c_day c, c_weekday c with
     | Any, wf => weekday_matches wf (weekday_of t)
     | df, Any => field_matches df 1 d
     | df, wf => field_matches df 1 d || weekday_matches wf (weekday_of t)
     end.

(** Modelled from the spec: the first admitted minute among [t], [t + 1],
    ..., within [fuel] minutes. *)
Fixpoint first_match (c : cron) (fuel : nat) (t : Z) : option Z :=
  match fuel with
  | O => None
  | S fuel' => if matches c t then Some t else first_match c fuel' (t + 1)%Z
  end.

(** Modelled from the spec: the span searched for the next fire time: eight
    years of minutes, within which every satisfiable expression fires. *)
Definition horizon : nat := Z.to_nat (8 * 366 * 1440).

(** Modelled from the spec: the next fire time of a cron expression,
    strictly after [now]; [None] when the expression does not parse or
    never fires. *)
Definition compute_next_run (expr : string) (now : Z) : option Z :=
  match parse_cron expr with
  | Some c => first_match c horizon (now + 1)%Z
  | None => None
  end.

(** Modelled from the spec: a Schedule,
    {project_id, cron_expression, enabled, last_run, next_run}. *)
Record Schedule : Type := {
  s_project_id : string;
  s_cron_expression : string;
  s_enabled : bool;
  s_last_run : option Z;
  s_next_run : option Z
}.

(** Modelled from the spec: what a tick does with a due schedule.
    [SchedulerSkipped] is logged, it is not an error. *)
Inductive event : Type :=
| Invoked (project_id : string) (at_time : Z)
| SchedulerSkipped (project_id : string) (at_time : Z).

(** Modelled from the spec: the scheduler's process-wide state: the
    schedules, the projects whose invocation is still running, and the log.
    There is no queue of deferred invocations. *)
Record State : Type := {
  schedules : list Schedule;
  in_flight : gset string;
  events : list event
}.

(** Modelled from the spec: "Schedules whose next_run <= now", among the
    enabled ones. *)
Definition due (now : Z) (s : Schedule) : bool :=
  s_enabled s &&
  match s_next_run s with
  | Some t => bool_decide (t <= now)%Z
  | None => false
  end.

(** Modelled from the spec: after a fire, "last_run updated, next_run
    recomputed". *)
Definition fired (now : Z) (s : Schedule) : Schedule :=
  {| s_project_id := s_project_id s;
     s_cron_expression := s_cron_expression s;
     s_enabled := s_enabled s;
     s_last_run := Some now;
     s_next_run := compute_next_run (s_cron_expression s) now |}.

(** Modelled from the spec: a due schedule that is skipped: "skipped (not
    queued)", "last_run is unchanged". The missed fire is dropped, not kept
    for a later tick: next_run is recomputed from the time of the tick, and
    nothing else of the schedule changes. *)
Definition skipped (now : Z) (s : Schedule) : Schedule :=
  {| s_project_id := s_project_id s;
     s_cron_expression := s_cron_expression s;
     s_enabled := s_enabled s;
     s_last_run := s_last_run s;
     s_next_run := compute_next_run (s_cron_expression s) now |}.

(** Modelled from the spec: one pass over the schedules: "one invocation per
    due schedule, skipped (not queued) if a previous invocation for the same
    project is still running". *)
Fixpoint fire_due (now : Z) (running : gset string) (schs : list Schedule)
  : list Schedule * gset string * list event :=
  match schs with
  | [] => ([], running, [])
  | s :: rest =>
      if due now s then
        if decide (s_project_id s ∈ running) then
          let '(schs', running', evs) := fire_due now running rest in
          (skipped now s :: schs', running', SchedulerSkipped (s_project_id s) now :: evs)
        else
          let '(schs', running', evs) := fire_due now ({[ s_project_id s ]} ∪ running) rest in
          (fired now s :: schs', running', Invoked (s_project_id s) now :: evs)
      else
        let '(schs', running', evs) := fire_due now running rest in
        (s :: schs', running', evs)
  end.

(** Modelled from the spec: "a previous invocation for the same project is
    still running" when the pass reaches the schedule [s]: the project was
    in flight before the tick, or one of the [earlier] schedules of the
    list, due too, is of the same project. *)
Definition taken (now : Z) (running : gset string) (earlier : list Schedule) (s : Schedule) : Prop :=
  s_project_id s ∈ running
  \/ exists s', s' ∈ earlier /\ due now s' = true /\ s_project_id s' = s_project_id s.

(** Modelled from the spec: one tick of the periodic loop at time [now]. *)
Definition tick (now : Z) (st : State) : State :=
  let '(schs', running', evs) := fire_due now (in_flight st) (schedules st) in
  {| schedules := schs'; in_flight := running'; events := events st ++ evs |}.

(** Modelled from the spec: the events the tick at [now] adds to the log. *)
Definition tick_events (now : Z) (st : State) : list event :=
  (fire_due now (in_flight st) (schedules st)).2.

(** Modelled from the spec: the orchestrator's invocation for a project has
    returned. *)
Definition invocation_finished (project_id : string) (st : State) : State :=
  {| schedules := schedules st;
     in_flight := in_flight st ∖ {[ project_id ]};
     events := events st |}.


(** *** Samples *)

(** What ["*/30 * * * *"] parses to. *)
Definition every_30_minutes : cron :=
  {| c_minute := Every 30; c_hour := Any; c_day := Any; c_month := Any; c_weekday := Any |}.

(** 12:00 on the day [d] days after 1970-01-01. *)
Definition noon (d : Z) : Z := d * 1440 + 720.

Definition sample_schedule : Schedule :=
  {| s_project_id := "project-1"; s_cron_expression := "*/30 * * * *"; s_enabled := true;
     s_last_run := Some (noon 20000 - 30); s_next_run := Some (noon 20000) |}.

Definition sample_state : State :=
  {| schedules := [ sample_schedule ]; in_flight := ∅; events := [] |}.

End Scheduler.

(** ** The report-generator edge function *)

Module ReportGenerator.
Import Json Http.

(** [format === "html"] *)
Definition is_html (format : json) : bool :=
  match format with
  | JStr s => bool_decide (s = "html")
  | JNull | JBool _ | JNum _ | JArr _ | JObj _ => false
  end.

(** [payload.format || "json"] *)
Definition format_or_json (format : option json) : json :=
  match format with
  | Some v => if truthy v then v else JStr "json"
  | None => JStr "json"
  end.

(** The statements of the [try] block. [contentType] is computed as in the
    source, which then does not use it. *)
Definition try_body (now_iso : string) (req : Request) : completion Response :=
  if decide (method req = "POST") then
    bind (json_body req) (fun payload =>
    bind (get_prop payload "execution_id") (fun execution_id =>
      if negb (truthy_opt execution_id) then
        Normal (json_response 400 (JObj [ ("error", JStr "Missing execution_id") ]))
      else
        bind (get_prop payload "format") (fun payload_format =>
          let format := format_or_json payload_format in
          let contentType := if is_html format then "text/html" else "application/json" in
          Normal (json_response 202
                    (JObj [ ("status", JStr "generating");
                            ("execution_id", default JNull execution_id);
                            ("format", format);
                            ("message", JStr "Report generation initiated. Use report_generator.py for full generation.");
                            ("timestamp", JStr now_iso) ])))))
  else
    Normal method_not_allowed.

(** The handler given to [Deno.serve]. *)
Definition serve (now_iso : string) (req : Request) : Response :=
  if decide (method req = "OPTIONS") then options_response
  else try_catch (try_body now_iso req).

End ReportGenerator.

(** ** What a client reads of a response *)

Module Responses.
Import Json Http.

(** The value of a response header, if the response has it. *)
Fixpoint header_value (name : string) (hs : list (string * string)) : option string :=
  match hs with
  | [] => None
  | (n, v) :: rest => if decide (n = name) then Some v else header_value name rest
  end.

Definition header (name : string) (r : Response) : option string :=
  header_value name (headers r).

(** The field [k] of a response whose body is a JSON object. *)
Definition body_field (k : string) (r : Response) : option json :=
  match body r with
  | Some v => own_prop v k
  | None => None
  end.

(** [await req.json()] throws, or returns [null]. *)
Definition unreadable_body (req : Request) : Prop :=
  (exists e, json_body req = Throw e) \/ json_body req = Normal JNull.

End Responses.

(** ** The constraints and policies of the migration, continued *)

Module SchemaPolicies.
Import Schema.

(** *** The declared constraints, as predicates on the store *)

(** [PRIMARY KEY]: no two rows of a table have the same id. *)
Record primary_keys_unique (db : Database) : Prop := {
  pk_test_projects : NoDup (map tp_id (test_projects db));
  pk_test_scenarios : NoDup (map sc_id (test_scenarios db));
  pk_test_executions : NoDup (map te_id (test_executions db));
  pk_test_results : NoDup (map tr_id (test_results db));
  pk_bug_reports : NoDup (map br_id (bug_reports db));
  pk_performance_metrics : NoDup (map pm_id (performance_metrics db));
  pk_accessibility_issues : NoDup (map ai_id (accessibility_issues db));
  pk_screenshots : NoDup (map ss_id (screenshots db));
  pk_test_schedules : NoDup (map sch_id (test_schedules db))
}.

(** Every non-NULL value of the column [ref] of [rows] is one of [keys]. *)
Definition refs_in {R : Type} (ref : R -> option uuid) (rows : list R) (keys : list uuid) : Prop :=
  forall r k, r ∈ rows -> ref r = Some k -> k ∈ keys.

(** [REFERENCES]: the eleven foreign keys of the migration. *)
Record foreign_keys_hold (db : Database) : Prop := {
  fk_test_scenarios_project :
    refs_in (not_null sc_project_id) (test_scenarios db) (map tp_id (test_projects db));
  fk_test_executions_project :
    refs_in (not_null te_project_id) (test_executions db) (map tp_id (test_projects db));
  fk_test_results_execution :
    refs_in (not_null tr_execution_id) (test_results db) (map te_id (test_executions db));
  fk_test_results_scenario :
    refs_in (not_null tr_scenario_id) (test_results db) (map sc_id (test_scenarios db));
  fk_bug_reports_project :
    refs_in (not_null br_project_id) (bug_reports db) (map tp_id (test_projects db));
  fk_bug_reports_execution :
    refs_in br_execution_id (bug_reports db) (map te_id (test_executions db));
  fk_performance_metrics_execution :
    refs_in (not_null pm_execution_id) (performance_metrics db) (map te_id (test_executions db));
  fk_accessibility_issues_execution :
    refs_in (not_null ai_execution_id) (accessibility_issues db) (map te_id (test_executions db));
  fk_screenshots_execution :
    refs_in (not_null ss_execution_id) (screenshots db) (map te_id (test_executions db));
  fk_screenshots_scenario :
    refs_in ss_scenario_id (screenshots db) (map sc_id (test_scenarios db));
  fk_test_schedules_project :
    refs_in (not_null sch_project_id) (test_schedules db) (map tp_id (test_projects db))
}.

(** *** SELECT policies *)

(** [owner_id = auth.uid()], the policy expression of [test_projects]. *)
Definition is_owner (r : role) (p : test_projects_row) : bool :=
  match r with
  | ServiceRole => true
  | Authenticated uid => bool_decide (tp_owner_id p = uid)
  end.

(** What [SELECT * FROM <table>] returns to a role: the rows its SELECT
    policy lets through. *)
Definition select_test_projects (r : role) (db : Database) : list test_projects_row :=
  filter (fun p => is_owner r p = true) (test_projects db).

Definition select_test_scenarios (r : role) (db : Database) : list test_scenarios_row :=
  filter (fun s => owns_project r (sc_project_id s) db = true) (test_scenarios db).

Definition select_test_executions (r : role) (db : Database) : list test_executions_row :=
  filter (fun e => owns_project r (te_project_id e) db = true) (test_executions db).

Definition select_test_results (r : role) (db : Database) : list test_results_row :=
  filter (fun t => owns_execution r (tr_execution_id t) db = true) (test_results db).

Definition select_bug_reports (r : role) (db : Database) : list bug_reports_row :=
  filter (fun b => owns_project r (br_project_id b) db = true) (bug_reports db).

Definition select_performance_metrics (r : role) (db : Database) : list performance_metrics_row :=
  filter (fun m => owns_execution r (pm_execution_id m) db = true) (performance_metrics db).

Definition select_accessibility_issues (r : role) (db : Database) : list accessibility_issues_row :=
  filter (fun a => owns_execution r (ai_execution_id a) db = true) (accessibility_issues db).

Definition select_screenshots (r : role) (db : Database) : list screenshots_row :=
  filter (fun s => owns_execution r (ss_execution_id s) db = true) (screenshots db).

Definition select_test_schedules (r : role) (db : Database) : list test_schedules_row :=
  filter (fun s => owns_project r (sch_project_id s) db = true) (test_schedules db).

(** *** UPDATE policies *)

(** [UPDATE <table> SET ... WHERE id = k] is given by the row [new] that the
    statement leaves in place of the row with id [k]. The USING expression
    decides which rows the role may touch; the WITH CHECK expression, the
    primary key and the foreign keys are checked on [new]; a statement that
    fails a check, or touches no row, changes nothing. *)
Definition update_rows {R : Type} (key : R -> uuid) (may : R -> bool) (k : uuid) (new : R)
    (rows : list R) : list R :=
  map (fun r => if decide (key r = k) then (if may r then new else r) else r) rows.

(** The statement touches a row. *)
Definition touches {R : Type} (key : R -> uuid) (may : R -> bool) (k : uuid)
    (rows : list R) : bool :=
  existsb (fun r => bool_decide (key r = k) && may r) rows.

(** The id of [new] is acceptable: it is [k], or it is unused and no row
    references [k] (no foreign key declares an [ON UPDATE] action, so a
    referenced id cannot change). *)
Definition key_allowed {R : Type} (key : R -> uuid) (k : uuid) (new : R) (rows : list R)
    (referenced : bool) : bool :=
  bool_decide (key new = k) || (fresh_key (key new) (map key rows) && negb referenced).

Definition with_test_projects (rows : list test_projects_row) (db : Database) : Database :=
  {| test_projects := rows; test_scenarios := test_scenarios db;
     test_executions := test_executions db; test_results := test_results db;
     bug_reports := bug_reports db; performance_metrics := performance_metrics db;
     accessibility_issues := accessibility_issues db; screenshots := screenshots db;
     test_schedules := test_schedules db |}.

Definition with_bug_reports (rows : list bug_reports_row) (db : Database) : Database :=
  {| test_projects := test_projects db; test_scenarios := test_scenarios db;
     test_executions := test_executions db; test_results := test_results db;
     bug_reports := rows; performance_metrics := performance_metrics db;
     accessibility_issues := accessibility_issues db; screenshots := screenshots db;
     test_schedules := test_schedules db |}.

(** Some row references the project [k]. *)
Definition project_referenced (k : uuid) (db : Database) : bool :=
  has_key k (map sc_project_id (test_scenarios db))
  || has_key k (map te_project_id (test_executions db))
  || has_key k (map br_project_id (bug_reports db))
  || has_key k (map sch_project_id (test_schedules db)).

(** Some row references the scenario [k]. *)
Definition scenario_referenced (k : uuid) (db : Database) : bool :=
  has_key k (map tr_scenario_id (test_results db))
  || bool_decide (Exists (fun s => ss_scenario_id s = Some k) (screenshots db)).

(** Some row references the execution [k]. *)
Definition execution_referenced (k : uuid) (db : Database) : bool :=
  has_key k (map tr_execution_id (test_results db))
  || bool_decide (Exists (fun b => br_execution_id b = Some k) (bug_reports db))
  || has_key k (map pm_execution_id (performance_metrics db))
  || has_key k (map ai_execution_id (accessibility_issues db))
  || has_key k (map ss_execution_id (screenshots db)).

(** "Users can update own projects": USING and WITH CHECK are both
    [owner_id = auth.uid()]. *)
Definition update_test_project (r : role) (k : uuid) (new : test_projects_row) (db : Database)
  : Database :=
  if touches tp_id (is_owner r) k (test_projects db)
     && is_owner r new
     && key_allowed tp_id k new (test_projects db) (project_referenced k db)
  then with_test_projects (update_rows tp_id (is_owner r) k new (test_projects db)) db
  else db.

(** "Update project scenarios" *)
Definition update_test_scenario (r : role) (k : uuid) (new : test_scenarios_row) (db : Database)
  : Database :=
  if touches sc_id (fun s => owns_project r (sc_project_id s) db) k (test_scenarios db)
     && owns_project r (sc_project_id new) db
     && has_key (sc_project_id new) (map tp_id (test_projects db))
     && key_allowed sc_id k new (test_scenarios db) (scenario_referenced k db)
  then with_test_scenarios
         (update_rows sc_id (fun s => owns_project r (sc_project_id s) db) k new (test_scenarios db)) db
  else db.

(** "Update executions" *)
Definition update_test_execution (r : role) (k : uuid) (new : test_executions_row) (db : Database)
  : Database :=
  if touches te_id (fun e => owns_project r (te_project_id e) db) k (test_executions db)
     && owns_project r (te_project_id new) db
     && has_key (te_project_id new) (map tp_id (test_projects db))
     && key_allowed te_id k new (test_executions db) (execution_referenced k db)
  then with_test_executions
         (update_rows te_id (fun e => owns_project r (te_project_id e) db) k new (test_executions db)) db
  else db.

(** "Update bug reports" *)
Definition update_bug_report (r : role) (k : uuid) (new : bug_reports_row) (db : Database)
  : Database :=
  if touches br_id (fun b => owns_project r (br_project_id b) db) k (bug_reports db)
     && owns_project r (br_project_id new) db
     && has_key (br_project_id new) (map tp_id (test_projects db))
     && match br_execution_id new with
        | None => true
        | Some eid => has_key eid (map te_id (test_executions db))
        end
     && key_allowed br_id k new (bug_reports db) false
  then with_bug_reports
         (update_rows br_id (fun b => owns_project r (br_project_id b) db) k new (bug_reports db)) db
  else db.

(** "Update schedules" *)
Definition update_test_schedule (r : role) (k : uuid) (new : test_schedules_row) (db : Database)
  : Database :=
  if touches sch_id (fun s => owns_project r (sch_project_id s) db) k (test_schedules db)
     && owns_project r (sch_project_id new) db
     && has_key (sch_project_id new) (map tp_id (test_projects db))
     && key_allowed sch_id k new (test_schedules db) false
  then with_test_schedules
         (update_rows sch_id (fun s => owns_project r (sch_project_id s) db) k new (test_schedules db)) db
  else db.

(** An UPDATE of one of the five tables that have an UPDATE policy. *)
Inductive update : Type :=
| UpdateTestProject (r : role) (k : uuid) (new : test_projects_row)
| UpdateTestScenario (r : role) (k : uuid) (new : test_scenarios_row)
| UpdateTestExecution (r : role) (k : uuid) (new : test_executions_row)
| UpdateBugReport (r : role) (k : uuid) (new : bug_reports_row)
| UpdateTestSchedule (r : role) (k : uuid) (new : test_schedules_row).

Definition exec_update (u : update) (db : Database) : Database :=
  match u with
  | UpdateTestProject r k new => update_test_project r k new db
  | UpdateTestScenario r k new => update_test_scenario r k new db
  | UpdateTestExecution r k new => update_test_execution r k new db
  | UpdateBugReport r k new => update_bug_report r k new db
  | UpdateTestSchedule r k new => update_test_schedule r k new db
  end.

(** The project with id [pid] is in the store and [uid] owns it. *)
Definition owned_by (uid pid : uuid) (db : Database) : Prop :=
  exists p, p ∈ test_projects db /\ tp_id p = pid /\ tp_owner_id p = uid.

(** The execution with id [eid] is in the store, in a project [uid] owns. *)
Definition execution_owned_by (uid eid : uuid) (db : Database) : Prop :=
  exists e, e ∈ test_executions db /\ te_id e = eid /\ owned_by uid (te_project_id e) db.

(** A statement of a session: one of the INSERT and DELETE statements above,
    or an UPDATE. *)
Inductive command : Type :=
| Stmt (s : statement)
| Upd (u : update).

Definition exec_command (c : command) (db : Database) : Database :=
  match c with
  | Stmt s => exec s db
  | Upd u => exec_update u db
  end.

Definition run_commands (cs : list command) : Database :=
  foldl (fun db c => exec_command c db) empty_db cs.

(** The states of the store that INSERT, UPDATE and DELETE statements reach
    from the empty store. *)
Definition reachable_with_updates (db : Database) : Prop :=
  exists cs, run_commands cs = db.

End SchemaPolicies.

(** ** The three handlers together *)

Module Endpoints.
Import Json Http.

(** The handlers of the three edge functions. *)
Definition handlers : list (string -> Request -> Response) :=
  [ QaTestRunner.serve; ReportGenerator.serve; BugReportQuery.serve ].

(** The statuses the handlers answer with. *)
Definition statuses : list Z := [ 200; 202; 400; 405; 500 ]%Z.

End Endpoints.

(** * Properties *)

(** ** The request endpoints *)

Module QaTestRunnerFacts.
Import Json Http QaTestRunner.

Lemma get_prop_not_null payload k :
  payload <> JNull -> get_prop payload k = Normal (own_prop payload k).
Proof. destruct payload; intros H; try reflexivity. contradiction. Qed.

(** What the handler answers to a POST whose body is JSON other than
    [null]. *)
Lemma serve_post now req payload :
  method req = "POST" -> json_body req = Normal payload -> payload <> JNull ->
  serve now req =
    if lacks_required payload then json_response 400 missing_fields
    else json_response 202 (acknowledgement (default JNull (own_prop payload "project_id")) now).
Proof.
  intros Hm Hb Hn. unfold serve, try_body, lacks_required.
  rewrite Hm, Hb. simpl.
  rewrite !(get_prop_not_null _ _ Hn). simpl.
  destruct (truthy_opt (own_prop payload "project_id")); simpl; [|reflexivity].
  destruct (truthy_opt (own_prop payload "base_url")); reflexivity.
Qed.

(** C2, as stated, fails: a POST whose body contains a project_id (the empty
    string) and a base_url is answered 400, not 202. *)
Lemma post_empty_project_id_rejected :
  let payload := JObj [ ("project_id", JStr ""); ("base_url", JStr "https://example.com") ] in
  let req := mkRequest "POST" [] (Normal payload) in
  own_prop payload "project_id" = Some (JStr "")
  /\ own_prop payload "base_url" = Some (JStr "https://example.com")
  /\ status (serve "2024-01-01T12:00:00.000Z" req) = 400%Z
  /\ status (serve "2024-01-01T12:00:00.000Z" req) <> 202%Z.
Proof. vm_compute. repeat split; congruence. Qed.

(** C2, as stated, also fails on "the same project_id": a project_id that
    is not a finite number is accepted and written [null] ([1e999] parses
    to [Infinity], which is truthy). *)
Lemma post_infinite_project_id_written_null :
  let payload := JObj [ ("project_id", JNum PrimFloat.infinity);
                        ("base_url", JStr "https://example.com") ] in
  let r := serve "2024-01-01T12:00:00.000Z" (mkRequest "POST" [] (Normal payload)) in
  status r = 202%Z
  /\ body r = Some (acknowledgement JNull "2024-01-01T12:00:00.000Z")
  /\ own_prop payload "project_id" <> Some JNull.
Proof. vm_compute. repeat split; congruence. Qed.

(** C2, amended: for every POST request whose JSON body holds a truthy
    project_id and a truthy base_url (for strings: non-empty), the handler
    returns the 202 acknowledgement whose body holds status "started", the
    project_id as [JSON.stringify] writes it, and the timestamp read from
    the clock; a project_id that is a string, as the TestRequest type
    declares it, is written as it is, so the body holds the same
    project_id. The response is computed from the request and the clock
    alone: the handler starts no pipeline and waits for none. *)
Theorem post_acknowledged now req fields project_id base_url :
  method req = "POST" ->
  json_body req = Normal (JObj fields) ->
  get_field "project_id" fields = Some project_id -> truthy project_id = true ->
  get_field "base_url" fields = Some base_url -> truthy base_url = true ->
  serve now req = json_response 202 (acknowledgement project_id now)
  /\ status (serve now req) = 202%Z
  /\ body (serve now req) = Some (acknowledgement (stringify project_id) now)
  /\ (exists body_fields,
        body (serve now req) = Some (JObj body_fields)
        /\ get_field "status" body_fields = Some (JStr "started")
        /\ get_field "project_id" body_fields = Some (stringify project_id)
        /\ get_field "timestamp" body_fields = Some (JStr now)
        /\ (forall s, project_id = JStr s ->
              get_field "project_id" body_fields = Some project_id)).
Proof.
  intros Hm Hb Hp Htp Hu Htu.
  assert (Hs : serve now req = json_response 202 (acknowledgement project_id now)).
  { rewrite (serve_post now req (JObj fields) Hm Hb); [|discriminate].
    unfold lacks_required. simpl. rewrite Hp, Hu. simpl. rewrite Htp, Htu. reflexivity. }
  rewrite Hs. split; [reflexivity|]. split; [reflexivity|]. split; [reflexivity|].
  eexists. split; [reflexivity|]. repeat split.
  intros s ->. reflexivity.
Qed.

(** A POST is answered 500 exactly when its body is not JSON or is [null]. *)
Lemma post_internal_error now req :
  method req = "POST" ->
  status (serve now req) = 500%Z
  <-> (exists e, json_body req = Throw e) \/ json_body req = Normal JNull.
Proof.
  intros Hm. destruct (json_body req) as [payload|e] eqn:Hb.
  - assert (Hn : payload = JNull \/ payload <> JNull)
      by (destruct payload; (left; reflexivity) || (right; discriminate)).
    destruct Hn as [->|Hn].
    + unfold serve, try_body. rewrite Hm, Hb. simpl. split; [right; reflexivity | reflexivity].
    + rewrite (serve_post now req payload Hm Hb Hn). split.
      * destruct (lacks_required payload); discriminate.
      * intros [[e He]|He]; [discriminate | congruence].
  - unfold serve, try_body. rewrite Hm, Hb. simpl. split; [left; eexists; reflexivity | reflexivity].
Qed.

Lemma post_acknowledged_witness :
  let req := mkRequest "POST" []
               (Normal (JObj [ ("project_id", JStr "project-123");
                               ("base_url", JStr "https://example.com");
                               ("test_types", JArr [ JStr "functional" ]) ])) in
  status (serve "2024-01-01T12:00:00.000Z" req) = 202%Z.
Proof.
  intros req.
  apply (post_acknowledged "2024-01-01T12:00:00.000Z" req
           [ ("project_id", JStr "project-123");
             ("base_url", JStr "https://example.com");
             ("test_types", JArr [ JStr "functional" ]) ]
           (JStr "project-123") (JStr "https://example.com"));
    reflexivity.
Defined.

(** C9, as stated, fails: the JSON body [null] has no project_id, and the
    handler answers 500, not 400. *)
Lemma post_null_body_is_500 :
  let req := mkRequest "POST" [] (Normal JNull) in
  own_prop JNull "project_id" = None
  /\ status (serve "2024-01-01T12:00:00.000Z" req) = 500%Z
  /\ status (serve "2024-01-01T12:00:00.000Z" req) <> 400%Z.
Proof. vm_compute. repeat split; congruence. Qed.

(** C9, amended: for every POST request whose body parses as JSON to a value
    other than [null], the handler returns status 400 with an error body
    exactly when project_id or base_url is missing or falsy in that value,
    and status 202 otherwise; test_types is never read: two such bodies with
    the same project_id and base_url get the same response, and a body
    holding only a truthy project_id and base_url is acknowledged with 202. *)
Theorem post_validation now req payload :
  method req = "POST" -> json_body req = Normal payload -> payload <> JNull ->
  (status (serve now req) = 400%Z <-> lacks_required payload = true)
  /\ (lacks_required payload = true -> body (serve now req) = Some missing_fields)
  /\ (lacks_required payload = false -> status (serve now req) = 202%Z)
  /\ (forall req' payload',
        method req' = "POST" -> json_body req' = Normal payload' -> payload' <> JNull ->
        own_prop payload' "project_id" = own_prop payload "project_id" ->
        own_prop payload' "base_url" = own_prop payload "base_url" ->
        serve now req' = serve now req)
  /\ (forall p b, truthy p = true -> truthy b = true ->
        payload = JObj [ ("project_id", p); ("base_url", b) ] ->
        own_prop payload "test_types" = None /\ status (serve now req) = 202%Z).
Proof.
  intros Hm Hb Hn.
  pose proof (serve_post now req payload Hm Hb Hn) as Hs.
  split; [|split; [|split; [|split]]].
  - rewrite Hs. destruct (lacks_required payload); simpl; split; congruence.
  - intros H. rewrite Hs, H. reflexivity.
  - intros H. rewrite Hs, H. reflexivity.
  - intros req' payload' Hm' Hb' Hn' Hp Hu.
    rewrite Hs, (serve_post now req' payload' Hm' Hb' Hn').
    unfold lacks_required. rewrite Hp, Hu. reflexivity.
  - intros p b Hp Hu ->. split; [reflexivity|].
    rewrite Hs. unfold lacks_required. simpl. rewrite Hp, Hu. reflexivity.
Qed.

Lemma post_validation_witness :
  let payload := JObj [ ("project_id", JStr "project-123");
                        ("base_url", JStr "https://example.com") ] in
  let req := mkRequest "POST" [] (Normal payload) in
  status (serve "2024-01-01T12:00:00.000Z" req) = 400%Z <-> lacks_required payload = true.
Proof.
  intros payload req.
  apply (post_validation "2024-01-01T12:00:00.000Z" req payload);
    [reflexivity | reflexivity | discriminate].
Defined.

End QaTestRunnerFacts.

Module BugReportQueryFacts.
Import Json Http BugReportQuery.

Lemma truthy_nullable_spec name req :
  truthy_nullable (searchParams_get name (searchParams req)) = true <-> has_value name req.
Proof.
  unfold has_value, truthy_nullable.
  destruct (searchParams_get name (searchParams req)) as [v|]; simpl.
  - rewrite negb_true_iff, bool_decide_eq_false. split.
    + intros H. exists v. split; [reflexivity | exact H].
    + intros (v' & Hv & Hne). congruence.
  - split; [discriminate|]. intros (v' & Hv & _). discriminate.
Qed.

Lemma truthy_nullable_false name req :
  truthy_nullable (searchParams_get name (searchParams req)) = false <-> ~ has_value name req.
Proof. rewrite <- truthy_nullable_spec. destruct (truthy_nullable _); split; congruence. Qed.

(** C10, as stated, fails: a GET that carries the execution_id parameter
    with an empty value is answered 400 although the parameter is present. *)
Lemma get_empty_execution_id_rejected :
  let req := mkRequest "GET" [ ("execution_id", "") ] (Throw (mkError "SyntaxError" "Unexpected end of JSON input")) in
  searchParams_get "execution_id" (searchParams req) = Some ""
  /\ status (serve "2024-01-01T12:00:00.000Z" req) = 400%Z
  /\ status (serve "2024-01-01T12:00:00.000Z" req) <> 200%Z.
Proof. vm_compute. repeat split; congruence. Qed.

(** C10, amended: for every GET request, the handler returns status 400
    exactly when neither execution_id nor project_id carries a non-empty
    value (absent, or present with an empty first value), and status 200
    otherwise; a request carrying only a severity filter is rejected. *)
Theorem get_validation now req :
  method req = "GET" ->
  (status (serve now req) = 400%Z
     <-> ~ has_value "execution_id" req /\ ~ has_value "project_id" req)
  /\ (has_value "execution_id" req \/ has_value "project_id" req ->
        status (serve now req) = 200%Z)
  /\ (~ has_value "execution_id" req /\ ~ has_value "project_id" req ->
        body (serve now req) = Some missing_parameter)
  /\ (forall s, searchParams req = [ ("severity", s) ] -> status (serve now req) = 400%Z).
Proof.
  intros Hm.
  assert (Hs : serve now req =
    if negb (truthy_nullable (searchParams_get "execution_id" (searchParams req)))
       && negb (truthy_nullable (searchParams_get "project_id" (searchParams req)))
    then json_response 400 missing_parameter
    else json_response 200
           (JObj [ ("query",
                    JObj [ ("execution_id", of_nullable (searchParams_get "execution_id" (searchParams req)));
                           ("project_id", of_nullable (searchParams_get "project_id" (searchParams req)));
                           ("severity", of_nullable (searchParams_get "severity" (searchParams req))) ]);
                   ("message", JStr "Query bug reports using the database directly");
                   ("example", JStr "GET /functions/v1/bug-report-query?execution_id=<id>&severity=critical") ])).
  { unfold serve, try_body. rewrite Hm. simpl.
    destruct (negb _ && negb _); reflexivity. }
  pose proof (truthy_nullable_spec "execution_id" req) as He.
  pose proof (truthy_nullable_spec "project_id" req) as Hp.
  rewrite Hs.
  destruct (truthy_nullable (searchParams_get "execution_id" (searchParams req))) eqn:Ee;
    destruct (truthy_nullable (searchParams_get "project_id" (searchParams req))) eqn:Ep;
    simpl.
  - assert (has_value "execution_id" req) by (apply He; reflexivity).
    split; [|split; [|split]]; try tauto.
    + split; [discriminate | tauto].
    + intros s Hq. rewrite Hq in Ee. discriminate.
  - assert (has_value "execution_id" req) by (apply He; reflexivity).
    split; [|split; [|split]]; try tauto.
    + split; [discriminate | tauto].
    + intros s Hq. rewrite Hq in Ee. discriminate.
  - assert (has_value "project_id" req) by (apply Hp; reflexivity).
    split; [|split; [|split]]; try tauto.
    + split; [discriminate | tauto].
    + intros s Hq. rewrite Hq in Ep. discriminate.
  - assert (~ has_value "execution_id" req) by (rewrite <- He; discriminate).
    assert (~ has_value "project_id" req) by (rewrite <- Hp; discriminate).
    split; [|split; [|split]]; try tauto.
Qed.

Lemma get_validation_witness :
  let req := mkRequest "GET" [ ("execution_id", "exec-123"); ("severity", "critical") ]
               (Throw (mkError "SyntaxError" "Unexpected end of JSON input")) in
  status (serve "2024-01-01T12:00:00.000Z" req) = 200%Z.
Proof.
  intros req.
  apply (get_validation "2024-01-01T12:00:00.000Z" req); [reflexivity|].
  left. exists "exec-123". split; [reflexivity | discriminate].
Defined.

End BugReportQueryFacts.

(** ** The store *)

Module SchemaFacts.
Import Schema.

Section ReferentialActions.
Context {R : Type} (key : R -> uuid) (ref : R -> option uuid) (clear : R -> R).
Hypothesis clear_key : forall r, key (clear r) = key r.

Lemma on_delete_cascade_elem gone rows x :
  x ∈ on_delete CASCADE ref clear gone rows <-> x ∈ rows /\ ~ references ref gone x.
Proof. unfold on_delete. rewrite list_elem_of_filter. tauto. Qed.

Lemma on_delete_set_null_keys gone rows :
  map key (on_delete SET_NULL ref clear gone rows) = map key rows.
Proof.
  unfold on_delete. induction rows as [|r rows IH]; simpl; [reflexivity|].
  rewrite IH. destruct (decide (references ref gone r)); rewrite ?clear_key; reflexivity.
Qed.

Lemma map_filter_sublist (P : R -> Prop) `{forall x, Decision (P x)} rows :
  sublist (map key (filter P rows)) (map key rows).
Proof.
  induction rows as [|r rows IH]; simpl; [constructor|].
  rewrite filter_cons. destruct (decide (P r)); simpl; constructor; exact IH.
Qed.

Lemma on_delete_keys_NoDup a gone rows :
  NoDup (map key rows) -> NoDup (map key (on_delete a ref clear gone rows)).
Proof.
  destruct a.
  - intros Hnd. eapply sublist_NoDup; [exact Hnd|].
    unfold on_delete. apply map_filter_sublist.
  - rewrite on_delete_set_null_keys. trivial.
Qed.

End ReferentialActions.

Lemma br_clear_execution_id_key b : br_id (br_clear_execution_id b) = br_id b.
Proof. reflexivity. Qed.

Lemma delete_execution_present eid db :
  eid ∈ map te_id (test_executions db) ->
  delete_execution eid db =
    delete_executions_children [eid]
      (with_test_executions (filter (fun e => te_id e <> eid) (test_executions db)) db).
Proof. intros H. unfold delete_execution. rewrite decide_True by exact H. reflexivity. Qed.

Lemma references_not_null {R : Type} (col : R -> uuid) (k : uuid) (r : R) :
  references (not_null col) [k] r <-> col r = k.
Proof. unfold references, not_null. rewrite list_elem_of_singleton. tauto. Qed.

Lemma references_nullable {R : Type} (ref : R -> option uuid) (k : uuid) (r : R) :
  references ref [k] r <-> ref r = Some k.
Proof.
  unfold references. destruct (ref r) as [k'|].
  - rewrite list_elem_of_singleton. split; congruence.
  - split; [tauto | discriminate].
Qed.

(** C1, as stated, fails: the execution of the sample store owns a bug
    report, and after the execution is deleted the bug report is still in
    the table. *)
Lemma bug_report_survives_delete_execution :
  let db := run sample_script in
  let db' := delete_execution "exec-1" db in
  (exists b, (b ∈ bug_reports db) /\ br_id b = "bug-1" /\ br_execution_id b = Some "exec-1")
  /\ ("exec-1" ∈ map te_id (test_executions db))
  /\ ("exec-1" ∉ map te_id (test_executions db'))
  /\ bug_reports db' = [ br_clear_execution_id sample_bug_report ]
  /\ ("bug-1" ∈ map br_id (bug_reports db')).
Proof.
  intros db db'.
  assert (Hb : bug_reports db = [ sample_bug_report ]) by (vm_compute; reflexivity).
  split; [|split; [|split; [|split]]].
  - exists sample_bug_report. rewrite Hb. split; [|split]; [|reflexivity|reflexivity].
    apply list_elem_of_singleton. reflexivity.
  - subst db. compute_done.
  - subst db' db. compute_done.
  - vm_compute. reflexivity.
  - subst db' db. compute_done.
Qed.

(** C1, amended: for every Execution, deleting it cascade-deletes every
    PerformanceMetric and AccessibilityIssue row that it owns (and no other
    row of those tables); its BugReport rows are not deleted: every
    BugReport row survives, those of the deleted Execution with execution_id
    set to NULL. *)
Theorem delete_execution_children (db : Database) (eid : uuid) :
  (eid ∈ map te_id (test_executions db)) ->
  let db' := delete_execution eid db in
  (eid ∉ map te_id (test_executions db'))
  /\ performance_metrics db' = filter (fun m => pm_execution_id m <> eid) (performance_metrics db)
  /\ (forall m, m ∈ performance_metrics db' -> pm_execution_id m <> eid)
  /\ accessibility_issues db' = filter (fun a => ai_execution_id a <> eid) (accessibility_issues db)
  /\ (forall a, a ∈ accessibility_issues db' -> ai_execution_id a <> eid)
  /\ map br_id (bug_reports db') = map br_id (bug_reports db)
  /\ (forall b, b ∈ bug_reports db -> br_execution_id b = Some eid ->
        br_clear_execution_id b ∈ bug_reports db')
  /\ (forall b, b ∈ bug_reports db -> br_execution_id b <> Some eid -> b ∈ bug_reports db')
  /\ (forall b, b ∈ bug_reports db' -> br_execution_id b <> Some eid).
Proof.
  intros Hin db'. subst db'. rewrite (delete_execution_present eid db Hin). simpl.
  assert (Hf : forall {R} (col : R -> uuid) (rows : list R),
             filter (fun r => ~ references (not_null col) [eid] r) rows
             = filter (fun r => col r <> eid) rows).
  { intros R col rows. apply list_filter_iff. intros r. rewrite references_not_null. tauto. }
  split; [|split; [|split; [|split; [|split; [|split; [|split; [|split]]]]]]].
  - intros H. apply list_elem_of_fmap in H as (e & He & Hf'). 
    apply list_elem_of_filter in Hf' as [Hne _]. congruence.
  - apply Hf.
  - intros m Hm. unfold performance_metrics_execution_id_fk, on_delete in Hm.
    rewrite Hf in Hm. apply list_elem_of_filter in Hm. tauto.
  - apply Hf.
  - intros a Ha. unfold accessibility_issues_execution_id_fk, on_delete in Ha.
    rewrite Hf in Ha. apply list_elem_of_filter in Ha. tauto.
  - apply (on_delete_set_null_keys br_id). exact br_clear_execution_id_key.
  - intros b Hb He. unfold bug_reports_execution_id_fk, on_delete.
    apply list_elem_of_fmap. exists b. split; [|exact Hb].
    rewrite decide_True; [reflexivity|]. apply references_nullable. exact He.
  - intros b Hb He. unfold bug_reports_execution_id_fk, on_delete.
    apply list_elem_of_fmap. exists b. split; [|exact Hb].
    rewrite decide_False; [reflexivity|]. rewrite references_nullable. exact He.
  - intros b Hb. unfold bug_reports_execution_id_fk, on_delete in Hb.
    apply list_elem_of_fmap in Hb as (b0 & -> & _).
    destruct (decide (references br_execution_id [eid] b0)) as [Hr|Hr].
    + discriminate.
    + rewrite references_nullable in Hr. exact Hr.
Qed.

Lemma delete_execution_children_witness :
  "exec-1" ∉ map te_id (test_executions (delete_execution "exec-1" (run sample_script))).
Proof.
  apply (delete_execution_children (run sample_script) "exec-1").
  compute_done.
Defined.


(** Bug reports go with their project: after a project is deleted, none of
    its bug reports is left. *)
Lemma delete_project_bug_reports (db : Database) (pid : uuid) (b : bug_reports_row) :
  (pid ∈ map tp_id (test_projects db)) ->
  b ∈ bug_reports (delete_project pid db) -> br_project_id b <> pid.
Proof.
  intros Hin Hb. unfold delete_project in Hb. rewrite decide_True in Hb by exact Hin.
  cbn [bug_reports] in Hb. unfold bug_reports_project_id_fk in Hb.
  apply on_delete_cascade_elem in Hb as [_ Hb]. rewrite references_not_null in Hb. exact Hb.
Qed.

(** *** Uniqueness in [bug_reports] *)

Lemma insert_bug_report_inv r row db db' :
  insert_bug_report r row db = Some db' ->
  fresh_key (br_id row) (map br_id (bug_reports db)) = true
  /\ has_key (br_project_id row) (map tp_id (test_projects db)) = true
  /\ match br_execution_id row with
     | None => true
     | Some eid => has_key eid (map te_id (test_executions db))
     end = true
  /\ owns_project r (br_project_id row) db = true
  /\ bug_reports db' = (bug_reports db ++ [ row ])%list
  /\ test_projects db' = test_projects db
  /\ test_executions db' = test_executions db.
Proof.
  unfold insert_bug_report. intros H.
  destruct (fresh_key _ _) eqn:E1; [|discriminate].
  destruct (has_key (br_project_id row) _) eqn:E2; [|discriminate].
  destruct (match br_execution_id row with Some _ => _ | None => _ end) eqn:E3; [|discriminate].
  destruct (owns_project _ _ _) eqn:E4; [|discriminate].
  simpl in H. injection H as <-. simpl. tauto.
Qed.

Lemma owns_project_projects r pid db db' :
  test_projects db' = test_projects db -> owns_project r pid db' = owns_project r pid db.
Proof. intros H. unfold owns_project. rewrite H. reflexivity. Qed.

Lemma map_snoc_NoDup {R : Type} (key : R -> uuid) (rows : list R) (row : R) :
  NoDup (map key rows) -> fresh_key (key row) (map key rows) = true ->
  NoDup (map key (rows ++ [ row ])%list).
Proof.
  intros Hnd Hfresh. apply bool_decide_eq_true in Hfresh.
  rewrite map_app. apply NoDup_app. split; [exact Hnd|]. split.
  - intros x Hx Hx'. simpl in Hx'. apply list_elem_of_singleton in Hx'. congruence.
  - simpl. apply NoDup_singleton.
Qed.

(** No statement makes two rows of [bug_reports] share an id. *)
Lemma exec_bug_report_ids s db :
  NoDup (map br_id (bug_reports db)) -> NoDup (map br_id (bug_reports (exec s db))).
Proof.
  intros Hnd.
  destruct s as [r row|r row|r row|r row|r row|r row|r row|r row|r row|eid|sid|pid]; simpl.
  - unfold insert_test_project. destruct (_ && _); exact Hnd.
  - unfold insert_test_scenario. destruct (_ && _); exact Hnd.
  - unfold insert_test_execution. destruct (_ && _); exact Hnd.
  - unfold insert_test_result. destruct (_ && _); exact Hnd.
  - destruct (insert_bug_report r row db) as [db'|] eqn:E; simpl; [|exact Hnd].
    apply insert_bug_report_inv in E as (Hfresh & _ & _ & _ & -> & _).
    apply map_snoc_NoDup; assumption.
  - unfold insert_performance_metric. destruct (_ && _); exact Hnd.
  - unfold insert_accessibility_issue. destruct (_ && _); exact Hnd.
  - unfold insert_screenshot. destruct (_ && _); exact Hnd.
  - unfold insert_test_schedule. destruct (_ && _); exact Hnd.
  - unfold delete_execution. destruct (decide _); [|exact Hnd].
    unfold delete_executions_children. cbn [bug_reports with_test_executions].
    apply on_delete_keys_NoDup; [exact br_clear_execution_id_key | exact Hnd].
  - unfold delete_scenario. destruct (decide _); exact Hnd.
  - unfold delete_project. destruct (decide _); [|exact Hnd].
    unfold delete_scenarios_children, delete_executions_children. cbn [bug_reports].
    apply on_delete_keys_NoDup; [reflexivity|].
    apply on_delete_keys_NoDup; [exact br_clear_execution_id_key | exact Hnd].
Qed.

Lemma run_snoc script s : run (script ++ [ s ])%list = exec s (run script).
Proof. unfold run. rewrite foldl_app. reflexivity. Qed.

Lemma reachable_bug_report_ids db :
  reachable db -> NoDup (map br_id (bug_reports db)).
Proof.
  intros [script <-]. induction script as [|s script IH] using rev_ind.
  - constructor.
  - rewrite run_snoc. apply exec_bug_report_ids. exact IH.
Qed.

(** C5, as stated, fails: a user's script reaches a store in which two
    distinct BugReports have the same execution_id, page_url, bug_type and
    description (so the same description-hash, whatever the hash). *)
Lemma two_bug_reports_share_a_dedup_key :
  exists db b1 b2,
    reachable db
    /\ (b1 ∈ bug_reports db) /\ (b2 ∈ bug_reports db)
    /\ br_id b1 <> br_id b2
    /\ br_execution_id b1 = br_execution_id b2
    /\ br_page_url b1 = br_page_url b2
    /\ br_bug_type b1 = br_bug_type b2
    /\ (forall hash : option string -> Z,
          hash (br_description b1) = hash (br_description b2)).
Proof.
  exists (run duplicate_script), sample_bug_report, (br_with_id "bug-2" sample_bug_report).
  assert (Hb : bug_reports (run duplicate_script)
               = [ sample_bug_report; br_with_id "bug-2" sample_bug_report ])
    by (vm_compute; reflexivity).
  rewrite Hb. split; [exists duplicate_script; reflexivity|].
  split; [apply list_elem_of_here|].
  split; [apply list_elem_of_further, list_elem_of_here|].
  split; [discriminate|].
  repeat split.
Qed.

(** C5, amended: at every reachable state of the store, each id maps to at
    most one BugReport row, and that primary key is the only uniqueness the
    bug_reports table enforces: whenever the store accepts a BugReport row,
    it accepts next the same row under any unused id, so two distinct
    BugReports may share (execution_id, page_url, bug_type, description). *)
Theorem bug_reports_unique_by_id_only (db : Database) :
  reachable db ->
  NoDup (map br_id (bug_reports db))
  /\ (forall r row db' k,
        insert_bug_report r row db = Some db' ->
        (k ∉ map br_id (bug_reports db')) ->
        exists db'',
          insert_bug_report r (br_with_id k row) db' = Some db''
          /\ bug_reports db'' = (bug_reports db ++ [ row; br_with_id k row ])%list).
Proof.
  intros Hreach. split; [apply reachable_bug_report_ids; exact Hreach|].
  intros r row db' k Hins Hk.
  apply insert_bug_report_inv in Hins as (_ & Hp & He & Ho & Hb & Htp & Hte).
  unfold insert_bug_report. simpl.
  rewrite Htp, Hte, Hp, He, (owns_project_projects r _ db db' Htp), Ho.
  unfold fresh_key. rewrite bool_decide_eq_true_2 by exact Hk. simpl.
  eexists. split; [reflexivity|]. simpl. rewrite Hb, <- app_assoc. reflexivity.
Qed.

Lemma bug_reports_unique_by_id_only_witness :
  NoDup (map br_id (bug_reports (run sample_script))).
Proof.
  apply (bug_reports_unique_by_id_only (run sample_script)).
  exists sample_script. reflexivity.
Defined.

End SchemaFacts.

(** ** The bug detector *)

Module BugDetectorFacts.
Import BugDetector.

Section Deduplication.
Variable description_hash : string -> Z.
Variable fatal_patterns : list string.
Variable narrative : Finding -> Narrative.
Variable execution_id : string.

#[local] Abbreviation key := (finding_key description_hash execution_id).
#[local] Abbreviation dedup := (first_occurrences description_hash execution_id).
#[local] Abbreviation report := (to_report fatal_patterns narrative execution_id).
#[local] Abbreviation classify := (classify description_hash fatal_patterns narrative).

(** The lookup on the examples the design gives. *)
Example severity_of_5xx_link :
  assign_severity fatal_patterns broken_link
    {| http_status := Some 503%Z; wcag := None; informational := false; message := "" |} low
  = critical.
Proof. reflexivity. Qed.

Example severity_of_4xx_link :
  assign_severity fatal_patterns broken_link
    {| http_status := Some 404%Z; wcag := None; informational := false; message := "" |} low
  = high.
Proof. reflexivity. Qed.

Example severity_of_AA_violation :
  assign_severity fatal_patterns missing_label
    {| http_status := None; wcag := Some WCAG_AA; informational := false; message := "" |} low
  = medium.
Proof. reflexivity. Qed.

Example severity_of_informational :
  assign_severity fatal_patterns performance_issue
    {| http_status := None; wcag := None; informational := true; message := "" |} high
  = info.
Proof. reflexivity. Qed.

Lemma report_key_to_report f : report_key description_hash (report f) = key f.
Proof. reflexivity. Qed.

(** What is kept comes from the input and was not seen before. *)
Lemma dedup_elem seen fs f :
  f ∈ dedup seen fs -> (f ∈ fs) /\ (key f ∉ seen).
Proof.
  revert seen. induction fs as [|g fs IH]; intros seen Hf; simpl in Hf.
  - inversion Hf.
  - destruct (decide (key g ∈ seen)) as [Hs|Hs].
    + apply IH in Hf as [Hin Hn]. split; [right; exact Hin | exact Hn].
    + apply elem_of_cons in Hf as [->|Hf].
      * split; [left | exact Hs].
      * apply IH in Hf as [Hin Hn]. split; [right; exact Hin|].
        intros Hk. apply Hn. right. exact Hk.
Qed.

(** What is kept was not seen at any earlier point of the scan. *)
Lemma dedup_elem_fresh seen fs f k :
  f ∈ dedup (k :: seen) fs -> key f <> k.
Proof.
  intros Hf. apply dedup_elem in Hf as [_ Hn]. intros <-. apply Hn. left.
Qed.

Lemma dedup_keys_NoDup seen fs : NoDup (map key (dedup seen fs)).
Proof.
  revert seen. induction fs as [|g fs IH]; intros seen; simpl.
  - constructor.
  - destruct (decide (key g ∈ seen)) as [Hs|Hs]; [apply IH|].
    simpl. constructor; [|apply IH].
    intros Hin. apply list_elem_of_fmap in Hin as (f & Hk & Hf).
    apply dedup_elem_fresh in Hf. congruence.
Qed.

(** Every key of the input is seen before or kept. *)
Lemma dedup_covers seen fs f :
  f ∈ fs -> (key f ∈ seen) \/ (key f ∈ map key (dedup seen fs)).
Proof.
  revert seen. induction fs as [|g fs IH]; intros seen Hf.
  - inversion Hf.
  - simpl. apply elem_of_cons in Hf as [->|Hf].
    + destruct (decide (key g ∈ seen)) as [Hs|Hs]; [left; exact Hs|].
      right. simpl. left.
    + destruct (decide (key g ∈ seen)) as [Hs|Hs]; [apply IH; exact Hf|].
      destruct (IH (key g :: seen) Hf) as [Hk|Hk].
      * apply elem_of_cons in Hk as [Hk|Hk]; [|left; exact Hk].
        right. simpl. rewrite Hk. left.
      * right. simpl. right. exact Hk.
Qed.

(** A list without repeated keys, none of them seen, is kept whole. *)
Lemma dedup_fixed seen fs :
  NoDup (map key fs) -> (forall f, f ∈ fs -> key f ∉ seen) -> dedup seen fs = fs.
Proof.
  revert seen. induction fs as [|g fs IH]; intros seen Hnd Hfresh; simpl; [reflexivity|].
  simpl in Hnd. apply NoDup_cons in Hnd as [Hg Hnd].
  rewrite decide_False by (apply Hfresh; left).
  f_equal. apply IH; [exact Hnd|].
  intros f Hf Hk. apply elem_of_cons in Hk as [Hk|Hk].
  - apply Hg. rewrite <- Hk. apply (list_elem_of_fmap_2 key). exact Hf.
  - apply (Hfresh f); [right; exact Hf | exact Hk].
Qed.

Lemma dedup_all_seen seen fs :
  (forall f, f ∈ fs -> key f ∈ seen) -> dedup seen fs = [].
Proof.
  induction fs as [|g fs IH]; intros Hs; simpl; [reflexivity|].
  rewrite decide_True by (apply Hs; left). apply IH.
  intros f Hf. apply Hs. right. exact Hf.
Qed.

(** Findings whose keys all occurred earlier add nothing. *)
Lemma dedup_app_repeated seen fs more :
  (forall f, f ∈ more -> (key f ∈ seen) \/ (key f ∈ map key fs)) ->
  dedup seen (fs ++ more) = dedup seen fs.
Proof.
  revert seen. induction fs as [|g fs IH]; intros seen Hm; simpl.
  - apply dedup_all_seen. intros f Hf. destruct (Hm f Hf) as [H|H]; [exact H | inversion H].
  - destruct (decide (key g ∈ seen)) as [Hs|Hs].
    + apply IH. intros f Hf. destruct (Hm f Hf) as [H|H]; [left; exact H|].
      simpl in H. apply elem_of_cons in H as [H|H]; [left; congruence | right; exact H].
    + f_equal. apply IH. intros f Hf. destruct (Hm f Hf) as [H|H].
      * left. right. exact H.
      * simpl in H. apply elem_of_cons in H as [H|H].
        -- left. rewrite H. left.
        -- right. exact H.
Qed.

(** What is kept is the first finding of its key. *)
Lemma dedup_first seen fs f :
  f ∈ dedup seen fs ->
  exists before after,
    fs = (before ++ f :: after)%list /\ (forall g, g ∈ before -> key g <> key f).
Proof.
  revert seen. induction fs as [|g fs IH]; intros seen Hf; simpl in Hf.
  - inversion Hf.
  - destruct (decide (key g ∈ seen)) as [Hs|Hs].
    + pose proof (dedup_elem _ _ _ Hf) as [_ Hn].
      apply IH in Hf as (before & after & -> & Hb).
      exists (g :: before), after. split; [reflexivity|].
      intros h Hh. apply elem_of_cons in Hh as [->|Hh]; [congruence | apply Hb; exact Hh].
    + apply elem_of_cons in Hf as [->|Hf].
      * exists [], fs. split; [reflexivity|]. intros h Hh. inversion Hh.
      * pose proof (dedup_elem_fresh _ _ _ _ Hf) as Hne.
        apply IH in Hf as (before & after & -> & Hb).
        exists (g :: before), after. split; [reflexivity|].
        intros h Hh. apply elem_of_cons in Hh as [->|Hh]; [congruence | apply Hb; exact Hh].
Qed.

Lemma classify_keys fs :
  map (report_key description_hash) (classify fs execution_id) = map key (dedup [] fs).
Proof.
  unfold BugDetector.classify. rewrite map_map. apply map_ext. intros f. reflexivity.
Qed.

Lemma classify_keys_NoDup fs :
  NoDup (map (report_key description_hash) (classify fs execution_id)).
Proof. rewrite classify_keys. apply dedup_keys_NoDup. Qed.

(** C4: classify is idempotent. Classifying findings already deduplicated,
    or the findings followed by a repetition of the same findings, yields
    the very list of bug reports that the findings yield; that list has no
    two reports with the same deduplication key, hence no duplicate row;
    every finding's key has its report, and each report is made from the
    first finding of its key in the given (canonical) order. *)
Theorem classify_idempotent (fs : list Finding) :
  classify (dedup [] fs) execution_id = classify fs execution_id
  /\ classify (fs ++ fs) execution_id = classify fs execution_id
  /\ NoDup (map (report_key description_hash) (classify fs execution_id))
  /\ NoDup (classify fs execution_id)
  /\ (forall f, f ∈ fs ->
        exists b, (b ∈ classify fs execution_id) /\ report_key description_hash b = key f)
  /\ (forall b, b ∈ classify fs execution_id ->
        exists before f after,
          fs = (before ++ f :: after)%list /\ b = report f
          /\ (forall g, g ∈ before -> key g <> key f)).
Proof.
  split; [|split; [|split; [|split; [|split]]]].
  - unfold BugDetector.classify. f_equal. apply dedup_fixed.
    + apply dedup_keys_NoDup.
    + intros f _ Hk. inversion Hk.
  - unfold BugDetector.classify. f_equal. apply dedup_app_repeated.
    intros f Hf. right. apply (list_elem_of_fmap_2 key). exact Hf.
  - apply classify_keys_NoDup.
  - apply (NoDup_fmap_1 (report_key description_hash)). apply classify_keys_NoDup.
  - intros f Hf. destruct (dedup_covers [] fs f Hf) as [H|H]; [inversion H|].
    apply list_elem_of_fmap in H as (g & Hk & Hg).
    exists (report g). split; [|rewrite report_key_to_report; congruence].
    unfold BugDetector.classify. apply (list_elem_of_fmap_2 report). exact Hg.
  - intros b Hb. unfold BugDetector.classify in Hb.
    apply list_elem_of_fmap in Hb as (f & -> & Hf).
    apply dedup_first in Hf as (before & after & Hfs & Hfirst).
    exists before, f, after. repeat split; assumption.
Qed.

End Deduplication.

End BugDetectorFacts.

(** ** The broken-links runner *)

Module BrokenLinksFacts.
Import BugDetector BrokenLinks.

Section Runner.
Variable description_hash : string -> Z.
Variable fatal_patterns : list string.
Variable narrative : Finding -> Narrative.
Variable web : string -> probe.
Variable suggested_severity : severity.
Variable describe : string -> option Z -> string.

#[local] Abbreviation check := (check_link web).
#[local] Abbreviation run := (run web suggested_severity describe).
#[local] Abbreviation finding := (broken_link_finding suggested_severity describe).
#[local] Abbreviation report := (to_report fatal_patterns narrative).
#[local] Abbreviation classify := (classify description_hash fatal_patterns narrative).
#[local] Abbreviation flagged := (flagged web suggested_severity describe).

Lemma unique_links_elem seen links l :
  l ∈ unique_links seen links <-> (l ∈ links) /\ (l ∉ seen).
Proof.
  revert seen. induction links as [|x links IH]; intros seen; simpl.
  - rewrite elem_of_nil. tauto.
  - destruct (decide (x ∈ seen)) as [Hs|Hs].
    + rewrite IH, elem_of_cons. split; [tauto|].
      intros [[->|H] Hn]; [contradiction | tauto].
    + rewrite !elem_of_cons, IH, not_elem_of_cons. split.
      * intros [->|[H [Hne Hn]]]; tauto.
      * intros [[->|H] Hn]; [tauto|].
        destruct (decide (l = x)) as [->|Hne]; tauto.
Qed.

Lemma unique_links_NoDup seen links : NoDup (unique_links seen links).
Proof.
  revert seen. induction links as [|x links IH]; intros seen; simpl; [constructor|].
  destruct (decide (x ∈ seen)) as [Hs|Hs]; [apply IH|].
  constructor; [|apply IH].
  rewrite unique_links_elem, not_elem_of_cons. tauto.
Qed.

Lemma probe_links_findings page links :
  findings (probe_links web suggested_severity describe page links) = omap (flagged page) links.
Proof.
  induction links as [|l links IH]; simpl; [reflexivity|].
  unfold flagged at 1. destruct (check l); simpl; rewrite IH; reflexivity.
Qed.

Lemma probe_links_redirects page links x :
  x ∈ redirects (probe_links web suggested_severity describe page links)
  <-> exists l target, (l ∈ links) /\ check l = Redirected target /\ x = (l, target).
Proof.
  induction links as [|l links IH]; simpl.
  - rewrite elem_of_nil. split; [tauto|]. intros (l & t & H & _). inversion H.
  - destruct (check l) as [|t|c] eqn:E; simpl; rewrite ?elem_of_cons, IH.
    + split.
      * intros (l' & t & H & Hc & ->). exists l', t. rewrite elem_of_cons. tauto.
      * intros (l' & t & H & Hc & ->). apply elem_of_cons in H as [->|H]; [congruence|].
        exists l', t. tauto.
    + split.
      * intros [->|(l' & t' & H & Hc & ->)].
        -- exists l, t. rewrite elem_of_cons. tauto.
        -- exists l', t'. rewrite elem_of_cons. tauto.
      * intros (l' & t' & H & Hc & ->). apply elem_of_cons in H as [->|H].
        -- left. congruence.
        -- right. exists l', t'. tauto.
    + split.
      * intros (l' & t & H & Hc & ->). exists l', t. rewrite elem_of_cons. tauto.
      * intros (l' & t & H & Hc & ->). apply elem_of_cons in H as [->|H]; [congruence|].
        exists l', t. tauto.
Qed.

(** Findings of distinct links with distinct keys stay distinct. *)
Lemma omap_keys_NoDup {K : Type} (key : Finding -> K) (g : string -> option Finding) links :
  NoDup links ->
  (forall l l' f f', l ∈ links -> l' ∈ links -> g l = Some f -> g l' = Some f' ->
     key f = key f' -> l = l') ->
  NoDup (map key (omap g links)).
Proof.
  induction links as [|x links IH]; intros Hnd Hinj; simpl; [constructor|].
  apply NoDup_cons in Hnd as [Hx Hnd].
  assert (IH' : NoDup (map key (omap g links))).
  { apply IH; [exact Hnd|]. intros l l' f f' Hl Hl'. apply Hinj; right; assumption. }
  destruct (g x) as [fx|] eqn:E; [|exact IH'].
  simpl. constructor; [|exact IH'].
  intros Hin. apply list_elem_of_fmap in Hin as (f & Hk & Hf).
  apply list_elem_of_omap in Hf as (l & Hl & Hg).
  apply Hx. rewrite (Hinj x l fx f); [exact Hl | left | right; exact Hl | exact E | exact Hg | exact Hk].
Qed.

Lemma check_not_redirect href code location :
  web href = Status code location -> is_redirect code = false ->
  check href = judge (Status code location).
Proof.
  intros Hw Hr. unfold check_link. rewrite Hw.
  destruct location; [rewrite Hr|]; reflexivity.
Qed.

(** C6: on a page whose links are a link answering 200, a link answering
    301 that redirects to a target answering 200, a link answering 404 and
    a link answering 500 (in any order, repeated or not), the broken-links
    runner followed by classification yields exactly two bug reports, of
    type broken_link: the one of the 404 link with severity high, and the
    one of the 500 link with severity critical; the 200 link and the
    redirect are not flagged, and the redirect is recorded. The
    descriptions of the two broken links are taken to hash differently. *)
Theorem broken_links_reported (page : Page) (execution_id : string)
    (u200 u301 target u404 u500 : string) (loc200 loc_target loc404 loc500 : option string) :
  web u200 = Status 200 loc200 ->
  web u301 = Status 301 (Some target) ->
  web target = Status 200 loc_target ->
  web u404 = Status 404 loc404 ->
  web u500 = Status 500 loc500 ->
  (forall l, l ∈ hrefs page <-> l ∈ [ u200; u301; u404; u500 ]) ->
  description_hash (describe u404 (Some 404%Z)) <> description_hash (describe u500 (Some 500%Z)) ->
  let reports := classify (findings (run page)) execution_id in
  let r404 := report execution_id (finding page u404 (Some 404%Z)) in
  let r500 := report execution_id (finding page u500 (Some 500%Z)) in
  (forall b, b ∈ reports <-> b = r404 \/ b = r500)
  /\ NoDup reports
  /\ r404 <> r500
  /\ b_bug_type r404 = broken_link /\ b_severity r404 = high
  /\ b_bug_type r500 = broken_link /\ b_severity r500 = critical
  /\ (forall x, x ∈ redirects (run page) <-> x = (u301, target)).
Proof.
  intros H200 H301 Ht H404 H500 Hrefs Hhash reports r404 r500.
  assert (C200 : check u200 = Fine)
    by (rewrite (check_not_redirect _ _ _ H200); reflexivity).
  assert (C404 : check u404 = Broken (Some 404%Z))
    by (rewrite (check_not_redirect _ _ _ H404); reflexivity).
  assert (C500 : check u500 = Broken (Some 500%Z))
    by (rewrite (check_not_redirect _ _ _ H500); reflexivity).
  assert (C301 : check u301 = Redirected target).
  { unfold check_link. rewrite H301. simpl. rewrite Ht. reflexivity. }
  set (links := unique_links [] (hrefs page)).
  assert (Hlinks : forall l, l ∈ links <-> l = u200 \/ l = u301 \/ l = u404 \/ l = u500).
  { intros l. unfold links. rewrite unique_links_elem, Hrefs, !elem_of_cons, elem_of_nil.
    tauto. }
  assert (Hflag : forall l f, l ∈ links -> flagged page l = Some f ->
            (l = u404 /\ f = finding page u404 (Some 404%Z))
            \/ (l = u500 /\ f = finding page u500 (Some 500%Z))).
  { intros l f Hl Hf. apply Hlinks in Hl as [ -> | [ -> | [ -> | -> ] ] ]; unfold flagged in Hf.
    - rewrite C200 in Hf. discriminate.
    - rewrite C301 in Hf. discriminate.
    - rewrite C404 in Hf. left. split; congruence.
    - rewrite C500 in Hf. right. split; congruence. }
  assert (Hfs : findings (run page) = omap (flagged page) links)
    by apply probe_links_findings.
  assert (Hnd : NoDup (map (finding_key description_hash execution_id) (findings (run page)))).
  { rewrite Hfs. apply omap_keys_NoDup; [apply unique_links_NoDup|].
    intros l l' f f' Hl Hl' Hf Hf' Hk.
    destruct (Hflag l f Hl Hf) as [[-> ->]|[-> ->]];
      destruct (Hflag l' f' Hl' Hf') as [[-> ->]|[-> ->]]; try reflexivity;
      exfalso; apply Hhash; unfold finding_key in Hk; simpl in Hk; congruence. }
  assert (Hcl : reports = map (report execution_id) (findings (run page))).
  { unfold reports, BugDetector.classify. f_equal.
    apply BugDetectorFacts.dedup_fixed; [exact Hnd|].
    intros f _. apply not_elem_of_nil. }
  assert (Hmem : forall f, f ∈ findings (run page)
            <-> f = finding page u404 (Some 404%Z) \/ f = finding page u500 (Some 500%Z)).
  { intros f. rewrite Hfs, list_elem_of_omap. split.
    - intros (l & Hl & Hf). destruct (Hflag l f Hl Hf) as [[_ ->]|[_ ->]]; tauto.
    - intros [ -> | -> ].
      + exists u404. split; [apply Hlinks; tauto|]. unfold flagged. rewrite C404. reflexivity.
      + exists u500. split; [apply Hlinks; tauto|]. unfold flagged. rewrite C500. reflexivity. }
  split; [|split; [|split; [|split; [|split; [|split; [|split]]]]]].
  - intros b. rewrite Hcl. change (map ?f ?l) with (f <$> l). rewrite list_elem_of_fmap. split.
    + intros (f & -> & Hf). apply Hmem in Hf as [ -> | -> ]; tauto.
    + intros [ -> | -> ]; eexists; (split; [reflexivity|]); apply Hmem; tauto.
  - apply (NoDup_fmap_1 (report_key description_hash)).
    apply BugDetectorFacts.classify_keys_NoDup.
  - intros Heq. apply Hhash.
    apply (f_equal b_description) in Heq. simpl in Heq. congruence.
  - reflexivity.
  - reflexivity.
  - reflexivity.
  - reflexivity.
  - intros x. unfold BrokenLinks.run. rewrite probe_links_redirects. fold links. split.
    + intros (l & t & Hl & Hc & ->). apply Hlinks in Hl as [ -> | [ -> | [ -> | -> ] ] ]; congruence.
    + intros ->. exists u301, target. split; [apply Hlinks; tauto|]. tauto.
Qed.

End Runner.


Lemma broken_links_reported_witness :
  NoDup (BugDetector.classify sample_hash [] sample_narrative
           (findings (BrokenLinks.run sample_web medium sample_describe sample_page)) "exec-1").
Proof.
  apply (broken_links_reported sample_hash [] sample_narrative sample_web medium sample_describe
           sample_page "exec-1"
           "https://example.com/ok" "https://example.com/old" "https://example.com/new"
           "https://example.com/gone" "https://example.com/error" None None None None);
    try reflexivity.
  vm_compute. discriminate.
Defined.

End BrokenLinksFacts.

(** ** The orchestrator *)

Module OrchestratorFacts.
Import BugDetector Orchestrator.

Lemma find_updated eid upd (l : list Execution) (new : Execution) :
  (eid ∉ map e_id l) -> e_id new = eid -> (forall e, e_id (upd e) = e_id e) ->
  find (fun e => bool_decide (e_id e = eid))
    (map (fun e => if decide (e_id e = eid) then upd e else e) (l ++ [ new ])%list)
  = Some (upd new).
Proof.
  intros Hfresh Hnew Hupd. induction l as [|e l IH]; simpl.
  - rewrite decide_True by exact Hnew.
    rewrite bool_decide_eq_true_2 by (rewrite Hupd; exact Hnew). reflexivity.
  - simpl in Hfresh. apply not_elem_of_cons in Hfresh as [Hne Hfresh].
    rewrite decide_False by congruence.
    rewrite bool_decide_eq_false_2 by congruence. apply IH. exact Hfresh.
Qed.

Lemma log_without eid (log : list (string * exec_status)) :
  (forall s, (eid, s) ∉ log) -> filter (fun entry => fst entry = eid) log = [].
Proof.
  intros Hfresh. induction log as [|[k s] log IH]; [reflexivity|].
  rewrite filter_cons. simpl. destruct (decide (k = eid)) as [->|Hne].
  - exfalso. apply (Hfresh s). left.
  - apply IH. intros s' Hin. apply (Hfresh s'). right. exact Hin.
Qed.

Section Suite.
Variable W : Type.
Variable Handle : Type.
Variable open_session : W -> W * outcome Handle.
Variable run_runner : test_type -> Handle -> string -> W -> W * outcome (list Finding).
Variable close_session : Handle -> W -> W * outcome unit.
Variable internal_error_finding : test_type -> string -> string -> Finding.
Variable description_hash : string -> Z.
Variable fatal_patterns : list string.
Variable narrative : Finding -> Narrative.

#[local] Abbreviation run_tests :=
  (run_tests W Handle open_session run_runner close_session internal_error_finding).
#[local] Abbreviation run_complete_qa_suite :=
  (run_complete_qa_suite W Handle open_session run_runner close_session
     internal_error_finding description_hash fatal_patterns narrative).

(** The store after the suite, by the outcome of the test loop. *)
Lemma suite_store eid project_id base_url test_types w st :
  (eid ∉ map e_id (executions st)) ->
  (forall s, (eid, s) ∉ status_log st) ->
  let final :=
    match (run_tests base_url test_types w [] 0).2 with
    | Ok (fs, ran) => (completed, None, ran)
    | Raise e => (failed, Some e, 0)
    end in
  let ex := {| e_id := eid; e_project_id := project_id; e_status := final.1.1;
               e_error := final.1.2; e_total_tests := final.2 |} in
  let result := run_complete_qa_suite eid project_id base_url test_types w st in
  result.2 = Ok ex
  /\ find_execution eid result.1.2 = Some ex
  /\ statuses_of eid result.1.2 = [ running; final.1.1 ].
Proof.
  intros Hfresh Hlog. unfold Orchestrator.run_complete_qa_suite.
  destruct (run_tests base_url test_types w [] 0) as [w' [[fs ran]|e]]; simpl.
  - assert (Hfind : find_execution eid
        (flush (classify description_hash fatal_patterns narrative fs eid)
           (set_status eid completed None ran (create_execution eid project_id st)))
        = Some {| e_id := eid; e_project_id := project_id; e_status := completed;
                  e_error := None; e_total_tests := ran |}).
    { unfold find_execution, flush, set_status, create_execution. simpl.
      rewrite (find_updated eid (finish completed None ran)); [reflexivity| exact Hfresh | reflexivity |].
      intros e. reflexivity. }
    rewrite Hfind. simpl. split; [reflexivity|]. split; [exact Hfind|].
    unfold statuses_of. simpl. rewrite !filter_app, (log_without eid _ Hlog).
    rewrite !filter_cons, filter_nil. simpl. rewrite !decide_True by reflexivity. reflexivity.
  - assert (Hfind : find_execution eid
        (set_status eid failed (Some e) 0 (create_execution eid project_id st))
        = Some {| e_id := eid; e_project_id := project_id; e_status := failed;
                  e_error := Some e; e_total_tests := 0 |}).
    { unfold find_execution, set_status, create_execution. simpl.
      rewrite (find_updated eid (finish failed (Some e) 0)); [reflexivity| exact Hfresh | reflexivity |].
      intros e'. reflexivity. }
    rewrite Hfind. simpl. split; [reflexivity|]. split; [exact Hfind|].
    unfold statuses_of. simpl. rewrite !filter_app, (log_without eid _ Hlog).
    rewrite !filter_cons, filter_nil. simpl. rewrite !decide_True by reflexivity. reflexivity.
Qed.

#[local] Abbreviation ran_one :=
  (ran_one W Handle open_session run_runner close_session internal_error_finding).
#[local] Abbreviation broke_one := (broke_one W Handle open_session run_runner close_session).
#[local] Abbreviation ran_all :=
  (ran_all W Handle open_session run_runner close_session internal_error_finding).

(** A test type that runs to its end hands the loop on to the next one. *)
Lemma run_tests_ran_one base_url ty rest w w' fs acc ran :
  ran_one base_url ty w w' fs ->
  run_tests base_url (ty :: rest) w acc ran = run_tests base_url rest w' (acc ++ fs) (S ran).
Proof.
  intros [w1 w2 h u Ho Hr Hc|w1 w2 h msg u Ho Hr Hc ->]; simpl; rewrite Ho, Hr, Hc; reflexivity.
Qed.

(** A test type that lets an exception out ends the loop with it, wherever
    it stands in the list. *)
Lemma run_tests_broke_one base_url ty rest w w' e acc ran :
  broke_one base_url ty w w' e ->
  run_tests base_url (ty :: rest) w acc ran = (w', Raise e).
Proof.
  intros [Ho|w1 w2 h closed Ho Hr Hne Hc|w1 w2 h result Ho Hr Hres Hc]; simpl.
  - rewrite Ho. reflexivity.
  - rewrite Ho, Hr, Hc. destruct e; try reflexivity. exfalso. apply (Hne msg). reflexivity.
  - rewrite Ho, Hr, Hc. destruct result as [fs|e']; [reflexivity|].
    destruct (Hres e' eq_refl) as [msg ->]. reflexivity.
Qed.

Lemma run_tests_ran_all base_url tys w w' fs :
  ran_all base_url tys w w' fs ->
  forall rest acc ran,
    run_tests base_url (tys ++ rest) w acc ran
    = run_tests base_url rest w' (acc ++ fs) (ran + length tys).
Proof.
  induction 1 as [w|ty tys w w1 w' fs fs' Hone Hall IH]; intros rest acc ran.
  - rewrite app_nil_r, Nat.add_0_r. reflexivity.
  - change ((ty :: tys) ++ rest)%list with (ty :: (tys ++ rest))%list.
    rewrite (run_tests_ran_one _ _ _ _ _ _ _ _ Hone), IH, app_assoc.
    f_equal. simpl. lia.
Qed.

(** Every test type either runs to its end or lets an exception out. *)
Lemma one_test_type_cases base_url ty w :
  (exists w' fs, ran_one base_url ty w w' fs) \/ (exists w' e, broke_one base_url ty w w' e).
Proof.
  destruct (open_session w) as [w1 [h|e]] eqn:Ho; [|right; exists w1, e; apply broke_open; exact Ho].
  destruct (run_runner ty h base_url w1) as [w2 result] eqn:Hr.
  destruct (close_session h w2) as [w3 [u|e]] eqn:Hc.
  - destruct result as [fs|e].
    + left. exists w3, fs. exact (ran_findings _ _ _ _ _ _ _ _ _ _ _ w1 w2 h u Ho Hr Hc).
    + destruct e as [|m|msg|m|m];
        try (right; eexists w3, _;
             apply (broke_runner _ _ _ _ _ _ _ _ _ _ w1 w2 h (Ok u) Ho Hr); [discriminate | exact Hc]).
      left. eexists w3, _.
      exact (ran_degraded _ _ _ _ _ _ _ _ _ _ _ w1 w2 h msg u Ho Hr Hc eq_refl).
  - destruct result as [fs|e'].
    + right. exists w3, e.
      apply (broke_close _ _ _ _ _ _ _ _ _ _ w1 w2 h (Ok fs) Ho Hr); [discriminate | exact Hc].
    + destruct e' as [|m|msg|m|m];
        try (right; eexists w3, _;
             apply (broke_runner _ _ _ _ _ _ _ _ _ _ w1 w2 h (Raise e) Ho Hr); [discriminate | exact Hc]).
      right. exists w3, e.
      apply (broke_close _ _ _ _ _ _ _ _ _ _ w1 w2 h (Raise (RunnerInternalError msg)) Ho Hr);
        [|exact Hc].
      intros e' [= <-]. exists msg. reflexivity.
Qed.

(** The loop runs every test type to its end, or up to the first one that
    lets an exception out. *)
Lemma test_loop_cases base_url tys :
  forall w,
    (exists w' fs, ran_all base_url tys w w' fs)
    \/ (exists before ty rest w0 w1 fs e,
          tys = (before ++ ty :: rest)%list
          /\ ran_all base_url before w w0 fs
          /\ broke_one base_url ty w0 w1 e).
Proof.
  induction tys as [|ty tys IH]; intros w.
  - left. exists w, []. constructor.
  - destruct (one_test_type_cases base_url ty w) as [(w1 & fs & Hone)|(w1 & e & Hbroke)].
    + destruct (IH w1) as [(w' & fs' & Hall)|(before & ty' & rest & w0 & w2 & fs' & e & -> & Hall & Hb)].
      * left. exists w', (fs ++ fs')%list. econstructor; eassumption.
      * right. exists (ty :: before), ty', rest, w0, w2, (fs ++ fs')%list, e.
        split; [reflexivity|]. split; [econstructor; eassumption | exact Hb].
    + right. exists [], ty, tys, w, w1, [], e.
      split; [reflexivity|]. split; [constructor | exact Hbroke].
Qed.

(** What the suite leaves behind, by the outcome of the test loop. *)
Lemma suite_world_and_reports eid project_id base_url test_types w st :
  let result := run_complete_qa_suite eid project_id base_url test_types w st in
  result.1.1 = (run_tests base_url test_types w [] 0).1
  /\ reports result.1.2
     = match (run_tests base_url test_types w [] 0).2 with
       | Ok (fs, ran) =>
           (reports st ++ classify description_hash fatal_patterns narrative fs eid)%list
       | Raise e => reports st
       end.
Proof.
  unfold Orchestrator.run_complete_qa_suite.
  destruct (run_tests base_url test_types w [] 0) as [w' [[fs ran]|e]]; simpl;
    match goal with
    | |- context [find_execution ?a ?b] => destruct (find_execution a b)
    end; split; reflexivity.
Qed.

(** C3: every invocation of run_complete_qa_suite returns an Execution and
    raises nothing; the Execution it created has reached exactly one
    terminal status, completed or failed, when the call returns: its status
    log is [running] followed by that one status, so running does not
    persist. When every test type runs to its end the status is completed,
    all test types are counted and the bug reports are flushed. When a test
    type lets an exception out, the first or any later one (its session
    fails to open or close, or its runner raises an exception that is not
    absorbed as a finding), the status is failed, that exception is the
    recorded cause, and nothing is flushed. One of the two always holds. *)
Theorem suite_reaches_one_terminal_status
    (eid project_id base_url : string) (test_types : list test_type) (w : W) (st : Store) :
  (eid ∉ map e_id (executions st)) ->
  (forall s, (eid, s) ∉ status_log st) ->
  let result := run_complete_qa_suite eid project_id base_url test_types w st in
  exists ex,
    result.2 = Ok ex
    /\ e_id ex = eid
    /\ find_execution eid result.1.2 = Some ex
    /\ (e_status ex = completed \/ e_status ex = failed)
    /\ statuses_of eid result.1.2 = [ running; e_status ex ]
    /\ (forall w' fs,
          ran_all base_url test_types w w' fs ->
          e_status ex = completed /\ e_error ex = None
          /\ e_total_tests ex = length test_types
          /\ result.1.1 = w'
          /\ reports result.1.2
             = (reports st ++ classify description_hash fatal_patterns narrative fs eid)%list)
    /\ (forall before ty rest w0 w1 fs e,
          test_types = (before ++ ty :: rest)%list ->
          ran_all base_url before w w0 fs ->
          broke_one base_url ty w0 w1 e ->
          e_status ex = failed /\ e_error ex = Some e
          /\ result.1.1 = w1
          /\ reports result.1.2 = reports st)
    /\ ((exists w' fs, ran_all base_url test_types w w' fs)
        \/ (exists before ty rest w0 w1 fs e,
              test_types = (before ++ ty :: rest)%list
              /\ ran_all base_url before w w0 fs
              /\ broke_one base_url ty w0 w1 e)).
Proof.
  intros Hfresh Hlog result.
  destruct (suite_store eid project_id base_url test_types w st Hfresh Hlog)
    as (Hres & Hfind & Hlogs).
  destruct (suite_world_and_reports eid project_id base_url test_types w st) as [Hw Hrep].
  fold result in Hres, Hfind, Hlogs, Hw, Hrep.
  eexists. split; [exact Hres|]. split; [reflexivity|]. split; [exact Hfind|].
  split; [|split; [|split; [|split]]]; cbn [e_status e_error e_total_tests].
  - destruct (run_tests base_url test_types w [] 0).2 as [[fs ran]|e]; simpl; tauto.
  - exact Hlogs.
  - intros w' fs Hall.
    pose proof (run_tests_ran_all base_url test_types w w' fs Hall [] [] 0%nat) as Hrun.
    rewrite app_nil_r in Hrun. simpl in Hrun.
    rewrite Hw, Hrep, Hrun. simpl. repeat split; reflexivity.
  - intros before ty rest w0 w1 fs e -> Hall Hbroke.
    pose proof (run_tests_ran_all base_url before w w0 fs Hall (ty :: rest) [] 0%nat) as Hrun.
    rewrite (run_tests_broke_one base_url ty rest w0 w1 e _ _ Hbroke) in Hrun.
    rewrite Hw, Hrep, Hrun. simpl. repeat split; reflexivity.
  - apply test_loop_cases.
Qed.

End Suite.


Lemma suite_reaches_one_terminal_status_witness :
  exists ex,
    (run_complete_qa_suite nat nat sample_open_session sample_run_runner sample_close_session
       sample_internal_error_finding BrokenLinks.sample_hash [] BrokenLinks.sample_narrative
       "exec-1" "project-1" "https://example.com"
       [ Functional; Accessibility; Performance; FormValidation ] O empty_store).2 = Ok ex
    /\ e_status ex = failed /\ e_error ex = Some NavigationTimeout.
Proof.
  destruct (suite_reaches_one_terminal_status nat nat sample_open_session sample_run_runner
              sample_close_session sample_internal_error_finding BrokenLinks.sample_hash []
              BrokenLinks.sample_narrative
              "exec-1" "project-1" "https://example.com"
              [ Functional; Accessibility; Performance; FormValidation ] O empty_store)
    as (ex & Hres & _ & _ & _ & _ & _ & Hraise & _).
  - apply not_elem_of_nil.
  - intros s. apply not_elem_of_nil.
  - exists ex. split; [exact Hres|].
    destruct (Hraise [ Functional; Accessibility ] Performance [ FormValidation ]
                2%nat 3%nat
                ([] ++ [ sample_internal_error_finding Accessibility "https://example.com"
                           "DOM query failed" ] ++ [])%list
                NavigationTimeout) as (Hs & He & _).
    + reflexivity.
    + eapply ran_cons; [eapply ran_findings; reflexivity|].
      eapply ran_cons; [eapply ran_degraded; reflexivity|]. apply ran_nil.
    + eapply broke_runner; [reflexivity | reflexivity | discriminate | reflexivity].
    + split; [exact Hs | exact He].
Defined.

End OrchestratorFacts.

(** ** The scheduler *)

Module SchedulerFacts.
Import Scheduler.

#[local] Open Scope Z_scope.

Lemma parse_every_30_minutes : parse_cron "*/30 * * * *" = Some every_30_minutes.
Proof. vm_compute. reflexivity. Qed.

(** The expressions of the setup guide parse; four fields do not. *)
Example parse_daily_at_nine :
  parse_cron "0 9 * * *"
  = Some {| c_minute := Exactly 0; c_hour := Exactly 9; c_day := Any; c_month := Any;
            c_weekday := Any |}.
Proof. vm_compute. reflexivity. Qed.

Example parse_every_four_hours :
  parse_cron "0 */4 * * *"
  = Some {| c_minute := Exactly 0; c_hour := Every 4; c_day := Any; c_month := Any;
            c_weekday := Any |}.
Proof. vm_compute. reflexivity. Qed.

Example parse_four_fields : parse_cron "0 0 * 1" = None.
Proof. vm_compute. reflexivity. Qed.

(** Day 0 is Thursday 1970-01-01; day 19782 is 2024-02-29. *)
Example calendar_epoch : month_day_of_days 0 = (1, 1) /\ weekday_of 0 = 4.
Proof. vm_compute. split; reflexivity. Qed.

Example calendar_leap_day : month_day_of_days 19782 = (2, 29).
Proof. vm_compute. reflexivity. Qed.

(** After 12:00 on day 20000, "daily at nine" next fires at 09:00 on day
    20001, and "weekly on Monday at midnight" on day 20003, a Monday. *)
Example next_run_daily_at_nine :
  compute_next_run "0 9 * * *" (noon 20000) = Some (20001 * 1440 + 9 * 60).
Proof. vm_compute. reflexivity. Qed.

Example next_run_weekly :
  compute_next_run "0 0 * * 1" (noon 20000) = Some (20003 * 1440)
  /\ weekday_of (20003 * 1440) = 1.
Proof. vm_compute. split; reflexivity. Qed.

Lemma matches_every_30_minutes t :
  matches every_30_minutes t = bool_decide ((t mod 60) mod 30 = 0).
Proof.
  unfold matches. destruct (month_day_of_days (days_of t)) as [m d].
  unfold every_30_minutes, weekday_matches, field_matches, minute_of. simpl.
  rewrite Z.sub_0_r, !andb_true_r. reflexivity.
Qed.

(** The search returns the first admitted minute when it lies within the fuel. *)
Lemma first_match_finds c (k : nat) :
  forall (fuel : nat) (t : Z),
    (k < fuel)%nat ->
    (forall j, 0 <= j < Z.of_nat k -> matches c (t + j) = false) ->
    matches c (t + Z.of_nat k) = true ->
    first_match c fuel t = Some (t + Z.of_nat k).
Proof.
  induction k as [|k IH]; intros fuel t Hk Hbefore Hat; destruct fuel as [|fuel]; try lia; simpl.
  - rewrite Z.add_0_r in Hat. rewrite Hat. f_equal. lia.
  - pose proof (Hbefore 0) as H0. rewrite Z.add_0_r in H0. rewrite H0 by lia.
    replace (t + Z.of_nat (S k)) with ((t + 1) + Z.of_nat k) by lia.
    apply IH; [lia| |].
    + intros j Hj. replace (t + 1 + j) with (t + (j + 1)) by lia. apply Hbefore. lia.
    + replace (t + 1 + Z.of_nat k) with (t + Z.of_nat (S k)) by lia. exact Hat.
Qed.

(** From a minute that ["*/30 * * * *"] admits, the next fire is thirty
    minutes later. *)
Lemma next_run_half_hourly t :
  t mod 30 = 0 -> compute_next_run "*/30 * * * *" t = Some (t + 30).
Proof.
  intros Ht. unfold compute_next_run. rewrite parse_every_30_minutes.
  replace (t + 30) with ((t + 1) + Z.of_nat 29) by lia.
  apply first_match_finds.
  - unfold horizon. lia.
  - intros j Hj. rewrite matches_every_30_minutes. apply bool_decide_eq_false.
    intros H. revert H Ht. Z.div_mod_to_equations. lia.
  - rewrite matches_every_30_minutes. apply bool_decide_eq_true.
    revert Ht. Z.div_mod_to_equations. lia.
Qed.

Lemma noon_half_hour d : noon d mod 30 = 0 /\ (noon d + 30) mod 30 = 0.
Proof. unfold noon. split; Z.div_mod_to_equations; lia. Qed.

Lemma in_flight_add (p q : string) (running : gset string) :
  p ∈ running -> p ∈ ({[ q ]} ∪ running : gset string).
Proof. intros H. apply elem_of_union. right. exact H. Qed.

(** No invocation is started for a project that is in flight. *)
Lemma fire_due_not_invoked now schs :
  forall running p t, p ∈ running -> Invoked p t ∉ (fire_due now running schs).2.
Proof.
  induction schs as [|s schs IH]; intros running p t Hp; simpl; [apply not_elem_of_nil|].
  destruct (due now s); [destruct (decide (s_project_id s ∈ running)) as [Hs|Hs]|].
  - specialize (IH running p t Hp).
    destruct (fire_due now running schs) as [[schs' running'] evs]. simpl in *.
    apply not_elem_of_cons. split; [discriminate | exact IH].
  - specialize (IH ({[ s_project_id s ]} ∪ running) p t (in_flight_add _ _ _ Hp)).
    destruct (fire_due now ({[ s_project_id s ]} ∪ running) schs) as [[schs' running'] evs].
    simpl in *. apply not_elem_of_cons. split; [|exact IH].
    intros Heq. injection Heq as Heq _. apply Hs. rewrite <- Heq. exact Hp.
  - specialize (IH running p t Hp).
    destruct (fire_due now running schs) as [[schs' running'] evs]. exact IH.
Qed.

(** After the pass, the projects in flight are those that were, and those
    of the due schedules. *)
Lemma fire_due_running now schs :
  forall running p,
    p ∈ (fire_due now running schs).1.2
    <-> p ∈ running \/ exists s, s ∈ schs /\ due now s = true /\ s_project_id s = p.
Proof.
  induction schs as [|s schs IH]; intros running p; simpl.
  - split; [tauto|]. intros [H|(s & Hs & _)]; [exact H | inversion Hs].
  - destruct (due now s) eqn:Hdue; [destruct (decide (s_project_id s ∈ running)) as [Hs|Hs]|].
    + specialize (IH running p).
      destruct (fire_due now running schs) as [[schs' running'] evs]. simpl in *.
      rewrite IH. split.
      * intros [H|(s' & Hin & Hd & Hp)]; [tauto|]. right. exists s'.
        split; [right; exact Hin | tauto].
      * intros [H|(s' & Hin & Hd & Hp)]; [tauto|].
        apply elem_of_cons in Hin as [->|Hin]; [left; congruence|]. right. exists s'. tauto.
    + specialize (IH ({[ s_project_id s ]} ∪ running) p).
      destruct (fire_due now ({[ s_project_id s ]} ∪ running) schs) as [[schs' running'] evs].
      simpl in *. rewrite IH, elem_of_union, elem_of_singleton. split.
      * intros [[->|H]|(s' & Hin & Hd & Hp)]; [|tauto|].
        -- right. exists s. split; [left | tauto].
        -- right. exists s'. split; [right; exact Hin | tauto].
      * intros [H|(s' & Hin & Hd & Hp)]; [tauto|].
        apply elem_of_cons in Hin as [->|Hin]; [left; left; congruence|]. right. exists s'. tauto.
    + specialize (IH running p).
      destruct (fire_due now running schs) as [[schs' running'] evs]. simpl in *.
      rewrite IH. split.
      * intros [H|(s' & Hin & Hd & Hp)]; [tauto|]. right. exists s'.
        split; [right; exact Hin | tauto].
      * intros [H|(s' & Hin & Hd & Hp)]; [tauto|].
        apply elem_of_cons in Hin as [->|Hin]; [congruence|]. right. exists s'. tauto.
Qed.

(** The project of a schedule is taken after an earlier schedule [s0] when
    it is taken in the set of projects that the pass carries on past
    [s0]. *)
Lemma taken_cons now running s0 earlier s :
  taken now running (s0 :: earlier) s
  <-> taken now (if due now s0 then {[ s_project_id s0 ]} ∪ running else running) earlier s.
Proof.
  unfold taken. destruct (due now s0) eqn:Hdue.
  - rewrite elem_of_union, elem_of_singleton. split.
    + intros [H|(s' & Hin & Hd & Hp)]; [tauto|].
      apply elem_of_cons in Hin as [->|Hin]; [left; left; congruence|].
      right. exists s'. tauto.
    + intros [[H|H]|(s' & Hin & Hd & Hp)]; [|tauto|].
      * right. exists s0. split; [left | split; [exact Hdue | congruence]].
      * right. exists s'. split; [right; exact Hin | tauto].
  - split.
    + intros [H|(s' & Hin & Hd & Hp)]; [tauto|].
      apply elem_of_cons in Hin as [->|Hin]; [congruence|]. right. exists s'. tauto.
    + intros [H|(s' & Hin & Hd & Hp)]; [tauto|]. right. exists s'.
      split; [right; exact Hin | tauto].
Qed.

Lemma taken_nil now running s : taken now running [] s <-> s_project_id s ∈ running.
Proof.
  unfold taken. split; [|tauto]. intros [H|(s' & Hin & _)]; [exact H | inversion Hin].
Qed.

(** An earlier schedule whose project is in flight already takes nothing
    more. *)
Lemma taken_in_flight now running s0 earlier s :
  s_project_id s0 ∈ running ->
  taken now running (s0 :: earlier) s <-> taken now running earlier s.
Proof.
  intros Hs0. rewrite taken_cons. destruct (due now s0); [|tauto].
  unfold taken. rewrite elem_of_union, elem_of_singleton. split.
  - intros [[H|H]|H]; [left; congruence | tauto | tauto].
  - tauto.
Qed.

(** What one pass does with the schedule at position [i]: one that is not
    due is left as it is; a due one fires when its project is not taken,
    and is skipped when it is; the log says which. *)
Lemma fire_due_lookup now schs :
  forall running i s,
    schs !! i = Some s ->
    (due now s = false -> (fire_due now running schs).1.1 !! i = Some s)
    /\ (due now s = true -> taken now running (take i schs) s ->
          (fire_due now running schs).1.1 !! i = Some (skipped now s)
          /\ (SchedulerSkipped (s_project_id s) now ∈ (fire_due now running schs).2))
    /\ (due now s = true -> ~ taken now running (take i schs) s ->
          (fire_due now running schs).1.1 !! i = Some (fired now s)
          /\ (Invoked (s_project_id s) now ∈ (fire_due now running schs).2)).
Proof.
  induction schs as [|s0 schs IH]; intros running i s Hi; [discriminate|].
  destruct i as [|i]; simpl in Hi.
  - injection Hi as ->. simpl. rewrite taken_nil.
    destruct (due now s) eqn:Hdue; [destruct (decide (s_project_id s ∈ running)) as [Hs|Hs]|].
    + destruct (fire_due now running schs) as [[schs' running'] evs]. simpl.
      split; [discriminate|]. split; [|tauto]. intros _ _. split; [reflexivity | left].
    + destruct (fire_due now ({[ s_project_id s ]} ∪ running) schs) as [[schs' running'] evs].
      simpl. split; [discriminate|]. split; [tauto|]. intros _ _. split; [reflexivity | left].
    + destruct (fire_due now running schs) as [[schs' running'] evs]. simpl.
      split; [reflexivity|]. split; discriminate.
  - change (take (S i) (s0 :: schs)) with (s0 :: take i schs). rewrite taken_cons. simpl.
    destruct (due now s0) eqn:Hdue0; [destruct (decide (s_project_id s0 ∈ running)) as [Hs0|Hs0]|].
    + specialize (IH running i s Hi).
      assert (Hsame : taken now ({[ s_project_id s0 ]} ∪ running) (take i schs) s
                      <-> taken now running (take i schs) s).
      { rewrite <- (taken_in_flight now running s0 (take i schs) s Hs0), taken_cons, Hdue0.
        tauto. }
      rewrite Hsame.
      destruct (fire_due now running schs) as [[schs' running'] evs]. simpl in *.
      destruct IH as (IH1 & IH2 & IH3).
      split; [exact IH1|]. split.
      * intros Hd Ht. destruct (IH2 Hd Ht). split; [assumption | right; assumption].
      * intros Hd Ht. destruct (IH3 Hd Ht). split; [assumption | right; assumption].
    + specialize (IH ({[ s_project_id s0 ]} ∪ running) i s Hi).
      destruct (fire_due now ({[ s_project_id s0 ]} ∪ running) schs) as [[schs' running'] evs].
      simpl in *. destruct IH as (IH1 & IH2 & IH3).
      split; [exact IH1|]. split.
      * intros Hd Ht. destruct (IH2 Hd Ht). split; [assumption | right; assumption].
      * intros Hd Ht. destruct (IH3 Hd Ht). split; [assumption | right; assumption].
    + specialize (IH running i s Hi).
      destruct (fire_due now running schs) as [[schs' running'] evs]. simpl in *. exact IH.
Qed.

(** Every invocation a pass starts is that of a schedule of the list that is
    due at this very tick and fires: the log holds no invocation of an
    earlier, missed fire. *)
Lemma fire_due_invoked now schs :
  forall running p t,
    Invoked p t ∈ (fire_due now running schs).2 ->
    t = now
    /\ exists i s, schs !! i = Some s /\ s_project_id s = p /\ due now s = true
                   /\ ~ taken now running (take i schs) s.
Proof.
  induction schs as [|s0 schs IH]; intros running p t Hin; simpl in Hin; [inversion Hin|].
  destruct (due now s0) eqn:Hdue0; [destruct (decide (s_project_id s0 ∈ running)) as [Hs0|Hs0]|].
  - specialize (IH running p t).
    destruct (fire_due now running schs) as [[schs' running'] evs]. simpl in *.
    apply elem_of_cons in Hin as [Hin|Hin]; [discriminate|].
    destruct (IH Hin) as (-> & i & s & Hi & Hp & Hd & Ht). split; [reflexivity|].
    exists (S i), s. split; [exact Hi|]. split; [exact Hp|]. split; [exact Hd|].
    change (take (S i) (s0 :: schs)) with (s0 :: take i schs).
    rewrite (taken_in_flight now running s0 (take i schs) s Hs0). exact Ht.
  - specialize (IH ({[ s_project_id s0 ]} ∪ running) p t).
    destruct (fire_due now ({[ s_project_id s0 ]} ∪ running) schs) as [[schs' running'] evs].
    simpl in *. apply elem_of_cons in Hin as [Hin|Hin].
    + injection Hin as -> ->. split; [reflexivity|]. exists O, s0.
      split; [reflexivity|]. split; [reflexivity|]. split; [exact Hdue0|].
      simpl. rewrite taken_nil. exact Hs0.
    + destruct (IH Hin) as (-> & i & s & Hi & Hp & Hd & Ht). split; [reflexivity|].
      exists (S i), s. split; [exact Hi|]. split; [exact Hp|]. split; [exact Hd|].
      change (take (S i) (s0 :: schs)) with (s0 :: take i schs).
      rewrite taken_cons, Hdue0. exact Ht.
  - specialize (IH running p t).
    destruct (fire_due now running schs) as [[schs' running'] evs]. simpl in *.
    destruct (IH Hin) as (-> & i & s & Hi & Hp & Hd & Ht). split; [reflexivity|].
    exists (S i), s. split; [exact Hi|]. split; [exact Hp|]. split; [exact Hd|].
    change (take (S i) (s0 :: schs)) with (s0 :: take i schs).
    rewrite taken_cons, Hdue0. exact Ht.
Qed.

Lemma tick_schedules now st : schedules (tick now st) = (fire_due now (in_flight st) (schedules st)).1.1.
Proof. unfold tick. destruct (fire_due _ _ _) as [[schs' running'] evs]. reflexivity. Qed.

Lemma tick_in_flight now st : in_flight (tick now st) = (fire_due now (in_flight st) (schedules st)).1.2.
Proof. unfold tick. destruct (fire_due _ _ _) as [[schs' running'] evs]. reflexivity. Qed.

Lemma due_before_next_run t s n :
  s_next_run s = Some n -> t < n -> due t s = false.
Proof.
  intros Hn Ht. unfold due. rewrite Hn. apply andb_false_iff. right.
  apply bool_decide_eq_false. lia.
Qed.

(** C7: a Schedule with cron expression */30 * * * * that fires at 12:00 (it
    is due, and no invocation for its project is running when the tick
    reaches it) gets next_run 12:30 and last_run 12:00, and its invocation
    is started. If that invocation is still running at the tick of 12:30,
    the Schedule is skipped: no invocation is started, the skip is logged,
    last_run stays 12:00 and next_run becomes 13:00. The skipped run is not
    queued: whatever happens before 13:00, the invocation finishing
    included, no tick fires the Schedule again. At any tick, a Schedule
    whose project has an invocation running keeps its last_run and starts
    no invocation; a due Schedule fires exactly when its project is not
    taken and is skipped otherwise; and every invocation a tick starts is
    that of a Schedule that is due and fires at this very tick. *)
Theorem half_hourly_schedule_fires_and_skips (st : State) (i : nat) (sch : Schedule) (d : Z) :
  schedules st !! i = Some sch ->
  s_cron_expression sch = "*/30 * * * *" ->
  due (noon d) sch = true ->
  ~ taken (noon d) (in_flight st) (take i (schedules st)) sch ->
  let st1 := tick (noon d) st in
  let sch1 := fired (noon d) sch in
  let sch2 := skipped (noon d + 30) sch1 in
  (schedules st1 !! i = Some sch1
   /\ s_next_run sch1 = Some (noon d + 30)
   /\ s_last_run sch1 = Some (noon d)
   /\ (Invoked (s_project_id sch) (noon d) ∈ tick_events (noon d) st)
   /\ (s_project_id sch ∈ in_flight st1))
  /\ (forall st2 : State,
        schedules st2 !! i = Some sch1 ->
        s_project_id sch ∈ in_flight st2 ->
        schedules (tick (noon d + 30) st2) !! i = Some sch2
        /\ s_last_run sch2 = Some (noon d)
        /\ s_next_run sch2 = Some (noon d + 60)
        /\ (forall t, Invoked (s_project_id sch) t ∉ tick_events (noon d + 30) st2)
        /\ (SchedulerSkipped (s_project_id sch) (noon d + 30) ∈ tick_events (noon d + 30) st2))
  /\ (forall (st3 : State) (t : Z),
        schedules st3 !! i = Some sch2 ->
        t < noon d + 60 ->
        schedules (tick t st3) !! i = Some sch2)
  /\ (forall (t : Z) (st' : State) (k : nat) (s : Schedule),
        schedules st' !! k = Some s ->
        s_project_id s ∈ in_flight st' ->
        exists s',
          schedules (tick t st') !! k = Some s'
          /\ s_last_run s' = s_last_run s
          /\ (forall t', Invoked (s_project_id s) t' ∉ tick_events t st')
          /\ (due t s = true ->
                s' = skipped t s /\ SchedulerSkipped (s_project_id s) t ∈ tick_events t st')
          /\ (due t s = false -> s' = s))
  /\ (forall (t : Z) (st' : State) (k : nat) (s : Schedule),
        schedules st' !! k = Some s ->
        due t s = true ->
        (~ taken t (in_flight st') (take k (schedules st')) s ->
           schedules (tick t st') !! k = Some (fired t s)
           /\ Invoked (s_project_id s) t ∈ tick_events t st')
        /\ (taken t (in_flight st') (take k (schedules st')) s ->
              schedules (tick t st') !! k = Some (skipped t s)
              /\ SchedulerSkipped (s_project_id s) t ∈ tick_events t st'))
  /\ (forall (t t' : Z) (st' : State) (p : string),
        Invoked p t' ∈ tick_events t st' ->
        t' = t
        /\ exists k s,
             schedules st' !! k = Some s /\ s_project_id s = p /\ due t s = true
             /\ schedules (tick t st') !! k = Some (fired t s)).
Proof.
  intros Hi Hcron Hdue Hfree st1 sch1 sch2.
  destruct (noon_half_hour d) as [Hnoon Hhalf].
  assert (Hnext1 : s_next_run sch1 = Some (noon d + 30))
    by (unfold sch1; simpl; rewrite Hcron; apply next_run_half_hourly; exact Hnoon).
  assert (Hnext2 : s_next_run sch2 = Some (noon d + 60)).
  { unfold sch2, sch1. simpl. rewrite Hcron, (next_run_half_hourly _ Hhalf). f_equal. lia. }
  assert (Hen : s_enabled sch = true)
    by (unfold due in Hdue; apply andb_true_iff in Hdue as [H _]; exact H).
  split; [|split; [|split; [|split; [|split]]]].
  - destruct (fire_due_lookup (noon d) (schedules st) (in_flight st) i sch Hi)
      as (_ & _ & Hfires).
    destruct (Hfires Hdue Hfree) as [Hat Hinv].
    split; [unfold st1; rewrite tick_schedules; exact Hat|].
    split; [exact Hnext1|]. split; [reflexivity|]. split; [exact Hinv|].
    unfold st1. rewrite tick_in_flight. apply fire_due_running. right.
    exists sch. split; [|tauto]. apply (list_elem_of_lookup_2 _ i). exact Hi.
  - intros st2 Hi2 Hfl.
    assert (Hdue1 : due (noon d + 30) sch1 = true).
    { unfold due. rewrite Hnext1. unfold sch1. simpl. rewrite Hen. simpl.
      apply bool_decide_eq_true. lia. }
    destruct (fire_due_lookup (noon d + 30) (schedules st2) (in_flight st2) i sch1 Hi2)
      as (_ & Hskips & _).
    destruct (Hskips Hdue1) as [Hat Hlog]; [left; exact Hfl|].
    split; [rewrite tick_schedules; exact Hat|].
    split; [reflexivity|]. split; [exact Hnext2|].
    split; [intros t; apply fire_due_not_invoked; exact Hfl | exact Hlog].
  - intros st3 t Hi3 Ht.
    destruct (fire_due_lookup t (schedules st3) (in_flight st3) i sch2 Hi3) as (Hidle & _).
    rewrite tick_schedules. apply Hidle. exact (due_before_next_run t sch2 _ Hnext2 Ht).
  - intros t st' k s Hk Hs.
    destruct (fire_due_lookup t (schedules st') (in_flight st') k s Hk)
      as (Hidle & Hskips & _).
    destruct (due t s) eqn:Hd.
    + destruct (Hskips eq_refl) as [Hat Hlog]; [left; exact Hs|].
      exists (skipped t s). split; [rewrite tick_schedules; exact Hat|].
      split; [reflexivity|].
      split; [intros t'; apply fire_due_not_invoked; exact Hs|].
      split; [intros _; split; [reflexivity | exact Hlog] | discriminate].
    + exists s. split; [rewrite tick_schedules; apply Hidle; reflexivity|].
      split; [reflexivity|].
      split; [intros t'; apply fire_due_not_invoked; exact Hs|].
      split; [discriminate | reflexivity].
  - intros t st' k s Hk Hd.
    destruct (fire_due_lookup t (schedules st') (in_flight st') k s Hk)
      as (_ & Hskips & Hfires).
    rewrite tick_schedules. split; [exact (Hfires Hd) | exact (Hskips Hd)].
  - intros t t' st' p Hin.
    destruct (fire_due_invoked t (schedules st') (in_flight st') p t' Hin)
      as (-> & k & s & Hk & Hp & Hd & Ht).
    split; [reflexivity|]. exists k, s.
    split; [exact Hk|]. split; [exact Hp|]. split; [exact Hd|].
    destruct (fire_due_lookup t (schedules st') (in_flight st') k s Hk) as (_ & _ & Hfires).
    rewrite tick_schedules. apply (Hfires Hd Ht).
Qed.

Lemma half_hourly_schedule_fires_and_skips_witness :
  let sch1 := fired (noon 20000) sample_schedule in
  schedules (tick (noon 20000) sample_state) !! O = Some sch1
  /\ s_next_run sch1 = Some (noon 20000 + 30)
  /\ s_last_run sch1 = Some (noon 20000).
Proof.
  intros sch1.
  destruct (half_hourly_schedule_fires_and_skips sample_state O sample_schedule 20000)
    as [(H1 & H2 & H3 & _) _].
  - reflexivity.
  - reflexivity.
  - vm_compute. reflexivity.
  - intros [H|(s' & H & _)]; [exact (not_elem_of_empty _ H) | inversion H].
  - split; [exact H1|]. split; [exact H2 | exact H3].
Defined.

End SchedulerFacts.

(** ** All three request endpoints *)

Module EndpointFacts.
Import Json Http Responses Endpoints.

#[local] Open Scope Z_scope.

(** Splits a handler into its branches. *)
Ltac handler_cases :=
  repeat match goal with
    | |- context [decide (?a = ?b)] => destruct (decide (a = b))
    | |- context [json_body ?r] => destruct (json_body r) as [[]|] eqn:?
    | |- context [truthy_opt ?o] => destruct (truthy_opt o) eqn:?
    | |- context [truthy_nullable ?o] => destruct (truthy_nullable o) eqn:?
    | _ => progress simpl
    end.

Ltac unfold_handlers :=
  unfold QaTestRunner.serve, QaTestRunner.try_body,
    ReportGenerator.serve, ReportGenerator.try_body,
    BugReportQuery.serve, BugReportQuery.try_body.

Lemma handlers_elem serve :
  serve ∈ handlers ->
  serve = QaTestRunner.serve \/ serve = ReportGenerator.serve \/ serve = BugReportQuery.serve.
Proof.
  unfold handlers. rewrite !elem_of_cons, elem_of_nil. tauto.
Qed.

(** X1: Every response of every handler carries the CORS headers. The answer to
    OPTIONS is status 200 with no body; every other response has a JSON body
    and the content type application/json. *)
Theorem cors_on_every_response serve now req :
  serve ∈ handlers ->
  (forall h, h ∈ corsHeaders -> h ∈ headers (serve now req))
  /\ (method req = "OPTIONS" -> serve now req = options_response)
  /\ (method req <> "OPTIONS" ->
        headers (serve now req) = jsonHeaders
        /\ header "Content-Type" (serve now req) = Some "application/json"
        /\ is_Some (body (serve now req))).
Proof.
  intros Hs.
  assert (Hshape : (method req = "OPTIONS" /\ serve now req = options_response)
                   \/ (method req <> "OPTIONS" /\ exists st v, serve now req = json_response st v)).
  { apply handlers_elem in Hs as [ -> | [ -> | -> ] ]; unfold_handlers;
      handler_cases; (left; split; [assumption | reflexivity])
                     || (right; split; [assumption | eexists _, _; reflexivity]). }
  destruct Hshape as [[Hm ->]|[Hm (st & v & ->)]].
  - split; [intros h Hh; exact Hh|]. split; [reflexivity | contradiction].
  - split; [|split; [contradiction|]].
    + intros h Hh. simpl. unfold jsonHeaders. apply elem_of_app. left. exact Hh.
    + intros _. split; [reflexivity|]. split; [reflexivity | eexists; reflexivity].
Qed.

Lemma cors_on_every_response_witness :
  header "Content-Type"
    (ReportGenerator.serve "2024-01-01T12:00:00.000Z"
       (mkRequest "POST" []
          (Normal (JObj [ ("execution_id", JStr "exec-123"); ("format", JStr "html") ]))))
  = Some "application/json".
Proof.
  apply (cors_on_every_response ReportGenerator.serve "2024-01-01T12:00:00.000Z"
           (mkRequest "POST" []
              (Normal (JObj [ ("execution_id", JStr "exec-123"); ("format", JStr "html") ])))).
  - unfold handlers. apply list_elem_of_further, list_elem_of_here.
  - discriminate.
Defined.

(** X2: Every handler answers with one of five statuses, and the body has an
    [error] field exactly when the status is 400 or more. *)
Theorem error_field_iff_error_status serve now req :
  serve ∈ handlers ->
  (status (serve now req) ∈ statuses)
  /\ (is_Some (body_field "error" (serve now req)) <-> 400 <= status (serve now req)).
Proof.
  intros Hs. unfold statuses, body_field.
  apply handlers_elem in Hs as [ -> | [ -> | -> ] ]; unfold_handlers;
    handler_cases;
    (split; [ rewrite !elem_of_cons; tauto
            | split; [ intros [? Hx]; first [discriminate Hx | lia]
                     | intros Hle; first [lia | eexists; reflexivity] ] ]).
Qed.

Lemma error_field_iff_error_status_witness :
  is_Some (body_field "error"
             (BugReportQuery.serve "2024-01-01T12:00:00.000Z"
                (mkRequest "DELETE" [] (Normal JNull))))
  <-> 400 <= status (BugReportQuery.serve "2024-01-01T12:00:00.000Z"
                       (mkRequest "DELETE" [] (Normal JNull))).
Proof.
  apply (error_field_iff_error_status BugReportQuery.serve).
  unfold handlers. apply list_elem_of_further, list_elem_of_further, list_elem_of_here.
Defined.


Ltac close_dispatch :=
  unfold unreadable_body;
  rewrite ?elem_of_cons, ?elem_of_nil;
  repeat split; intros;
  repeat match goal with
    | H : _ /\ _ |- _ => destruct H
    | H : _ \/ _ |- _ => destruct H
    | H : exists _, _ |- _ => destruct H
    end;
  try discriminate; try congruence; try tauto;
  try (left; eauto; fail); try (right; eauto; fail);
  try (simplify_eq; reflexivity);
  try (eexists; reflexivity).

(** X3: The qa-test-runner handler answers 405 exactly to the methods other than
    OPTIONS, POST and GET, and 500 exactly to a POST whose body is not JSON
    or is [null]; only a POST is answered 202, and a GET or OPTIONS request
    is never answered 500 or 202. *)
Theorem qa_test_runner_dispatch now req :
  let r := QaTestRunner.serve now req in
  (status r = 405 <-> method req ∉ [ "OPTIONS"; "POST"; "GET" ])
  /\ (status r = 500 <-> method req = "POST" /\ unreadable_body req)
  /\ (status r = 202 -> method req = "POST")
  /\ (status r = 200 -> method req = "OPTIONS" \/ method req = "GET").
Proof.
  unfold_handlers. handler_cases; close_dispatch.
Qed.

(** X4: The report-generator handler serves POST only: it answers 405 to every
    method other than OPTIONS and POST (GET included), 500 exactly to a POST
    whose body is not JSON or is [null], and 200 only to OPTIONS. *)
Theorem report_generator_dispatch now req :
  let r := ReportGenerator.serve now req in
  (status r = 405 <-> method req ∉ [ "OPTIONS"; "POST" ])
  /\ (status r = 500 <-> method req = "POST" /\ unreadable_body req)
  /\ (status r = 200 <-> method req = "OPTIONS")
  /\ (method req = "GET" -> status r = 405).
Proof.
  unfold_handlers. handler_cases; close_dispatch.
Qed.

(** X5: The bug-report-query handler answers 405 exactly to the methods other
    than OPTIONS, GET and POST. A POST is never validated: whatever JSON
    value its body holds, [null] included, the answer is 200 with that value
    under [query], as [JSON.stringify] writes it (so unchanged, unless it
    holds a number that is not finite or a negative zero); a POST is
    answered 500 exactly when its body is not JSON, and never 400. *)
Theorem bug_report_query_dispatch now req :
  let r := BugReportQuery.serve now req in
  (status r = 405 <-> method req ∉ [ "OPTIONS"; "GET"; "POST" ])
  /\ (status r = 500 <-> method req = "POST" /\ exists e, json_body req = Throw e)
  /\ (forall payload, method req = "POST" -> json_body req = Normal payload ->
        status r = 200
        /\ body_field "query" r = Some (stringify payload)
        /\ (stringify payload = payload -> body_field "query" r = Some payload)
        /\ body_field "status" r = Some (JStr "received")
        /\ body_field "timestamp" r = Some (JStr now))
  /\ (method req = "POST" -> status r <> 400).
Proof.
  unfold_handlers. handler_cases; close_dispatch;
    simplify_eq; unfold body_field; simpl in *; congruence.
Qed.


(** *** The GET branch of qa-test-runner *)



(** *** The GET branch of bug-report-query *)

Lemma stringify_of_nullable o : stringify (of_nullable o) = of_nullable o.
Proof. destruct o; reflexivity. Qed.

(** X7: An accepted GET to bug-report-query is answered with the three filters
    it reads, each as the first value given or [null]; the severity is
    echoed whatever it is. Nothing else of the request counts: requests that
    agree on execution_id, project_id and severity get the same response,
    whatever their other parameters (status included), their body and the
    time. *)
Theorem bug_report_query_get_echo now req :
  method req = "GET" ->
  BugReportQuery.has_value "execution_id" req \/ BugReportQuery.has_value "project_id" req ->
  let r := BugReportQuery.serve now req in
  let param name := searchParams_get name (searchParams req) in
  body_field "query" r
  = Some (JObj [ ("execution_id", of_nullable (param "execution_id"));
                 ("project_id", of_nullable (param "project_id"));
                 ("severity", of_nullable (param "severity")) ])
  /\ (forall s, param "severity" = Some s ->
        exists q, body_field "query" r = Some q /\ own_prop q "severity" = Some (JStr s))
  /\ (forall now' req', method req' = "GET" ->
        (forall name, name ∈ [ "execution_id"; "project_id"; "severity" ] ->
           searchParams_get name (searchParams req') = param name) ->
        BugReportQuery.serve now' req' = r).
Proof.
  intros Hm Hv r param.
  assert (Hr : forall t q, method q = "GET" ->
            BugReportQuery.serve t q =
            if negb (truthy_nullable (searchParams_get "execution_id" (searchParams q)))
               && negb (truthy_nullable (searchParams_get "project_id" (searchParams q)))
            then json_response 400 BugReportQuery.missing_parameter
            else json_response 200
                   (JObj [ ("query",
                            JObj [ ("execution_id", of_nullable (searchParams_get "execution_id" (searchParams q)));
                                   ("project_id", of_nullable (searchParams_get "project_id" (searchParams q)));
                                   ("severity", of_nullable (searchParams_get "severity" (searchParams q))) ]);
                           ("message", JStr "Query bug reports using the database directly");
                           ("example", JStr "GET /functions/v1/bug-report-query?execution_id=<id>&severity=critical") ])).
  { intros t q Hq. unfold BugReportQuery.serve, BugReportQuery.try_body. rewrite Hq. simpl.
    destruct (negb _ && negb _); reflexivity. }
  assert (Hok : negb (truthy_nullable (param "execution_id"))
                && negb (truthy_nullable (param "project_id")) = false).
  { apply andb_false_iff.
    destruct Hv as [Hv|Hv]; [left|right]; apply negb_false_iff;
      apply BugReportQueryFacts.truthy_nullable_spec; exact Hv. }
  subst r. rewrite (Hr now req Hm). fold (param "execution_id") (param "project_id").
  rewrite Hok. split; [|split].
  - unfold body_field. simpl. rewrite !stringify_of_nullable. reflexivity.
  - intros s Hs. eexists. split; [reflexivity|].
    simpl. fold (param "severity"). rewrite Hs. reflexivity.
  - intros now' req' Hm' Hsame. rewrite (Hr now' req' Hm').
    rewrite !Hsame by (rewrite !elem_of_cons; tauto).
    rewrite Hok. reflexivity.
Qed.

Lemma bug_report_query_get_echo_witness :
  exists q,
    body_field "query"
      (BugReportQuery.serve "2024-01-01T12:00:00.000Z"
         (mkRequest "GET" [ ("project_id", "project-123"); ("severity", "urgent");
                            ("status", "open") ] (Normal JNull))) = Some q
    /\ own_prop q "severity" = Some (JStr "urgent").
Proof.
  destruct (bug_report_query_get_echo "2024-01-01T12:00:00.000Z"
              (mkRequest "GET" [ ("project_id", "project-123"); ("severity", "urgent");
                                 ("status", "open") ] (Normal JNull)))
    as (_ & Hsev & _).
  - reflexivity.
  - right. exists "project-123". split; [reflexivity | discriminate].
  - apply Hsev. reflexivity.
Defined.

(** *** The POST branch of report-generator *)

Lemma report_generator_post now req payload :
  method req = "POST" -> json_body req = Normal payload -> payload <> JNull ->
  ReportGenerator.serve now req =
    if truthy_opt (own_prop payload "execution_id") then
      json_response 202
        (JObj [ ("status", JStr "generating");
                ("execution_id", default JNull (own_prop payload "execution_id"));
                ("format", ReportGenerator.format_or_json (own_prop payload "format"));
                ("message", JStr "Report generation initiated. Use report_generator.py for full generation.");
                ("timestamp", JStr now) ])
    else json_response 400 (JObj [ ("error", JStr "Missing execution_id") ]).
Proof.
  intros Hm Hb Hn. unfold ReportGenerator.serve, ReportGenerator.try_body.
  rewrite Hm, Hb. simpl.
  rewrite !(QaTestRunnerFacts.get_prop_not_null _ _ Hn). simpl.
  destruct (truthy_opt (own_prop payload "execution_id")); reflexivity.
Qed.

(** X8: A POST to report-generator whose body is JSON other than [null] is
    answered 400, with the error "Missing execution_id", exactly when
    execution_id is missing or falsy, and otherwise 202 with status
    "generating", the execution_id as [JSON.stringify] writes it (a string,
    as the ReportRequest type declares it, is written as it is) and the
    clock's timestamp. *)
Theorem report_generator_validation now req payload :
  method req = "POST" -> json_body req = Normal payload -> payload <> JNull ->
  let r := ReportGenerator.serve now req in
  (status r = 400 <-> truthy_opt (own_prop payload "execution_id") = false)
  /\ (truthy_opt (own_prop payload "execution_id") = false ->
        body_field "error" r = Some (JStr "Missing execution_id"))
  /\ (truthy_opt (own_prop payload "execution_id") = true ->
        status r = 202
        /\ body_field "status" r = Some (JStr "generating")
        /\ body_field "execution_id" r = stringify <$> own_prop payload "execution_id"
        /\ (forall s, own_prop payload "execution_id" = Some (JStr s) ->
              body_field "execution_id" r = Some (JStr s))
        /\ body_field "timestamp" r = Some (JStr now)).
Proof.
  intros Hm Hb Hn r. subst r. rewrite (report_generator_post now req payload Hm Hb Hn).
  destruct (own_prop payload "execution_id") as [v|] eqn:Hv; simpl.
  - destruct (truthy v); simpl; repeat split; intros; try discriminate; try reflexivity.
    simplify_eq. reflexivity.
  - repeat split; intros; try discriminate; reflexivity.
Qed.

Lemma report_generator_validation_witness :
  status (ReportGenerator.serve "2024-01-01T12:00:00.000Z"
            (mkRequest "POST" [] (Normal (JObj [ ("format", JStr "html") ])))) = 400
  <-> truthy_opt (own_prop (JObj [ ("format", JStr "html") ]) "execution_id") = false.
Proof.
  apply (report_generator_validation "2024-01-01T12:00:00.000Z"
           (mkRequest "POST" [] (Normal (JObj [ ("format", JStr "html") ])))
           (JObj [ ("format", JStr "html") ]));
    [reflexivity | reflexivity | discriminate].
Defined.

(** X9: The format of an accepted report request is never validated: a truthy
    format of the body is echoed as [JSON.stringify] writes it, whatever it
    is (any non-empty string, not only json, html and markdown, is echoed
    as it is), and a missing or falsy one becomes "json". The response is
    served as application/json for every format, "html" included. *)
Theorem report_generator_format now req payload :
  method req = "POST" -> json_body req = Normal payload -> payload <> JNull ->
  truthy_opt (own_prop payload "execution_id") = true ->
  let r := ReportGenerator.serve now req in
  (forall s, own_prop payload "format" = Some (JStr s) -> s <> "" ->
     body_field "format" r = Some (JStr s))
  /\ (forall f, own_prop payload "format" = Some f -> truthy f = true ->
        body_field "format" r = Some (stringify f))
  /\ (truthy_opt (own_prop payload "format") = false ->
        body_field "format" r = Some (JStr "json"))
  /\ is_Some (body_field "format" r)
  /\ header "Content-Type" r = Some "application/json".
Proof.
  intros Hm Hb Hn He r. subst r.
  rewrite (report_generator_post now req payload Hm Hb Hn), He.
  unfold body_field. simpl. unfold ReportGenerator.format_or_json.
  split; [|split; [|split; [|split]]].
  - intros s Hf Hs. rewrite Hf. simpl. rewrite bool_decide_eq_false_2 by exact Hs. reflexivity.
  - intros f Hf Ht. rewrite Hf, Ht. reflexivity.
  - intros Hf. destruct (own_prop payload "format") as [f|]; simpl in *; [rewrite Hf|]; reflexivity.
  - eexists. reflexivity.
  - reflexivity.
Qed.

Lemma report_generator_format_witness :
  body_field "format"
    (ReportGenerator.serve "2024-01-01T12:00:00.000Z"
       (mkRequest "POST" []
          (Normal (JObj [ ("execution_id", JStr "exec-123"); ("format", JStr "pdf") ]))))
  = Some (JStr "pdf").
Proof.
  destruct (report_generator_format "2024-01-01T12:00:00.000Z"
              (mkRequest "POST" []
                 (Normal (JObj [ ("execution_id", JStr "exec-123"); ("format", JStr "pdf") ])))
              (JObj [ ("execution_id", JStr "exec-123"); ("format", JStr "pdf") ]))
    as (Hstring & _).
  - reflexivity.
  - reflexivity.
  - discriminate.
  - reflexivity.
  - apply Hstring; [reflexivity | discriminate].
Defined.

(** A format or an execution_id that is not a finite number is accepted and
    answered as [null]. *)
Example report_generator_infinite_values_written_null :
  let payload := JObj [ ("execution_id", JNum PrimFloat.infinity);
                        ("format", JNum PrimFloat.infinity) ] in
  let r := ReportGenerator.serve "2024-01-01T12:00:00.000Z"
             (mkRequest "POST" [] (Normal payload)) in
  status r = 202
  /\ body_field "execution_id" r = Some JNull
  /\ body_field "format" r = Some JNull.
Proof. vm_compute. repeat split. Qed.

End EndpointFacts.

(** ** The constraints and policies of the store *)

Module SchemaPolicyFacts.
Import Schema SchemaPolicies.

(** *** Primary keys *)

Ltac split_andb :=
  repeat match goal with
    | H : _ && _ = true |- _ => apply andb_true_iff in H as [? ?]
    end.

Ltac unfold_inserts :=
  unfold insert_test_project, insert_test_scenario, insert_test_execution,
    insert_test_result, insert_bug_report, insert_performance_metric,
    insert_accessibility_issue, insert_screenshot, insert_test_schedule.

Lemma filter_keys_NoDup {R : Type} (key : R -> uuid) (P : R -> Prop)
    `{forall x, Decision (P x)} (rows : list R) :
  NoDup (map key rows) -> NoDup (map key (filter P rows)).
Proof.
  intros Hnd. eapply sublist_NoDup; [exact Hnd|]. apply SchemaFacts.map_filter_sublist.
Qed.

Ltac pk_step :=
  first
    [ assumption
    | apply SchemaFacts.map_snoc_NoDup; assumption
    | apply filter_keys_NoDup; assumption
    | apply SchemaFacts.on_delete_keys_NoDup; [intros; reflexivity | pk_step] ].

(** No statement makes two rows of a table share an id. *)
Lemma exec_primary_keys s db :
  primary_keys_unique db -> primary_keys_unique (exec s db).
Proof.
  intros Hpk.
  destruct s as [r row|r row|r row|r row|r row|r row|r row|r row|r row|eid|sid|pid];
    cbn [exec].
  1-9: unfold_inserts;
       match goal with
       | |- context [if ?c then _ else _] => destruct c eqn:Hc; cbn [default]; [|exact Hpk]
       end;
       split_andb; destruct Hpk; constructor; cbn -[on_delete]; pk_step.
  - unfold delete_execution. destruct (decide _); [|exact Hpk].
    destruct Hpk; constructor; cbn -[on_delete]; pk_step.
  - unfold delete_scenario. destruct (decide _); [|exact Hpk].
    destruct Hpk; constructor; cbn -[on_delete]; pk_step.
  - unfold delete_project. destruct (decide _); [|exact Hpk].
    destruct Hpk; constructor; cbn -[on_delete]; pk_step.
Qed.

(** *** Foreign keys *)

Section RefsIn.
Context {R : Type} (ref : R -> option uuid).

Lemma refs_in_filter (P : R -> Prop) `{forall x, Decision (P x)} rows keys :
  refs_in ref rows keys -> refs_in ref (filter P rows) keys.
Proof.
  intros Hr r k Hin Hk. apply list_elem_of_filter in Hin as [_ Hin]. exact (Hr r k Hin Hk).
Qed.

Lemma refs_in_mono rows keys keys' :
  refs_in ref rows keys -> (forall k, k ∈ keys -> k ∈ keys') -> refs_in ref rows keys'.
Proof. intros Hr Hsub r k Hin Hk. apply Hsub. exact (Hr r k Hin Hk). Qed.

Lemma refs_in_snoc rows row keys :
  refs_in ref rows keys -> (forall k, ref row = Some k -> k ∈ keys) ->
  refs_in ref (rows ++ [ row ])%list keys.
Proof.
  intros Hr Hrow r k Hin Hk. apply elem_of_app in Hin as [Hin|Hin].
  - exact (Hr r k Hin Hk).
  - apply list_elem_of_singleton in Hin as ->. exact (Hrow k Hk).
Qed.

(** Deleting through another column keeps the references of this one. *)
Lemma refs_in_on_delete_other a (ref' : R -> option uuid) clear gone rows keys :
  (forall r, ref (clear r) = ref r) ->
  refs_in ref rows keys -> refs_in ref (on_delete a ref' clear gone rows) keys.
Proof.
  intros Hclear Hr. destruct a; unfold on_delete.
  - apply refs_in_filter. exact Hr.
  - intros x k Hin Hk. apply list_elem_of_fmap in Hin as (r & -> & Hin).
    destruct (decide (references ref' gone r)); [rewrite Hclear in Hk|]; exact (Hr r k Hin Hk).
Qed.

(** Deleting through this column leaves no reference to a deleted key. *)
Lemma refs_in_on_delete_same a clear gone rows keys keys' :
  (forall r, ref (clear r) = None \/ a = CASCADE) ->
  refs_in ref rows keys ->
  (forall k, k ∈ keys -> k ∉ gone -> k ∈ keys') ->
  refs_in ref (on_delete a ref clear gone rows) keys'.
Proof.
  intros Hclear Hr Hkept. destruct a; unfold on_delete.
  - intros r k Hin Hk. apply list_elem_of_filter in Hin as [Hn Hin].
    apply Hkept; [exact (Hr r k Hin Hk)|].
    intros Hg. apply Hn. unfold references. rewrite Hk. exact Hg.
  - intros x k Hin Hk. apply list_elem_of_fmap in Hin as (r & -> & Hin).
    destruct (decide (references ref gone r)) as [Hg|Hg].
    + destruct (Hclear r) as [Hc|Hc]; congruence.
    + apply Hkept; [exact (Hr r k Hin Hk)|].
      intros Hg'. apply Hg. unfold references. rewrite Hk. exact Hg'.
Qed.

End RefsIn.

Lemma has_key_elem k keys : has_key k keys = true -> k ∈ keys.
Proof. apply bool_decide_eq_true. Qed.

Lemma keys_snoc {R : Type} (key : R -> uuid) rows row k :
  k ∈ map key rows -> k ∈ map key (rows ++ [ row ])%list.
Proof. intros H. rewrite map_app. apply elem_of_app. left. exact H. Qed.

(** The keys left in a table after the rows with the key [x] are deleted. *)
Lemma keys_kept_filter {R : Type} (key : R -> uuid) rows x k :
  k ∈ map key rows -> k ∉ [ x ] -> k ∈ map key (filter (fun r => key r <> x) rows).
Proof.
  intros Hin Hx. apply list_elem_of_fmap in Hin as (r & -> & Hin).
  apply (list_elem_of_fmap_2 key). apply list_elem_of_filter. split; [|exact Hin].
  intros Heq. apply Hx. rewrite Heq. left.
Qed.

(** The keys left in a table after a cascade are those it did not delete. *)
Lemma keys_kept_cascade {R : Type} (key : R -> uuid) ref clear gone rows k :
  k ∈ map key rows -> k ∉ cascaded key ref gone rows ->
  k ∈ map key (on_delete CASCADE ref clear gone rows).
Proof.
  intros Hin Hx. apply list_elem_of_fmap in Hin as (r & -> & Hin).
  apply (list_elem_of_fmap_2 key). unfold on_delete. apply list_elem_of_filter.
  split; [|exact Hin]. intros Hg. apply Hx. unfold cascaded.
  apply (list_elem_of_fmap_2 key). apply list_elem_of_filter. split; assumption.
Qed.

Ltac fk_side :=
  first
    [ solve [ apply keys_snoc; assumption ]
    | solve [ apply keys_kept_filter; assumption ]
    | solve [ apply keys_kept_cascade; assumption ]
    | solve [ assumption ] ].

Ltac fk_row :=
  let k := fresh "k" in
  let Hk := fresh "Hk" in
  intros k Hk;
  first
    [ solve [ unfold not_null in Hk; simplify_eq; apply has_key_elem; assumption ]
    | solve [ rewrite Hk in *; apply has_key_elem; assumption ] ].

Ltac fk_step :=
  first
    [ assumption
    | eassumption
    | solve [ apply refs_in_snoc; [fk_step | fk_row] ]
    | solve [ eapply refs_in_mono; [eassumption | intros; fk_side] ]
    | solve [ apply refs_in_filter; fk_step ]
    | solve [ apply refs_in_on_delete_other; [intros; reflexivity | fk_step] ]
    | solve [ eapply refs_in_on_delete_same;
              [ intros; first [left; reflexivity | right; reflexivity]
              | fk_step
              | intros; fk_side ] ] ].

(** No statement leaves a row that references a missing row. *)
Lemma exec_foreign_keys s db :
  foreign_keys_hold db -> foreign_keys_hold (exec s db).
Proof.
  intros Hfk.
  destruct s as [r row|r row|r row|r row|r row|r row|r row|r row|r row|eid|sid|pid];
    cbn [exec].
  1-9: unfold_inserts;
       match goal with
       | |- context [if ?c then _ else _] => destruct c eqn:Hc; cbn [default]; [|exact Hfk]
       end;
       split_andb; destruct Hfk; constructor; cbn -[on_delete]; fk_step.
  - unfold delete_execution. destruct (decide _); [|exact Hfk].
    destruct Hfk; constructor; cbn -[on_delete]; fk_step.
  - unfold delete_scenario. destruct (decide _); [|exact Hfk].
    destruct Hfk; constructor; cbn -[on_delete]; fk_step.
  - unfold delete_project. destruct (decide _); [|exact Hfk].
    destruct Hfk; constructor; cbn -[on_delete cascaded]; fk_step.
Qed.

(** *** UPDATE *)

Section UpdateRows.
Context {R : Type} (key : R -> uuid) (may : R -> bool) (k : uuid) (new : R).

Lemma update_rows_elem rows x :
  x ∈ update_rows key may k new rows
  <-> exists r, (r ∈ rows)
        /\ ((key r = k /\ may r = true /\ x = new)
            \/ (~ (key r = k /\ may r = true) /\ x = r)).
Proof.
  unfold update_rows. change (map ?f ?l) with (f <$> l). rewrite list_elem_of_fmap. split.
  - intros (r & -> & Hin). exists r. split; [exact Hin|].
    destruct (decide (key r = k)) as [Hk|Hk]; [destruct (may r) eqn:Hm|].
    + left. tauto.
    + right. split; [|reflexivity]. intros [_ H]. discriminate.
    + right. tauto.
  - intros (r & Hin & [(Hk & Hm & ->)|(Hn & ->)]); exists r; (split; [|exact Hin]).
    + rewrite decide_True by exact Hk. rewrite Hm. reflexivity.
    + destruct (decide (key r = k)) as [Hk|Hk]; [|reflexivity].
      destruct (may r) eqn:Hm; [|reflexivity]. exfalso. apply Hn. tauto.
Qed.

Lemma update_rows_same_key rows :
  key new = k -> map key (update_rows key may k new rows) = map key rows.
Proof.
  intros Hk. unfold update_rows. rewrite map_map. apply map_ext. intros r.
  destruct (decide (key r = k)) as [Hr|Hr]; [|reflexivity].
  destruct (may r); congruence.
Qed.

Lemma update_rows_keys_elem rows x :
  x ∈ map key (update_rows key may k new rows) -> (x ∈ map key rows) \/ x = key new.
Proof.
  intros H. apply list_elem_of_fmap in H as (y & -> & Hy).
  apply update_rows_elem in Hy as (r & Hin & [(_ & _ & ->)|(_ & ->)]).
  - right. reflexivity.
  - left. apply (list_elem_of_fmap_2 key). exact Hin.
Qed.

Lemma update_rows_fresh_key_NoDup rows :
  NoDup (map key rows) -> (key new ∉ map key rows) ->
  NoDup (map key (update_rows key may k new rows)).
Proof.
  induction rows as [|r rows IH]; intros Hnd Hfresh; [constructor|].
  simpl in Hnd, Hfresh. apply NoDup_cons in Hnd as [Hr Hnd].
  apply not_elem_of_cons in Hfresh as [Hne Hfresh].
  change (update_rows key may k new (r :: rows))
    with ((if decide (key r = k) then (if may r then new else r) else r)
            :: update_rows key may k new rows).
  simpl. apply NoDup_cons. split; [|apply IH; assumption].
  intros Hin. apply list_elem_of_fmap in Hin as (y & Hy & Hyin).
  apply update_rows_elem in Hyin as (r' & Hin' & Hcase).
  assert (Hr' : key r' ∈ map key rows) by (apply (list_elem_of_fmap_2 key); exact Hin').
  destruct (decide (key r = k)) as [Hk|Hk]; [destruct (may r)|];
    destruct Hcase as [(Hk' & _ & ->)|(_ & ->)]; congruence.
Qed.

(** The keys of the other rows stay in the table. *)
Lemma update_rows_keys_kept rows x :
  x ∈ map key rows -> key new = k \/ x <> k -> x ∈ map key (update_rows key may k new rows).
Proof.
  intros Hin [Hk|Hx].
  - rewrite (update_rows_same_key rows Hk). exact Hin.
  - apply list_elem_of_fmap in Hin as (r & -> & Hin). apply (list_elem_of_fmap_2 key).
    apply update_rows_elem. exists r. split; [exact Hin|]. right. split; [|reflexivity].
    intros [Hk _]. contradiction.
Qed.

Lemma update_rows_keys_NoDup rows referenced :
  NoDup (map key rows) -> key_allowed key k new rows referenced = true ->
  NoDup (map key (update_rows key may k new rows)).
Proof.
  intros Hnd Hok. unfold key_allowed in Hok. apply orb_true_iff in Hok as [Hok|Hok].
  - apply bool_decide_eq_true in Hok. rewrite (update_rows_same_key rows Hok). exact Hnd.
  - apply andb_true_iff in Hok as [Hfresh _]. apply bool_decide_eq_true in Hfresh.
    apply update_rows_fresh_key_NoDup; assumption.
Qed.

Lemma refs_in_update_rows (ref : R -> option uuid) rows keys :
  refs_in ref rows keys -> (forall x, ref new = Some x -> x ∈ keys) ->
  refs_in ref (update_rows key may k new rows) keys.
Proof.
  intros Hr Hnew y x Hin Hx.
  apply update_rows_elem in Hin as (r & Hin & [(_ & _ & ->)|(_ & ->)]).
  - exact (Hnew x Hx).
  - exact (Hr r x Hin Hx).
Qed.

End UpdateRows.

(** The references of a child table still hold after an UPDATE of the
    parent table that was allowed to change the key. *)
Lemma refs_in_parent_updated {C P : Type} (ref : C -> option uuid) (children : list C)
    (key : P -> uuid) (may : P -> bool) (k : uuid) (new : P) (parents : list P) :
  refs_in ref children (map key parents) ->
  (key new = k \/ forall c, c ∈ children -> ref c <> Some k) ->
  refs_in ref children (map key (update_rows key may k new parents)).
Proof.
  intros Hr Hok c x Hin Hx. apply update_rows_keys_kept; [exact (Hr c x Hin Hx)|].
  destruct Hok as [Hk|Hno]; [left; exact Hk|]. right. intros ->. exact (Hno c Hin Hx).
Qed.

Lemma has_key_false_not_null {C : Type} (col : C -> uuid) (children : list C) (k : uuid) :
  has_key k (map col children) = false ->
  forall c, c ∈ children -> not_null col c <> Some k.
Proof.
  intros H c Hin Heq. apply bool_decide_eq_false in H. apply H.
  unfold not_null in Heq. injection Heq as <-. apply (list_elem_of_fmap_2 col). exact Hin.
Qed.

Lemma exists_false_nullable {C : Type} (ref : C -> option uuid) (children : list C) (k : uuid)
    `{Decision (Exists (fun c => ref c = Some k) children)} :
  bool_decide (Exists (fun c => ref c = Some k) children) = false ->
  forall c, c ∈ children -> ref c <> Some k.
Proof.
  intros Hb c Hin Heq. apply bool_decide_eq_false in Hb. apply Hb.
  apply Exists_exists. exists c. tauto.
Qed.

Lemma key_allowed_cases {R : Type} (key : R -> uuid) k new rows referenced :
  key_allowed key k new rows referenced = true -> key new = k \/ referenced = false.
Proof.
  unfold key_allowed. intros H. apply orb_true_iff in H as [H|H].
  - left. apply bool_decide_eq_true in H. exact H.
  - right. apply andb_true_iff in H as [_ H]. apply negb_true_iff in H. exact H.
Qed.

Ltac split_orb_false :=
  repeat match goal with
    | H : _ || _ = false |- _ => apply orb_false_iff in H as [? ?]
    end.

Ltac upd_pk :=
  first
    [ assumption
    | solve [ eapply update_rows_keys_NoDup; eassumption ] ].

Ltac upd_parent :=
  match goal with
  | H : key_allowed _ _ _ _ _ = true |- _ =>
      apply key_allowed_cases in H as [H|H];
      [ left; exact H
      | right;
        cbv beta delta [project_referenced scenario_referenced execution_referenced] in H;
        split_orb_false;
        first [ solve [ apply has_key_false_not_null; assumption ]
              | solve [ eapply exists_false_nullable; eassumption ] ] ]
  end.

Ltac upd_fk :=
  first
    [ assumption
    | solve [ apply refs_in_update_rows; [assumption | fk_row] ]
    | solve [ apply refs_in_parent_updated; [assumption | upd_parent] ] ].

(** An UPDATE that the store accepts keeps the primary keys unique and the
    foreign keys valid. *)
Lemma exec_update_constraints (u : update) (db : Database) :
  primary_keys_unique db -> foreign_keys_hold db ->
  primary_keys_unique (exec_update u db) /\ foreign_keys_hold (exec_update u db).
Proof.
  intros Hpk Hfk.
  destruct u as [r k new|r k new|r k new|r k new|r k new]; cbn [exec_update];
    unfold update_test_project, update_test_scenario, update_test_execution,
      update_bug_report, update_test_schedule;
    match goal with
    | |- context [if ?c then _ else _] => destruct c eqn:Hc; [|split; assumption]
    end;
    split_andb; destruct Hpk, Hfk; split; constructor; cbn -[update_rows];
    first [ upd_pk | upd_fk ].
Qed.

Lemma exec_command_constraints (c : command) (db : Database) :
  primary_keys_unique db -> foreign_keys_hold db ->
  primary_keys_unique (exec_command c db) /\ foreign_keys_hold (exec_command c db).
Proof.
  intros Hpk Hfk. destruct c as [s|u]; cbn [exec_command].
  - split; [apply exec_primary_keys | apply exec_foreign_keys]; assumption.
  - apply exec_update_constraints; assumption.
Qed.

Lemma run_commands_snoc cs c :
  run_commands (cs ++ [ c ]) = exec_command c (run_commands cs).
Proof. unfold run_commands. rewrite foldl_app. reflexivity. Qed.

Lemma run_commands_constraints cs :
  primary_keys_unique (run_commands cs) /\ foreign_keys_hold (run_commands cs).
Proof.
  induction cs as [|c cs [IHpk IHfk]] using rev_ind.
  - split; [constructor; constructor | constructor; intros r k Hin; inversion Hin].
  - rewrite run_commands_snoc. apply exec_command_constraints; assumption.
Qed.

(** A script of INSERT and DELETE statements is a session without UPDATE. *)
Lemma run_commands_Stmt script : run_commands (Stmt <$> script) = run script.
Proof.
  induction script as [|s script IH] using rev_ind; [reflexivity|].
  rewrite fmap_app. change (Stmt <$> [ s ]) with [ Stmt s ].
  rewrite run_commands_snoc, IH, SchemaFacts.run_snoc. reflexivity.
Qed.

(** X10: At every state of the store that INSERT, UPDATE and DELETE statements
    reach, in each of the nine tables no two rows have the same id. *)
Theorem reachable_primary_keys db : reachable_with_updates db -> primary_keys_unique db.
Proof.
  intros [cs <-]. induction cs as [|c cs IH] using rev_ind.
  - constructor; constructor.
  - rewrite run_commands_snoc.
    apply exec_command_constraints; [exact IH | apply run_commands_constraints].
Qed.

Lemma reachable_primary_keys_witness :
  primary_keys_unique
    (run_commands
       ((Stmt <$> duplicate_script)
        ++ [ Upd (UpdateBugReport (Authenticated "user-1") "bug-1"
                    (br_with_id "bug-2" sample_bug_report)) ])).
Proof. apply reachable_primary_keys. eexists. reflexivity. Defined.

(** X11: At every state of the store that INSERT, UPDATE and DELETE statements
    reach, each of the eleven foreign keys holds: a row's project, execution
    or scenario is a row of the store (or NULL, where the column allows
    it). *)
Theorem reachable_foreign_keys db : reachable_with_updates db -> foreign_keys_hold db.
Proof.
  intros [cs <-]. induction cs as [|c cs IH] using rev_ind.
  - constructor; intros r k Hin; inversion Hin.
  - rewrite run_commands_snoc.
    apply exec_command_constraints; [apply run_commands_constraints | exact IH].
Qed.

Lemma reachable_foreign_keys_witness :
  foreign_keys_hold
    (run_commands
       ((Stmt <$> sample_script)
        ++ [ Upd (UpdateTestExecution (Authenticated "user-1") "exec-1"
                    {| te_id := "exec-9"; te_project_id := "project-1";
                       te_execution_date := None; te_status := None;
                       te_total_tests := None; te_passed := None; te_failed := None;
                       te_warnings := None; te_duration_seconds := None;
                       te_created_at := None |});
             Stmt (DeleteTestExecution "exec-1") ])).
Proof. apply reachable_foreign_keys. eexists. reflexivity. Defined.


(** *** What the DELETE statements delete *)

Lemma cascade_not_null {R : Type} (col : R -> uuid) (x : uuid) (rows : list R) :
  on_delete CASCADE (not_null col) id [ x ] rows = filter (fun r => col r <> x) rows.
Proof.
  unfold on_delete. apply list_filter_iff. intros r.
  rewrite SchemaFacts.references_not_null. tauto.
Qed.

Lemma set_null_elem {R : Type} (ref : R -> option uuid) (clear : R -> R) gone rows x :
  x ∈ on_delete SET_NULL ref clear gone rows
  <-> exists r, (r ∈ rows)
        /\ ((references ref gone r /\ x = clear r) \/ (~ references ref gone r /\ x = r)).
Proof.
  unfold on_delete. change (map ?f ?l) with (f <$> l). rewrite list_elem_of_fmap. split.
  - intros (r & -> & Hin). exists r. split; [exact Hin|].
    destruct (decide (references ref gone r)); tauto.
  - intros (r & Hin & [[Hg ->]|[Hg ->]]); exists r; (split; [|exact Hin]).
    + rewrite decide_True by exact Hg. reflexivity.
    + rewrite decide_False by exact Hg. reflexivity.
Qed.

(** X12: Deleting an Execution also deletes its test results and its screenshots,
    and no other row of these tables; it deletes no other execution and
    touches no project, scenario or schedule. *)
Theorem delete_execution_results_and_screenshots (db : Database) (eid : uuid) :
  (eid ∈ map te_id (test_executions db)) ->
  let db' := delete_execution eid db in
  test_executions db' = filter (fun e => te_id e <> eid) (test_executions db)
  /\ test_results db' = filter (fun t => tr_execution_id t <> eid) (test_results db)
  /\ screenshots db' = filter (fun s => ss_execution_id s <> eid) (screenshots db)
  /\ test_projects db' = test_projects db
  /\ test_scenarios db' = test_scenarios db
  /\ test_schedules db' = test_schedules db.
Proof.
  intros Hin db'. subst db'. rewrite (SchemaFacts.delete_execution_present eid db Hin).
  cbn -[on_delete].
  unfold test_results_execution_id_fk, screenshots_execution_id_fk.
  rewrite !cascade_not_null. repeat split.
Qed.

Lemma delete_execution_results_and_screenshots_witness :
  test_projects (delete_execution "exec-1" (run sample_script)) = test_projects (run sample_script).
Proof.
  apply (delete_execution_results_and_screenshots (run sample_script) "exec-1").
  compute_done.
Defined.

(** X13: Deleting a scenario deletes the scenario and its test results; its
    screenshots are kept, with scenario_id set to NULL; every other table is
    left as it is. *)
Theorem delete_scenario_effect (db : Database) (sid : uuid) :
  (sid ∈ map sc_id (test_scenarios db)) ->
  let db' := delete_scenario sid db in
  test_scenarios db' = filter (fun s => sc_id s <> sid) (test_scenarios db)
  /\ test_results db' = filter (fun t => tr_scenario_id t <> sid) (test_results db)
  /\ map ss_id (screenshots db') = map ss_id (screenshots db)
  /\ (forall s, s ∈ screenshots db -> ss_scenario_id s = Some sid ->
        ss_clear_scenario_id s ∈ screenshots db')
  /\ (forall s, s ∈ screenshots db -> ss_scenario_id s <> Some sid -> s ∈ screenshots db')
  /\ (forall s, s ∈ screenshots db' -> ss_scenario_id s <> Some sid)
  /\ test_projects db' = test_projects db
  /\ test_executions db' = test_executions db
  /\ bug_reports db' = bug_reports db
  /\ performance_metrics db' = performance_metrics db
  /\ accessibility_issues db' = accessibility_issues db
  /\ test_schedules db' = test_schedules db.
Proof.
  intros Hin db'. subst db'. unfold delete_scenario. rewrite decide_True by exact Hin.
  cbn -[on_delete]. unfold test_results_scenario_id_fk, screenshots_scenario_id_fk.
  rewrite cascade_not_null.
  split; [reflexivity|]. split; [reflexivity|].
  split; [apply (SchemaFacts.on_delete_set_null_keys ss_id); intros; reflexivity|].
  split; [|split; [|split; [|repeat split]]].
  - intros s Hs Hsid. apply set_null_elem. exists s. split; [exact Hs|]. left.
    split; [|reflexivity]. apply SchemaFacts.references_nullable. exact Hsid.
  - intros s Hs Hsid. apply set_null_elem. exists s. split; [exact Hs|]. right.
    split; [|reflexivity]. rewrite SchemaFacts.references_nullable. exact Hsid.
  - intros s Hs. apply set_null_elem in Hs as (s0 & _ & [[_ ->]|[Hn ->]]).
    + discriminate.
    + rewrite SchemaFacts.references_nullable in Hn. exact Hn.
Qed.

Lemma delete_scenario_effect_witness :
  let db := exec (InsertTestScenario ServiceRole
                    {| sc_id := "scenario-1"; sc_project_id := "project-1"; sc_name := "Login";
                       sc_description := None; sc_test_type := "functional";
                       sc_priority := None; sc_enabled := Some true;
                       sc_created_at := None; sc_updated_at := None |})
              (run sample_script) in
  bug_reports (delete_scenario "scenario-1" db) = bug_reports db.
Proof.
  intros db. apply (delete_scenario_effect db "scenario-1"). compute_done.
Defined.

(** The ids of the executions of a project. *)
Lemma cascaded_executions pid db k :
  k ∈ cascaded te_id (not_null te_project_id) [ pid ] (test_executions db)
  <-> exists e, (e ∈ test_executions db) /\ te_project_id e = pid /\ te_id e = k.
Proof.
  unfold cascaded. change (map ?f ?l) with (f <$> l). rewrite list_elem_of_fmap.
  split.
  - intros (e & -> & He). apply list_elem_of_filter in He as [Hp He].
    rewrite SchemaFacts.references_not_null in Hp. exists e. tauto.
  - intros (e & He & Hp & <-). exists e. split; [reflexivity|].
    apply list_elem_of_filter. rewrite SchemaFacts.references_not_null. tauto.
Qed.

(** X14: Deleting a project deletes the project with its scenarios, executions,
    bug reports and schedules, and with the test results, metrics,
    accessibility issues and screenshots of its executions; the projects,
    scenarios, executions and schedules of other projects are all kept. *)
Theorem delete_project_effect (db : Database) (pid : uuid) :
  (pid ∈ map tp_id (test_projects db)) ->
  let db' := delete_project pid db in
  let of_project (eid : uuid) : Prop :=
    exists e, (e ∈ test_executions db) /\ te_project_id e = pid /\ te_id e = eid in
  test_projects db' = filter (fun p => tp_id p <> pid) (test_projects db)
  /\ test_scenarios db' = filter (fun s => sc_project_id s <> pid) (test_scenarios db)
  /\ test_executions db' = filter (fun e => te_project_id e <> pid) (test_executions db)
  /\ test_schedules db' = filter (fun s => sch_project_id s <> pid) (test_schedules db)
  /\ (forall b, b ∈ bug_reports db' -> br_project_id b <> pid)
  /\ (forall t, t ∈ test_results db' -> ~ of_project (tr_execution_id t))
  /\ (forall m, m ∈ performance_metrics db' -> ~ of_project (pm_execution_id m))
  /\ (forall a, a ∈ accessibility_issues db' -> ~ of_project (ai_execution_id a))
  /\ (forall s, s ∈ screenshots db' -> ~ of_project (ss_execution_id s)).
Proof.
  intros Hin db' of_project. subst db'. unfold delete_project.
  rewrite decide_True by exact Hin. cbn -[on_delete cascaded].
  unfold test_scenarios_project_id_fk, test_executions_project_id_fk,
    test_schedules_project_id_fk, bug_reports_project_id_fk.
  rewrite !cascade_not_null.
  assert (Hgone : forall {R} (col : R -> uuid) (rows : list R) (x : R),
            x ∈ on_delete CASCADE (not_null col) id
                  (cascaded te_id (not_null te_project_id) [ pid ] (test_executions db)) rows ->
            ~ of_project (col x)).
  { intros R col rows x Hx Hof. unfold on_delete in Hx.
    apply list_elem_of_filter in Hx as [Hn _]. apply Hn.
    unfold references, not_null. apply cascaded_executions. exact Hof. }
  split; [reflexivity|]. split; [reflexivity|]. split; [reflexivity|]. split; [reflexivity|].
  split; [|split; [|split; [|split]]].
  - intros b Hb. apply list_elem_of_filter in Hb. tauto.
  - intros t Ht. unfold test_results_scenario_id_fk, on_delete in Ht.
    apply list_elem_of_filter in Ht as [_ Ht].
    exact (Hgone _ tr_execution_id _ t Ht).
  - intros m Hm. exact (Hgone _ pm_execution_id _ m Hm).
  - intros a Ha. exact (Hgone _ ai_execution_id _ a Ha).
  - intros x Hx. unfold screenshots_scenario_id_fk in Hx.
    apply set_null_elem in Hx as (s0 & Hs0 & [[_ ->]|[_ ->]]);
      exact (Hgone _ ss_execution_id _ s0 Hs0).
Qed.

Lemma delete_project_effect_witness :
  test_executions (delete_project "project-1" (run sample_script)) = [].
Proof.
  etransitivity.
  - apply (delete_project_effect (run sample_script) "project-1"). compute_done.
  - vm_compute. reflexivity.
Defined.


(** *** Repeating and reordering deletions *)

Lemma delete_execution_gone eid db :
  eid ∉ map te_id (test_executions (delete_execution eid db)).
Proof.
  unfold delete_execution. destruct (decide _) as [Hin|Hin]; [|exact Hin].
  cbn -[on_delete]. intros H. apply list_elem_of_fmap in H as (e & -> & He).
  apply list_elem_of_filter in He as [Hne _]. apply Hne. reflexivity.
Qed.

Lemma delete_execution_absent eid db :
  eid ∉ map te_id (test_executions db) -> delete_execution eid db = db.
Proof. intros H. unfold delete_execution. rewrite decide_False by exact H. reflexivity. Qed.

Lemma filter_comm {R : Type} (P Q : R -> Prop)
    `{forall x, Decision (P x)} `{forall x, Decision (Q x)} (rows : list R) :
  filter P (filter Q rows) = filter Q (filter P rows).
Proof.
  rewrite !list_filter_filter. apply list_filter_iff. intros r. tauto.
Qed.

Lemma cascade_comm {R : Type} (col : R -> uuid) (x y : uuid) (rows : list R) :
  on_delete CASCADE (not_null col) id [ x ] (on_delete CASCADE (not_null col) id [ y ] rows)
  = on_delete CASCADE (not_null col) id [ y ] (on_delete CASCADE (not_null col) id [ x ] rows).
Proof. unfold on_delete. apply filter_comm. Qed.

Lemma set_null_execution_comm (x y : uuid) (rows : list bug_reports_row) :
  on_delete SET_NULL br_execution_id br_clear_execution_id [ x ]
    (on_delete SET_NULL br_execution_id br_clear_execution_id [ y ] rows)
  = on_delete SET_NULL br_execution_id br_clear_execution_id [ y ]
      (on_delete SET_NULL br_execution_id br_clear_execution_id [ x ] rows).
Proof.
  assert (Hclear : forall g b, ~ references br_execution_id g (br_clear_execution_id b))
    by (intros g b; unfold references; simpl; tauto).
  unfold on_delete. rewrite !map_map. apply map_ext. intros b.
  destruct (decide (references br_execution_id [ y ] b)) as [Hy|Hy] eqn:Ey;
    destruct (decide (references br_execution_id [ x ] b)) as [Hx|Hx] eqn:Ex;
    cbv beta iota; rewrite ?Ex, ?Ey; cbv beta iota;
    rewrite ?(decide_False (P := references _ _ (br_clear_execution_id b))) by apply Hclear;
    reflexivity.
Qed.

(** X15: Deleting an execution a second time changes nothing, and two executions
    can be deleted in either order. *)
Theorem delete_execution_idempotent_commutative (db : Database) (e1 e2 : uuid) :
  delete_execution e1 (delete_execution e1 db) = delete_execution e1 db
  /\ delete_execution e1 (delete_execution e2 db) = delete_execution e2 (delete_execution e1 db).
Proof.
  split; [apply delete_execution_absent, delete_execution_gone|].
  destruct (decide (e1 = e2)) as [->|Hne]; [reflexivity|].
  assert (Hkeep : forall x y d, x <> y ->
            (x ∈ map te_id (test_executions (delete_execution y d)))
            <-> (x ∈ map te_id (test_executions d))).
  { intros x y d Hxy. unfold delete_execution. destruct (decide _) as [Hy|Hy]; [|tauto].
    cbn -[on_delete]. split.
    - intros H. apply list_elem_of_fmap in H as (e & -> & He).
      apply list_elem_of_filter in He as [_ He]. apply (list_elem_of_fmap_2 te_id). exact He.
    - intros H. apply keys_kept_filter; [exact H|].
      intros Hin. apply list_elem_of_singleton in Hin. contradiction. }
  destruct (decide (e1 ∈ map te_id (test_executions db))) as [H1|H1];
    destruct (decide (e2 ∈ map te_id (test_executions db))) as [H2|H2].
  - unfold delete_execution at 1 3.
    rewrite decide_True by (apply Hkeep; assumption).
    rewrite decide_True by (apply Hkeep; [congruence | assumption]).
    unfold delete_execution. rewrite !decide_True by assumption.
    unfold delete_executions_children, with_test_executions. cbn -[on_delete].
    unfold test_results_execution_id_fk, bug_reports_execution_id_fk,
      performance_metrics_execution_id_fk, accessibility_issues_execution_id_fk,
      screenshots_execution_id_fk.
    f_equal; try apply cascade_comm; try apply filter_comm; apply set_null_execution_comm.
  - rewrite (delete_execution_absent e2 db H2).
    rewrite (delete_execution_absent e2); [reflexivity|].
    rewrite Hkeep by congruence. exact H2.
  - rewrite (delete_execution_absent e1 db H1).
    rewrite (delete_execution_absent e1); [reflexivity|].
    rewrite Hkeep by congruence. exact H1.
  - rewrite (delete_execution_absent e1 db H1), (delete_execution_absent e2 db H2).
    rewrite (delete_execution_absent e1 db H1). reflexivity.
Qed.


(** *** Row-level security *)

Lemma owns_project_spec uid pid db :
  owns_project (Authenticated uid) pid db = true <-> owned_by uid pid db.
Proof.
  unfold owns_project, owned_by. rewrite bool_decide_eq_true, Exists_exists. split.
  - intros (p & Hin & Hid & Ho). exists p. tauto.
  - intros (p & Hin & Hid & Ho). exists p. tauto.
Qed.

Lemma owns_execution_spec uid eid db :
  owns_execution (Authenticated uid) eid db = true <-> execution_owned_by uid eid db.
Proof.
  unfold owns_execution, execution_owned_by. rewrite bool_decide_eq_true, Exists_exists. split.
  - intros (e & Hin & Hid & Ho). exists e. rewrite <- owns_project_spec. tauto.
  - intros (e & Hin & Hid & Ho). exists e. rewrite owns_project_spec. tauto.
Qed.

(** Rows of a table with unique keys are determined by their key. *)
Lemma key_determines_row {R : Type} (key : R -> uuid) (rows : list R) (r1 r2 : R) :
  NoDup (map key rows) -> r1 ∈ rows -> r2 ∈ rows -> key r1 = key r2 -> r1 = r2.
Proof.
  induction rows as [|r rows IH]; intros Hnd H1 H2 Hk; [inversion H1|].
  simpl in Hnd. apply NoDup_cons in Hnd as [Hr Hnd].
  apply elem_of_cons in H1 as [->|H1]; apply elem_of_cons in H2 as [->|H2].
  - reflexivity.
  - exfalso. apply Hr. rewrite Hk. apply (list_elem_of_fmap_2 key). exact H2.
  - exfalso. apply Hr. rewrite <- Hk. apply (list_elem_of_fmap_2 key). exact H1.
  - apply IH; assumption.
Qed.

(** A project of a reachable store has one owner. *)
Lemma project_has_one_owner db u1 u2 pid :
  primary_keys_unique db -> owned_by u1 pid db -> owned_by u2 pid db -> u1 = u2.
Proof.
  intros Hpk (p1 & Hin1 & Hid1 & Ho1) (p2 & Hin2 & Hid2 & Ho2).
  assert (p1 = p2) as ->
    by (apply (key_determines_row tp_id (test_projects db));
        [apply (pk_test_projects db Hpk) | assumption | assumption | congruence]).
  congruence.
Qed.

(** An execution of a reachable store is in one project, which has one
    owner. *)
Lemma execution_has_one_owner db u1 u2 eid :
  primary_keys_unique db -> execution_owned_by u1 eid db -> execution_owned_by u2 eid db ->
  u1 = u2.
Proof.
  intros Hpk (e1 & Hin1 & Hid1 & Ho1) (e2 & Hin2 & Hid2 & Ho2).
  assert (e1 = e2) as ->
    by (apply (key_determines_row te_id (test_executions db));
        [apply (pk_test_executions db Hpk) | assumption | assumption | congruence]).
  exact (project_has_one_owner db u1 u2 _ Hpk Ho1 Ho2).
Qed.

(** X16: An authenticated user cannot add a row to a project of another user: the
    INSERT policies reject every scenario, execution, bug report and
    schedule filed under that project, and every test result, metric,
    accessibility issue and screenshot filed under one of its executions. *)
Theorem insert_into_foreign_project_rejected (db : Database) (uid owner pid : uuid) :
  reachable_with_updates db -> owned_by owner pid db -> owner <> uid ->
  (forall row, sc_project_id row = pid ->
     insert_test_scenario (Authenticated uid) row db = None)
  /\ (forall row, te_project_id row = pid ->
        insert_test_execution (Authenticated uid) row db = None)
  /\ (forall row, br_project_id row = pid ->
        insert_bug_report (Authenticated uid) row db = None)
  /\ (forall row, sch_project_id row = pid ->
        insert_test_schedule (Authenticated uid) row db = None)
  /\ (forall e, e ∈ test_executions db -> te_project_id e = pid ->
        (forall row, tr_execution_id row = te_id e ->
           insert_test_result (Authenticated uid) row db = None)
        /\ (forall row, pm_execution_id row = te_id e ->
              insert_performance_metric (Authenticated uid) row db = None)
        /\ (forall row, ai_execution_id row = te_id e ->
              insert_accessibility_issue (Authenticated uid) row db = None)
        /\ (forall row, ss_execution_id row = te_id e ->
              insert_screenshot (Authenticated uid) row db = None)).
Proof.
  intros [cs <-] Hown Hne. destruct (run_commands_constraints cs) as [Hpk _].
  set (db := run_commands cs) in *.
  assert (Hp : owns_project (Authenticated uid) pid db = false).
  { apply not_true_is_false. rewrite owns_project_spec. intros Hu.
    apply Hne. exact (project_has_one_owner db owner uid pid Hpk Hown Hu). }
  assert (He : forall e, e ∈ test_executions db -> te_project_id e = pid ->
            owns_execution (Authenticated uid) (te_id e) db = false).
  { intros e Hin Hpid. apply not_true_is_false. rewrite owns_execution_spec. intros Hu.
    apply Hne. apply (execution_has_one_owner db owner uid (te_id e) Hpk); [|exact Hu].
    exists e. rewrite Hpid. tauto. }
  split; [|split; [|split; [|split]]].
  - intros row <-. unfold insert_test_scenario. rewrite Hp, !andb_false_r. reflexivity.
  - intros row <-. unfold insert_test_execution. rewrite Hp, !andb_false_r. reflexivity.
  - intros row <-. unfold insert_bug_report. rewrite Hp, !andb_false_r. reflexivity.
  - intros row <-. unfold insert_test_schedule. rewrite Hp, !andb_false_r. reflexivity.
  - intros e Hin Hpid. specialize (He e Hin Hpid). split; [|split; [|split]]; intros row Hrow.
    + unfold insert_test_result. rewrite Hrow, He, !andb_false_r. reflexivity.
    + unfold insert_performance_metric. rewrite Hrow, He, !andb_false_r. reflexivity.
    + unfold insert_accessibility_issue. rewrite Hrow, He, !andb_false_r. reflexivity.
    + unfold insert_screenshot. rewrite Hrow, He, !andb_false_r. reflexivity.
Qed.

Lemma insert_into_foreign_project_rejected_witness :
  insert_bug_report (Authenticated "user-2") (br_with_id "bug-9" sample_bug_report)
    (run sample_script) = None.
Proof.
  destruct (insert_into_foreign_project_rejected (run sample_script) "user-2" "user-1" "project-1")
    as (_ & _ & Hbug & _).
  - exists (Stmt <$> sample_script). apply run_commands_Stmt.
  - exists sample_project. split; [vm_compute; apply list_elem_of_here | split; reflexivity].
  - discriminate.
  - apply Hbug. reflexivity.
Defined.

(** X17: The INSERT policy of bug_reports looks at the project only: a user who
    owns the project of a new bug report may point it at any execution of
    the store, whatever project (and owner) that execution has. *)
Theorem bug_report_may_reference_any_execution (db : Database) (uid eid : uuid)
    (row : bug_reports_row) :
  (br_id row ∉ map br_id (bug_reports db)) ->
  owned_by uid (br_project_id row) db ->
  br_execution_id row = Some eid ->
  (eid ∈ map te_id (test_executions db)) ->
  insert_bug_report (Authenticated uid) row db
  = Some (with_bug_reports (bug_reports db ++ [ row ]) db).
Proof.
  intros Hfresh Hown Hexec Hin. unfold insert_bug_report.
  assert (Hp : has_key (br_project_id row) (map tp_id (test_projects db)) = true).
  { apply bool_decide_eq_true. destruct Hown as (p & Hp & <- & _).
    apply (list_elem_of_fmap_2 tp_id). exact Hp. }
  rewrite Hexec, Hp.
  unfold fresh_key, has_key. rewrite !bool_decide_eq_true_2 by assumption.
  apply owns_project_spec in Hown. rewrite Hown. reflexivity.
Qed.

Lemma bug_report_may_reference_any_execution_witness :
  let other_project :=
    {| tp_id := "project-2"; tp_name := "Blog"; tp_description := None;
       tp_base_url := "https://example.org"; tp_owner_id := "user-2";
       tp_status := None; tp_created_at := None; tp_updated_at := None |} in
  let db := exec (InsertTestProject (Authenticated "user-2") other_project) (run sample_script) in
  let row :=
    {| br_id := "bug-7"; br_project_id := "project-2"; br_execution_id := Some "exec-1";
       br_title := "Note"; br_description := None; br_severity := "low"; br_status := None;
       br_bug_type := None; br_page_url := None; br_steps_to_reproduce := None;
       br_expected_behavior := None; br_actual_behavior := None; br_browser_info := None;
       br_created_at := None; br_updated_at := None |} in
  insert_bug_report (Authenticated "user-2") row db
  = Some (with_bug_reports (bug_reports db ++ [ row ]) db).
Proof.
  intros other_project db row.
  apply (bug_report_may_reference_any_execution db "user-2" "exec-1" row).
  - subst db. compute_done.
  - exists other_project. split; [|split; reflexivity].
    vm_compute. apply list_elem_of_further, list_elem_of_here.
  - reflexivity.
  - subst db. compute_done.
Defined.

(** X18: What two different users can SELECT never overlaps, in any of the nine
    tables: each user sees rows of their own projects only. *)
Theorem select_views_disjoint (db : Database) (u1 u2 : uuid) :
  reachable_with_updates db -> u1 <> u2 ->
  (forall x, x ∈ select_test_projects (Authenticated u1) db ->
     x ∉ select_test_projects (Authenticated u2) db)
  /\ (forall x, x ∈ select_test_scenarios (Authenticated u1) db ->
        x ∉ select_test_scenarios (Authenticated u2) db)
  /\ (forall x, x ∈ select_test_executions (Authenticated u1) db ->
        x ∉ select_test_executions (Authenticated u2) db)
  /\ (forall x, x ∈ select_test_results (Authenticated u1) db ->
        x ∉ select_test_results (Authenticated u2) db)
  /\ (forall x, x ∈ select_bug_reports (Authenticated u1) db ->
        x ∉ select_bug_reports (Authenticated u2) db)
  /\ (forall x, x ∈ select_performance_metrics (Authenticated u1) db ->
        x ∉ select_performance_metrics (Authenticated u2) db)
  /\ (forall x, x ∈ select_accessibility_issues (Authenticated u1) db ->
        x ∉ select_accessibility_issues (Authenticated u2) db)
  /\ (forall x, x ∈ select_screenshots (Authenticated u1) db ->
        x ∉ select_screenshots (Authenticated u2) db)
  /\ (forall x, x ∈ select_test_schedules (Authenticated u1) db ->
        x ∉ select_test_schedules (Authenticated u2) db).
Proof.
  intros [cs <-] Hne. destruct (run_commands_constraints cs) as [Hpk _].
  set (db := run_commands cs) in *.
  assert (Hp : forall pid, owns_project (Authenticated u1) pid db = true ->
            owns_project (Authenticated u2) pid db = true -> False).
  { intros pid H1 H2. apply owns_project_spec in H1, H2.
    apply Hne. exact (project_has_one_owner db u1 u2 pid Hpk H1 H2). }
  assert (He : forall eid, owns_execution (Authenticated u1) eid db = true ->
            owns_execution (Authenticated u2) eid db = true -> False).
  { intros eid H1 H2. apply owns_execution_spec in H1, H2.
    apply Hne. exact (execution_has_one_owner db u1 u2 eid Hpk H1 H2). }
  unfold select_test_projects, select_test_scenarios, select_test_executions,
    select_test_results, select_bug_reports, select_performance_metrics,
    select_accessibility_issues, select_screenshots, select_test_schedules.
  repeat split; intros x H1 H2;
    apply list_elem_of_filter in H1 as [H1 _]; apply list_elem_of_filter in H2 as [H2 _];
    first [ exact (Hp _ H1 H2) | exact (He _ H1 H2) | idtac ].
  simpl in H1, H2. apply bool_decide_eq_true in H1, H2. congruence.
Qed.

Lemma select_views_disjoint_witness :
  sample_bug_report ∉ select_bug_reports (Authenticated "user-2") (run sample_script).
Proof.
  destruct (select_views_disjoint (run sample_script) "user-1" "user-2")
    as (_ & _ & _ & _ & Hbug & _).
  - exists (Stmt <$> sample_script). apply run_commands_Stmt.
  - discriminate.
  - apply Hbug. apply list_elem_of_filter. split; [reflexivity|].
    vm_compute. apply list_elem_of_here.
Defined.


Lemma is_owner_spec uid p : is_owner (Authenticated uid) p = true <-> tp_owner_id p = uid.
Proof. unfold is_owner. apply bool_decide_eq_true. Qed.

(** X19: An authenticated user's UPDATE of test_projects never changes who owns a
    project: the owner column reads the same before and after, the projects
    of other users are left as they are, and a row the statement writes is
    the user's own. *)
Theorem update_test_project_keeps_owners (uid k : uuid) (new : test_projects_row)
    (db : Database) :
  let db' := update_test_project (Authenticated uid) k new db in
  map tp_owner_id (test_projects db') = map tp_owner_id (test_projects db)
  /\ (forall p, p ∈ test_projects db -> tp_owner_id p <> uid -> p ∈ test_projects db')
  /\ (forall p, p ∈ test_projects db' ->
        (p ∈ test_projects db) \/ (p = new /\ tp_owner_id new = uid)).
Proof.
  intros db'. subst db'. unfold update_test_project.
  destruct (_ && _ && _) eqn:Hc; [|split; [reflexivity | split; [tauto | tauto]]].
  split_andb. cbn -[update_rows].
  match goal with H : is_owner _ new = true |- _ => apply is_owner_spec in H; rename H into Hnew end.
  split; [|split].
  - unfold update_rows. rewrite map_map. apply map_ext. intros p.
    destruct (decide (tp_id p = k)); [|reflexivity].
    destruct (is_owner (Authenticated uid) p) eqn:Ho; [|reflexivity].
    apply is_owner_spec in Ho. congruence.
  - intros p Hin Hne. apply update_rows_elem. exists p. split; [exact Hin|]. right.
    split; [|reflexivity]. intros [_ Ho]. apply is_owner_spec in Ho. contradiction.
  - intros p Hin. apply update_rows_elem in Hin as (p0 & Hin & [(_ & _ & ->)|(_ & ->)]); tauto.
Qed.

(** X20: An authenticated user's UPDATE of a scenario, execution, bug report or
    schedule leaves every row of a project the user does not own as it is,
    and a row the statement writes is in a project the user owns. *)
Theorem authenticated_update_scope (uid k : uuid) (db : Database) :
  (forall new,
     let db' := update_test_scenario (Authenticated uid) k new db in
     (forall x, x ∈ test_scenarios db -> ~ owned_by uid (sc_project_id x) db ->
        x ∈ test_scenarios db')
     /\ (forall x, x ∈ test_scenarios db' ->
           (x ∈ test_scenarios db) \/ (x = new /\ owned_by uid (sc_project_id new) db)))
  /\ (forall new,
        let db' := update_test_execution (Authenticated uid) k new db in
        (forall x, x ∈ test_executions db -> ~ owned_by uid (te_project_id x) db ->
           x ∈ test_executions db')
        /\ (forall x, x ∈ test_executions db' ->
              (x ∈ test_executions db) \/ (x = new /\ owned_by uid (te_project_id new) db)))
  /\ (forall new,
        let db' := update_bug_report (Authenticated uid) k new db in
        (forall x, x ∈ bug_reports db -> ~ owned_by uid (br_project_id x) db ->
           x ∈ bug_reports db')
        /\ (forall x, x ∈ bug_reports db' ->
              (x ∈ bug_reports db) \/ (x = new /\ owned_by uid (br_project_id new) db)))
  /\ (forall new,
        let db' := update_test_schedule (Authenticated uid) k new db in
        (forall x, x ∈ test_schedules db -> ~ owned_by uid (sch_project_id x) db ->
           x ∈ test_schedules db')
        /\ (forall x, x ∈ test_schedules db' ->
              (x ∈ test_schedules db) \/ (x = new /\ owned_by uid (sch_project_id new) db))).
Proof.
  split; [|split; [|split]]; intros new db'; subst db';
    unfold update_test_scenario, update_test_execution, update_bug_report,
      update_test_schedule;
    (match goal with
     | |- context [if ?c then _ else _] => destruct c eqn:Hc; [|split; intros; tauto]
     end);
    split_andb; cbn -[update_rows];
    (split;
     [ intros x Hin Hno; apply update_rows_elem; exists x; split; [exact Hin|]; right;
       split; [|reflexivity]; intros [_ Ho]; apply owns_project_spec in Ho; contradiction
     | intros x Hin;
       apply update_rows_elem in Hin as (x0 & Hin & [(_ & _ & ->)|(_ & ->)]);
       [ right; split; [reflexivity|]; apply owns_project_spec; assumption
       | left; exact Hin ] ]).
Qed.

(** *** INSERT, then SELECT *)

(** X21: A row that a role inserts is a row the same role can SELECT afterwards,
    in each of the nine tables. *)
Theorem inserted_row_is_visible (r : role) (db db' : Database) :
  (forall row, insert_test_project r row db = Some db' ->
     row ∈ select_test_projects r db')
  /\ (forall row, insert_test_scenario r row db = Some db' ->
        row ∈ select_test_scenarios r db')
  /\ (forall row, insert_test_execution r row db = Some db' ->
        row ∈ select_test_executions r db')
  /\ (forall row, insert_test_result r row db = Some db' ->
        row ∈ select_test_results r db')
  /\ (forall row, insert_bug_report r row db = Some db' ->
        row ∈ select_bug_reports r db')
  /\ (forall row, insert_performance_metric r row db = Some db' ->
        row ∈ select_performance_metrics r db')
  /\ (forall row, insert_accessibility_issue r row db = Some db' ->
        row ∈ select_accessibility_issues r db')
  /\ (forall row, insert_screenshot r row db = Some db' ->
        row ∈ select_screenshots r db')
  /\ (forall row, insert_test_schedule r row db = Some db' ->
        row ∈ select_test_schedules r db').
Proof.
  repeat split; intros row; unfold_inserts;
    (match goal with
     | |- context [if ?c then _ else _] => destruct c eqn:Hc; [|discriminate]
     end);
    intros [= <-]; split_andb;
    apply list_elem_of_filter;
    (split; [|cbn; apply elem_of_app; right; apply list_elem_of_singleton; reflexivity]).
  - unfold is_owner. destruct r; assumption.
  - assumption.
  - destruct r as [uid|]; [|reflexivity].
    match goal with H : owns_project _ _ _ = true |- _ => exact H end.
  - destruct r as [uid|]; [|reflexivity].
    match goal with H : owns_execution _ _ _ = true |- _ => exact H end.
  - assumption.
  - assumption.
  - assumption.
  - destruct r as [uid|]; [|reflexivity].
    match goal with H : owns_execution _ _ _ = true |- _ => exact H end.
  - destruct r as [uid|]; [|reflexivity].
    match goal with H : owns_project _ _ _ = true |- _ => exact H end.
Qed.

Lemma inserted_row_is_visible_witness :
  let db := run sample_script in
  let row := br_with_id "bug-9" sample_bug_report in
  row ∈ select_bug_reports (Authenticated "user-1")
          (with_bug_reports (bug_reports db ++ [ row ]) db).
Proof.
  intros db row.
  destruct (inserted_row_is_visible (Authenticated "user-1") db
              (with_bug_reports (bug_reports db ++ [ row ]) db))
    as (_ & _ & _ & _ & Hbug & _).
  apply Hbug. vm_compute. reflexivity.
Defined.

Lemma project_has_an_owner db pid :
  (pid ∈ map tp_id (test_projects db)) ->
  exists uid, owns_project (Authenticated uid) pid db = true.
Proof.
  intros Hin. apply (list_elem_of_fmap_1 tp_id) in Hin as (p & -> & Hp).
  exists (tp_owner_id p). apply owns_project_spec. exists p. tauto.
Qed.

Lemma execution_has_an_owner db eid :
  foreign_keys_hold db -> (eid ∈ map te_id (test_executions db)) ->
  exists uid, owns_execution (Authenticated uid) eid db = true.
Proof.
  intros Hfk Hin. apply (list_elem_of_fmap_1 te_id) in Hin as (e & -> & He).
  destruct (project_has_an_owner db (te_project_id e)) as [uid Hu].
  { apply (fk_test_executions_project db Hfk e); [exact He | reflexivity]. }
  exists uid. apply owns_execution_spec. exists e.
  apply owns_project_spec in Hu. tauto.
Qed.

(** X22: No row of the store is out of every user's sight: at every state that
    INSERT, UPDATE and DELETE statements reach, each row of each of the nine
    tables is in what some user can SELECT (the owner of its project). *)
Theorem every_row_has_a_viewer (db : Database) :
  reachable_with_updates db ->
  (forall x, x ∈ test_projects db ->
     exists uid, x ∈ select_test_projects (Authenticated uid) db)
  /\ (forall x, x ∈ test_scenarios db ->
        exists uid, x ∈ select_test_scenarios (Authenticated uid) db)
  /\ (forall x, x ∈ test_executions db ->
        exists uid, x ∈ select_test_executions (Authenticated uid) db)
  /\ (forall x, x ∈ test_results db ->
        exists uid, x ∈ select_test_results (Authenticated uid) db)
  /\ (forall x, x ∈ bug_reports db ->
        exists uid, x ∈ select_bug_reports (Authenticated uid) db)
  /\ (forall x, x ∈ performance_metrics db ->
        exists uid, x ∈ select_performance_metrics (Authenticated uid) db)
  /\ (forall x, x ∈ accessibility_issues db ->
        exists uid, x ∈ select_accessibility_issues (Authenticated uid) db)
  /\ (forall x, x ∈ screenshots db ->
        exists uid, x ∈ select_screenshots (Authenticated uid) db)
  /\ (forall x, x ∈ test_schedules db ->
        exists uid, x ∈ select_test_schedules (Authenticated uid) db).
Proof.
  intros [cs <-]. destruct (run_commands_constraints cs) as [_ Hfk].
  set (db := run_commands cs) in *.
  assert (Hp : forall {R} (col : R -> uuid) (rows : list R) x,
            refs_in (not_null col) rows (map tp_id (test_projects db)) -> x ∈ rows ->
            exists uid, owns_project (Authenticated uid) (col x) db = true).
  { intros R col rows x Href Hx. apply project_has_an_owner.
    apply (Href x); [exact Hx | reflexivity]. }
  assert (He : forall {R} (col : R -> uuid) (rows : list R) x,
            refs_in (not_null col) rows (map te_id (test_executions db)) -> x ∈ rows ->
            exists uid, owns_execution (Authenticated uid) (col x) db = true).
  { intros R col rows x Href Hx. apply (execution_has_an_owner db _ Hfk).
    apply (Href x); [exact Hx | reflexivity]. }
  destruct Hfk.
  split; [|repeat split]; intros x Hx.
  - exists (tp_owner_id x). apply list_elem_of_filter. split; [|exact Hx].
    apply is_owner_spec. reflexivity.
  - destruct (Hp _ sc_project_id _ x ltac:(eassumption) Hx) as [uid Hu].
    exists uid. apply list_elem_of_filter. split; assumption.
  - destruct (Hp _ te_project_id _ x ltac:(eassumption) Hx) as [uid Hu].
    exists uid. apply list_elem_of_filter. split; assumption.
  - destruct (He _ tr_execution_id _ x ltac:(eassumption) Hx) as [uid Hu].
    exists uid. apply list_elem_of_filter. split; assumption.
  - destruct (Hp _ br_project_id _ x ltac:(eassumption) Hx) as [uid Hu].
    exists uid. apply list_elem_of_filter. split; assumption.
  - destruct (He _ pm_execution_id _ x ltac:(eassumption) Hx) as [uid Hu].
    exists uid. apply list_elem_of_filter. split; assumption.
  - destruct (He _ ai_execution_id _ x ltac:(eassumption) Hx) as [uid Hu].
    exists uid. apply list_elem_of_filter. split; assumption.
  - destruct (He _ ss_execution_id _ x ltac:(eassumption) Hx) as [uid Hu].
    exists uid. apply list_elem_of_filter. split; assumption.
  - destruct (Hp _ sch_project_id _ x ltac:(eassumption) Hx) as [uid Hu].
    exists uid. apply list_elem_of_filter. split; assumption.
Qed.

Lemma every_row_has_a_viewer_witness :
  exists uid, sample_bug_report ∈ select_bug_reports (Authenticated uid) (run sample_script).
Proof.
  destruct (every_row_has_a_viewer (run sample_script)) as (_ & _ & _ & _ & Hbug & _).
  - exists (Stmt <$> sample_script). apply run_commands_Stmt.
  - apply Hbug. vm_compute. apply list_elem_of_here.
Defined.

End SchemaPolicyFacts.
